(** * Uptime monitor core: retry wrapper, status recorder, notification
      engine, probe executors and compact identifiers.

    A shallow embedding of the TypeScript sources
    (lib/monitors/checker.ts, checker-database.ts, checker-icmp.ts,
    notification-service.ts, the status recorder and
    lib/utils/ultra-compact-id.ts) together with the properties that the
    specification states about them.

    Conventions of the embedding:
    - JavaScript integers (epoch milliseconds, counters, status codes) are
      [Z]; JavaScript numbers that carry fractions are rationals [Q]; where
      the sources divide, multiply and add such numbers to rebuild a date
      ([extractTimeFromUltraCompactId]) every operation is rounded to the
      nearest binary64 number ([roundDouble]), and so are the divisions
      under [Math.floor] in the generators, where the rounding does not
      change the result (lemma [timeUnit_in_doubles]);
    - [async] functions are functions over an explicit world: the clock,
      the database, the network and the random source are inputs, and what
      a function does to the outside is recorded in a trace of events;
    - a JavaScript exception is the [Throw] constructor of [Exc];
    - the in-memory [Map] of the notification engine is a [gmap]. *)

From stdpp Require Import gmap strings.
From Stdlib Require Import ZArith QArith Qround Qpower Lia Lqa String Ascii DecimalString
  List.
Import ListNotations.

Local Open Scope string_scope.
Local Open Scope Z_scope.

(* String concatenation computes under [simpl] in this development. *)
#[local] Arguments String.append !s1 s2 : simpl nomatch.

(** ** Exceptions *)

Inductive Exc (A : Type) : Type :=
| Ok (a : A)
| Throw (msg : string).
Arguments Ok {A} a.
Arguments Throw {A} msg.

(** ** JavaScript primitives used by the sources *)

(** [String(n)] for an integer-valued number, in decimal digits: what
    JavaScript prints for an integer below 10^21 in magnitude. The sources
    use it for counts, attempt numbers and durations in minutes. *)
Definition numToString (n : Z) : string := NilZero.string_of_int (Z.to_int n).

Fixpoint repeatChar (n : nat) (c : ascii) : string :=
  match n with
  | O => EmptyString
  | S n' => String c (repeatChar n' c)
  end.

(** [s.padStart(target, pad)] with a one-character pad. *)
Definition padStart (target : nat) (pad : ascii) (s : string) : string :=
  repeatChar (target - String.length s) pad ++ s.

Definition BASE36_CHARS : string := "0123456789abcdefghijklmnopqrstuvwxyz".

Definition digitChar (d : Z) : ascii :=
  match String.get (Z.to_nat d) BASE36_CHARS with
  | Some c => c
  | None => "0"%char
  end.

(** Digits of [n] in radix 36, most significant first, pushed in front of
    [acc]. One digit is produced per unit of fuel; [toString36] supplies
    the bit length of [n], which is never fewer than its radix-36 digits. *)
Fixpoint toString36_digits (fuel : nat) (n : Z) (acc : string) : string :=
  match fuel with
  | O => acc
  | S fuel' =>
      let acc' := String (digitChar (n mod 36)) acc in
      if n <? 36 then acc' else toString36_digits fuel' (n / 36) acc'
  end.

(** [n.toString(36)] for an integer [n]. *)
Definition toString36 (n : Z) : string :=
  if n <? 0
  then String "-" (toString36_digits (S (Z.to_nat (Z.log2 (- n)))) (- n) EmptyString)
  else toString36_digits (S (Z.to_nat (Z.log2 n))) n EmptyString.

Definition digitValue (c : ascii) : option Z :=
  let n := Z.of_nat (nat_of_ascii c) in
  if (48 <=? n) && (n <=? 57) then Some (n - 48)
  else if (97 <=? n) && (n <=? 122) then Some (n - 87)
  else if (65 <=? n) && (n <=? 90) then Some (n - 55)
  else None.

Fixpoint parseDigits36 (s : string) (acc : Z) : Z :=
  match s with
  | EmptyString => acc
  | String c rest =>
      match digitValue c with
      | Some d => parseDigits36 rest (acc * 36 + d)
      | None => acc
      end
  end.

(** [parseInt(s, 36)] on a string without leading white space or sign (the
    only strings it is applied to here are made of [0-9a-z]): the longest
    prefix of radix-36 digits, [None] (NaN) when that prefix is empty. *)
Definition parseInt36 (s : string) : option Z :=
  match s with
  | EmptyString => None
  | String c _ =>
      match digitValue c with
      | Some _ => Some (parseDigits36 s 0)
      | None => None
      end
  end.

(** [charCodeAt(i)] of an ASCII string; NaN is not needed here. *)
Definition charCodeAt (s : string) (i : nat) : Z :=
  match String.get i s with
  | Some c => Z.of_nat (nat_of_ascii c)
  | None => 0
  end.

(** A [Date]: a whole number of milliseconds, or Invalid Date. *)
Inductive JsDate : Type :=
| ValidDate (ms : Z)
| InvalidDate.

Definition Qtruncate (q : Q) : Z :=
  if Qle_bool 0 q then Qfloor q else Qceiling q.

(** [new Date(v)]: the time value is clipped to +-8.64e15 and truncated
    to an integer. *)
Definition newDate (v : option Q) : JsDate :=
  match v with
  | None => InvalidDate
  | Some q =>
      if Qle_bool q (inject_Z 8640000000000000) && Qle_bool (inject_Z (- 8640000000000000)) q
      then ValidDate (Qtruncate q)
      else InvalidDate
  end.

(** *** Arithmetic on doubles

    A JavaScript number is an IEEE-754 binary64 value and every arithmetic
    operation returns the representable number nearest to the exact
    result, ties going to the even significand. For a positive rational
    [q] with [2^e <= q < 2^(e+1)] the representable numbers around it are
    the multiples of [2^(e-52)]; [roundDouble] picks the nearest one.
    Overflow and subnormal numbers are left out: the magnitudes the
    sources compute with lie between 1 and 2^53. *)

(** The integer nearest to [q], ties to even. *)
Definition roundHalfEven (q : Q) : Z :=
  let f := Qfloor q in
  match (q - inject_Z f ?= 1 # 2)%Q with
  | Lt => f
  | Gt => f + 1
  | Eq => if Z.even f then f else f + 1
  end.

(** The binary exponent of a positive rational: the [e] with
    [2^e <= q < 2^(e+1)]. *)
Definition binade (q : Q) : Z :=
  let e0 := Z.log2 (Qnum q) - Z.log2 (Zpos (Qden q)) in
  if Qle_bool (2 ^ e0) q then e0 else e0 - 1.

Definition roundDouble (q : Q) : Q :=
  if Qeq_bool q 0 then 0%Q
  else if Qle_bool 0 q
  then (let ulp := 2 ^ (binade q - 52) in inject_Z (roundHalfEven (q / ulp)) * ulp)%Q
  else (let ulp := 2 ^ (binade (- q) - 52) in
        - (inject_Z (roundHalfEven (- q / ulp)) * ulp))%Q.

(** ** lib/utils/ultra-compact-id.ts *)

(** [new Date('2024-01-01T00:00:00Z').getTime()]. *)
Definition BASE_TIME : Z := 1704067200000.
Definition THREE_YEARS_MS : Z := 3 * 365 * 24 * 60 * 60 * 1000.

Definition out_of_range_msg : string := "时间超出3年范围，需要调整BASE_TIME".

(** The generators read [Date.now()] and [Math.random()]; both are
    arguments here: [now] in epoch milliseconds and [random] in [0, 1).
    The two divisions of the time code are divisions of doubles; the
    random draw is any rational and is scaled exactly. *)
Definition generateUltraCompactId6 (now : Z) (random : Q) : Exc string :=
  let relativeTime := now - BASE_TIME in
  if (relativeTime <? 0) || (relativeTime >? THREE_YEARS_MS) then Throw out_of_range_msg
  else
    let timeUnit :=
      Qfloor (roundDouble
                (inject_Z relativeTime
                 / roundDouble (inject_Z THREE_YEARS_MS / inject_Z (36 * 36 * 36)))) in
    let timeCode := padStart 3 "0" (toString36 timeUnit) in
    let random := padStart 2 "0" (toString36 (Qfloor (random * 36 * 36))) in
    Ok (timeCode ++ random).

Definition generateUltraCompactId7 (now : Z) (random : Q) : Exc string :=
  let relativeTime := now - BASE_TIME in
  if (relativeTime <? 0) || (relativeTime >? THREE_YEARS_MS) then Throw out_of_range_msg
  else
    let timeUnit :=
      Qfloor (roundDouble
                (inject_Z relativeTime
                 / roundDouble (inject_Z THREE_YEARS_MS / inject_Z (36 * 36 * 36 * 36)))) in
    let timeCode := padStart 4 "0" (toString36 timeUnit) in
    let random := padStart 3 "0" (toString36 (Qfloor (random * 36 * 36 * 36))) in
    Ok (timeCode ++ random).

Definition generateUltraCompactId8 (now : Z) (random : Q) : Exc string :=
  let relativeTime := now - BASE_TIME in
  if (relativeTime <? 0) || (relativeTime >? THREE_YEARS_MS) then Throw out_of_range_msg
  else
    let timeUnit :=
      Qfloor (roundDouble
                (inject_Z relativeTime
                 / roundDouble (inject_Z THREE_YEARS_MS / inject_Z (36 * 36 * 36 * 36 * 36)))) in
    let timeCode := padStart 5 "0" (toString36 timeUnit) in
    let random := padStart 2 "0" (toString36 (Qfloor (random * 36 * 36))) in
    let checksum := toString36 ((timeUnit + charCodeAt random 0 + charCodeAt random 1) mod 36) in
    Ok (timeCode ++ random ++ checksum).

Definition generateUltraCompactId9 (now : Z) (random : Q) : Exc string :=
  let relativeTime := now - BASE_TIME in
  if (relativeTime <? 0) || (relativeTime >? THREE_YEARS_MS) then Throw out_of_range_msg
  else
    let timeUnit :=
      Qfloor (roundDouble
                (inject_Z relativeTime
                 / roundDouble (inject_Z THREE_YEARS_MS / inject_Z (36 * 36 * 36 * 36 * 36 * 36)))) in
    let timeCode := padStart 6 "0" (toString36 timeUnit) in
    let random := padStart 3 "0" (toString36 (Qfloor (random * 36 * 36 * 36))) in
    Ok (timeCode ++ random).

Definition isLowerAlnum (c : ascii) : bool :=
  let n := Z.of_nat (nat_of_ascii c) in
  ((48 <=? n) && (n <=? 57)) || ((97 <=? n) && (n <=? 122)).

Fixpoint allChars (p : ascii -> bool) (s : string) : bool :=
  match s with
  | EmptyString => true
  | String c rest => p c && allChars p rest
  end.

(** [/^[0-9a-z]{6,9}$/.test(id)]. *)
Definition isUltraCompactId (id : string) : bool :=
  allChars isLowerAlnum id
  && (6 <=? String.length id)%nat && (String.length id <=? 9)%nat.

Definition extractTimeFromUltraCompactId (id : string) : option JsDate :=
  if negb (isUltraCompactId id) then None
  else
    let layout : option (string * Z) :=
      if (String.length id =? 6)%nat then Some (substring 0 3 id, 36 * 36 * 36)
      else if (String.length id =? 7)%nat then Some (substring 0 4 id, 36 * 36 * 36 * 36)
      else if (String.length id =? 8)%nat then Some (substring 0 5 id, 36 * 36 * 36 * 36 * 36)
      else if (String.length id =? 9)%nat
           then Some (substring 0 6 id, 36 * 36 * 36 * 36 * 36 * 36)
      else None in
    match layout with
    | None => None
    | Some (timeCode, timeUnits) =>
        let timeUnit := parseInt36 timeCode in
        let unitDuration := roundDouble (inject_Z THREE_YEARS_MS / inject_Z timeUnits) in
        let relativeTime :=
          option_map (fun u => roundDouble (inject_Z u * unitDuration)) timeUnit in
        Some (newDate (option_map (fun r => roundDouble (inject_Z BASE_TIME + r)) relativeTime))
    end.

(** The number [extractTimeFromUltraCompactId] hands to [new Date] for the
    time code [timeUnit] of a layout with [timeUnits] buckets: the
    quotient, the product and the sum of its last four lines, each a
    double. *)
Definition codeTime (timeUnits timeUnit : Z) : Q :=
  let unitDuration := roundDouble (inject_Z THREE_YEARS_MS / inject_Z timeUnits) in
  let relativeTime := roundDouble (inject_Z timeUnit * unitDuration) in
  roundDouble (inject_Z BASE_TIME + relativeTime).

(** The width of one time bucket of an identifier whose time prefix has
    [prefixLen] characters: the three-year horizon over 36^prefixLen. *)
Definition bucketDuration (prefixLen : Z) : Q :=
  (inject_Z THREE_YEARS_MS / inject_Z (36 ^ prefixLen))%Q.

(** ** Check results and the world of a probe *)

(** [MONITOR_STATUS] of lib/monitors/types, as restated in the
    compact-message module. *)
Definition DOWN : Z := 0.
Definition UP : Z := 1.
Definition PENDING : Z := 2.

Record CheckResult : Type := mkResult {
  status : Z;
  message : string;
  ping : option Q
}.

(** [{ ...r, message: m }]. *)
Definition withMessage (r : CheckResult) (m : string) : CheckResult :=
  {| status := status r; message := m; ping := ping r |}.

(** What a probe does to the outside, in program order. *)
Inductive Event : Type :=
| EvSleep (ms : Z)
| EvSocketConnect (hostname : string) (port : option Q)
| EvMysqlConnect (hostname : string) (port : Q) (database : string)
| EvMysqlExecute (sql : string)
| EvRedisConnect (url : string)
| EvRedisCommand (command : string)
| EvRedisPing
| EvClose
| EvPing (hostname : string) (packetCount : Z)
| EvExternalCheck (checker : string).

Inductive SocketOutcome : Type :=
| SockConnect
| SockTimeout
| SockError (code msg : string)
| SockThrow (msg : string).

Inductive DbOutcome : Type :=
| DbOk
| DbConnectFail (msg : string)
| DbQueryFail (msg : string).

Record PingResponse : Type := mkPing {
  alive : bool;
  time : option Q;        (* [None] is the library's 'unknown' *)
  avg : option Q;
  packetLoss : Q          (* percent of echoes lost *)
}.

(** The answers of the network. The [n]-th input/output operation of a run
    reads the field of its kind at index [n]. *)
Record Net : Type := mkNet {
  net_socket : nat -> SocketOutcome;
  net_db : nat -> DbOutcome;
  net_ping : nat -> Exc PingResponse;
  net_check : nat -> Exc CheckResult;
  net_elapsed : nat -> Z
}.

Record World : Type := mkWorld {
  w_ios : nat;
  w_trace : list Event
}.

Definition emit (e : Event) (w : World) : World :=
  {| w_ios := w_ios w; w_trace := (w_trace w ++ [e])%list |}.

Definition tick (w : World) : World :=
  {| w_ios := S (w_ios w); w_trace := w_trace w |}.

(** [await new Promise(resolve => setTimeout(resolve, ms))]. *)
Definition sleep (ms : Z) (w : World) : World := emit (EvSleep ms) w.

Record ErrorMessages : Type := mkErrorMessages {
  TIMEOUT : string;
  UNKNOWN_ERROR : string;
  CONNECTION_REFUSED : string;
  HOST_NOT_FOUND : string;
  NETWORK_ERROR : string;
  DATABASE_ERROR : string
}.

(** The [port] of a configuration: a number, whole or not, or a string. *)
Inductive PortValue : Type :=
| PortNum (q : Q)
| PortStr (s : string).

(** The [config] JSON object of a monitor. *)
Record MonitorConfig : Type := mkConfig {
  cfg_url : option string;
  cfg_keyword : option string;
  cfg_hostname : option string;
  cfg_port : option PortValue;
  cfg_username : option string;
  cfg_password : option string;
  cfg_database : option string;
  cfg_query : option string;
  cfg_token : option string;
  cfg_pushInterval : option Z;
  cfg_packetCount : option Z;
  cfg_maxPacketLoss : option Q;
  cfg_maxResponseTime : option Q
}.

(** What the sources import from modules that are not part of them: the
    message table of lib/monitors/types, [formatDateTime] of
    lib/monitors/utils, and the parts of the JavaScript runtime that are
    used only through their results. *)
Record Host : Type := mkHost {
  ERROR_MESSAGES : ErrorMessages;
  parseInt : string -> option Z;          (* [None] is NaN *)
  showNumber : Q -> string;               (* [String(x)] *)
  formatDateTime : Z -> string;           (* local rendering of an instant *)
  JSON_parse : string -> Exc MonitorConfig;
  createClient_throws : string -> option string
    (* [createClient({ url })] of the redis package: the message of the
       exception when the URL is not one it accepts *)
}.

Definition isSpace (c : ascii) : bool :=
  let n := nat_of_ascii c in
  ((9 <=? n) && (n <=? 13))%nat || (n =? 32)%nat.

(** [s && s.trim()] as a condition. *)
Definition nonBlank (s : option string) : bool :=
  match s with
  | None => false
  | Some s => negb (allChars isSpace s)
  end.

(** Truthiness of an optional string and of an optional number. *)
Definition truthyStr (s : option string) : bool :=
  match s with
  | None | Some EmptyString => false
  | Some _ => true
  end.

Definition truthyNum (q : option Q) : bool :=
  match q with
  | None => false
  | Some q => negb (Qeq_bool q 0)
  end.

(** ** The retry loop

    The loop

      for (let i = 0; i < retries; i++) {
        await sleep(retryInterval * 1000);
        const retryResult = await attempt();
        if (retryResult.status === 1) return { ...retryResult, message: ... };
      }
      return { ...result, message: ... };

    is written out four times in the sources (executeMonitorCheck,
    checkDatabase, checkPort, checkIcmp) with the same text; [n] counts the
    iterations that remain and [i] is the loop variable. *)
Fixpoint retryLoop (attempt : World -> CheckResult * World)
    (retryInterval retries : Z) (result : CheckResult)
    (n : nat) (i : Z) (w : World) : CheckResult * World :=
  match n with
  | O =>
      (withMessage result
         ("重试" ++ numToString retries ++ "次后仍然失败: " ++ message result), w)
  | S n' =>
      let w1 := sleep (retryInterval * 1000) w in
      let '(retryResult, w2) := attempt w1 in
      if status retryResult =? 1
      then (withMessage retryResult
              ("重试成功 (" ++ numToString (i + 1) ++ "/" ++ numToString retries ++ "): "
               ++ message retryResult), w2)
      else retryLoop attempt retryInterval retries result n' (i + 1) w2
  end.

(** ** lib/monitors/checker-database.ts and the port checker *)

Record MonitorPortConfig : Type := mkPortConfig {
  port_hostname : option string;
  port_port : option PortValue;
  port_retries : option Z;
  port_retryInterval : option Z
}.

Record MonitorDatabaseConfig : Type := mkDbConfig {
  db_hostname : option string;
  db_port : option PortValue;
  db_username : option string;
  db_password : option string;
  db_database : option string;
  db_query : option string;
  db_retries : option Z;
  db_retryInterval : option Z
}.

Record MonitorIcmpConfig : Type := mkIcmpConfig {
  icmp_hostname : option string;
  icmp_packetCount : option Z;
  icmp_maxPacketLoss : option Q;
  icmp_maxResponseTime : option Q;
  icmp_retries : option Z;
  icmp_retryInterval : option Z
}.

(** [typeof port === 'string' ? parseInt(port) : port]; [None] stands for
    NaN and for a missing port. *)
Definition portNumberOf (h : Host) (port : option PortValue) : option Q :=
  match port with
  | Some (PortStr s) => option_map inject_Z (parseInt h s)
  | Some (PortNum q) => Some q
  | None => None
  end.

(** [`${port}`]: a number is printed as the host prints numbers. *)
Definition renderPort (h : Host) (p : PortValue) : string :=
  match p with
  | PortNum q => showNumber h q
  | PortStr s => s
  end.

Definition renderPortOpt (h : Host) (port : option PortValue) : string :=
  match port with
  | Some p => renderPort h p
  | None => "undefined"
  end.

(** Truthiness of a port: a number other than zero, a string that is not
    empty. *)
Definition truthyPort (port : option PortValue) : bool :=
  match port with
  | None => false
  | Some (PortNum q) => negb (Qeq_bool q 0)
  | Some (PortStr s) => negb (s =? "")%string
  end.

Definition orEmpty (s : option string) : string :=
  match s with Some s => s | None => "" end.

Section Executors.

Variable h : Host.
Variable net : Net.

(** [checkPortSingle]: the socket is created and [connect] is called with
    whatever [portNumber] is; the four handlers and the [catch] are the
    four outcomes of the socket. *)
Definition checkPortSingle (config : MonitorPortConfig) (w : World) : CheckResult * World :=
  let portNumber := portNumberOf h (port_port config) in
  let n := w_ios w in
  let w' := tick (emit (EvSocketConnect (orEmpty (port_hostname config)) portNumber) w) in
  let elapsed := Some (inject_Z (net_elapsed net n)) in
  match net_socket net n with
  | SockConnect => (mkResult UP "端口开放" elapsed, w')
  | SockTimeout => (mkResult DOWN (TIMEOUT (ERROR_MESSAGES h)) elapsed, w')
  | SockError code msg =>
      let message :=
        if (code =? "ECONNREFUSED")%string then CONNECTION_REFUSED (ERROR_MESSAGES h)
        else if (code =? "ETIMEDOUT")%string then TIMEOUT (ERROR_MESSAGES h)
        else if (code =? "ENOTFOUND")%string then HOST_NOT_FOUND (ERROR_MESSAGES h)
        else NETWORK_ERROR (ERROR_MESSAGES h) ++ ": " ++ msg in
      (mkResult DOWN message elapsed, w')
  | SockThrow msg =>
      (mkResult DOWN (UNKNOWN_ERROR (ERROR_MESSAGES h) ++ ": " ++ msg) None, w')
  end.

Definition checkPort (config : MonitorPortConfig) (w : World) : CheckResult * World :=
  let retries := default 0 (port_retries config) in
  let retryInterval := default 60 (port_retryInterval config) in
  if retries =? 0 then checkPortSingle config w
  else
    let '(result, w1) := checkPortSingle config w in
    if status result =? UP then (result, w1)
    else if retries >? 0
    then retryLoop (checkPortSingle config) retryInterval retries result
           (Z.to_nat retries) 0 w1
    else (result, w1).

(** [isNaN(portNumber) || portNumber <= 0 || portNumber > 65535]. *)
Definition portInvalid (portNumber : option Q) : bool :=
  match portNumber with
  | None => true
  | Some p => Qle_bool p 0 || negb (Qle_bool p 65535)
  end.

Definition invalidPortResult (port : option PortValue) : CheckResult :=
  mkResult DOWN ("配置无效: 端口号 " ++ renderPortOpt h port ++ " 不是有效的端口值") None.

Definition checkMysql (config : MonitorDatabaseConfig) (w : World) : CheckResult * World :=
  let portNumber := portNumberOf h (db_port config) in
  if portInvalid portNumber then (invalidPortResult (db_port config), w)
  else
    let n := w_ios w in
    let elapsed := Some (inject_Z (net_elapsed net n)) in
    let database := if truthyStr (db_database config) then orEmpty (db_database config)
                    else "mysql" in
    let w1 := tick (emit (EvMysqlConnect (orEmpty (db_hostname config))
                            (default 0%Q portNumber) database) w) in
    let sql := if nonBlank (db_query config) then orEmpty (db_query config) else "SELECT 1" in
    match net_db net n with
    | DbConnectFail msg =>
        (mkResult DOWN (DATABASE_ERROR (ERROR_MESSAGES h) ++ ": " ++ msg) elapsed, w1)
    | DbQueryFail msg =>
        (mkResult DOWN (DATABASE_ERROR (ERROR_MESSAGES h) ++ ": " ++ msg) elapsed,
         emit EvClose (emit (EvMysqlExecute sql) w1))
    | DbOk =>
        (mkResult UP
           ("数据库连接正常" ++ (if nonBlank (db_query config) then ", 查询成功" else ""))
           elapsed,
         emit EvClose (emit (EvMysqlExecute sql) w1))
    end.

(** [`redis://${password ? `:${password}@` : ''}${hostname}:${portNumber}`]. *)
Definition redisUrl (config : MonitorDatabaseConfig) : string :=
  "redis://"
  ++ (if truthyStr (db_password config) then ":" ++ orEmpty (db_password config) ++ "@"
      else "")
  ++ orEmpty (db_hostname config) ++ ":"
  ++ showNumber h (default 0%Q (portNumberOf h (db_port config))).

(** [checkRedis]: [createClient] is inside the [try]; when it throws,
    [client] is still undefined, the [catch] answers and the [finally] has
    nothing to disconnect. Once the client exists, [finally] disconnects
    it whatever happened. *)
Definition checkRedis (config : MonitorDatabaseConfig) (w : World) : CheckResult * World :=
  let portNumber := portNumberOf h (db_port config) in
  if portInvalid portNumber then (invalidPortResult (db_port config), w)
  else
    let n := w_ios w in
    let elapsed := Some (inject_Z (net_elapsed net n)) in
    match createClient_throws h (redisUrl config) with
    | Some msg =>
        (mkResult DOWN (DATABASE_ERROR (ERROR_MESSAGES h) ++ ": " ++ msg) elapsed, w)
    | None =>
        let w1 := tick (emit (EvRedisConnect (redisUrl config)) w) in
        let command := if nonBlank (db_query config)
                       then EvRedisCommand (orEmpty (db_query config)) else EvRedisPing in
        match net_db net n with
        | DbConnectFail msg =>
            (mkResult DOWN (DATABASE_ERROR (ERROR_MESSAGES h) ++ ": " ++ msg) elapsed,
             emit EvClose w1)
        | DbQueryFail msg =>
            (mkResult DOWN
               (if nonBlank (db_query config) then "Redis命令执行失败: " ++ msg
                else DATABASE_ERROR (ERROR_MESSAGES h) ++ ": " ++ msg)
               elapsed,
             emit EvClose (emit command w1))
        | DbOk =>
            (mkResult UP
               ("Redis连接正常"
                ++ (if nonBlank (db_query config) then ", 命令执行成功" else ""))
               elapsed,
             emit EvClose (emit command w1))
        end
    end.

(** [checkDatabaseSingle]; the first guard ([!config]) cannot fire on a
    configuration record and is left out. *)
Definition checkDatabaseSingle (type : string) (config : MonitorDatabaseConfig) (w : World)
    : CheckResult * World :=
  if negb (truthyStr (db_hostname config))
  then (mkResult DOWN "配置无效: 缺少主机名" None, w)
  else
    match db_port config with
    | None => (mkResult DOWN "配置无效: 缺少端口号" None, w)
    | Some _ =>
        if (type =? "mysql")%string then checkMysql config w
        else if (type =? "redis")%string then checkRedis config w
        else (mkResult DOWN ("不支持的数据库类型: " ++ type) None, w)
    end.

Definition checkDatabase (type : string) (config : MonitorDatabaseConfig) (w : World)
    : CheckResult * World :=
  let retries := default 0 (db_retries config) in
  let retryInterval := default 60 (db_retryInterval config) in
  let '(result, w1) := checkDatabaseSingle type config w in
  if status result =? UP then (result, w1)
  else if retries >? 0
  then retryLoop (checkDatabaseSingle type config) retryInterval retries result
         (Z.to_nat retries) 0 w1
  else (result, w1).

(** ** lib/monitors/checker-icmp.ts *)

Definition checkIcmpSingle (config : MonitorIcmpConfig) (w : World) : CheckResult * World :=
  let packetCount := default 4 (icmp_packetCount config) in
  let maxResponseTime := icmp_maxResponseTime config in
  let n := w_ios w in
  let w' := tick (emit (EvPing (orEmpty (icmp_hostname config)) packetCount) w) in
  match net_ping net n with
  | Throw msg => (mkResult DOWN ("Ping执行错误: " ++ msg) None, w')
  | Ok pingResult =>
      let isAlive := alive pingResult in
      let pingTime := time pingResult in
      if negb isAlive then (mkResult DOWN "目标不可达" None, w')
      else if truthyNum maxResponseTime && truthyNum pingTime
              && negb (Qle_bool (default 0%Q pingTime) (default 0%Q maxResponseTime))
      then (mkResult DOWN
              ("响应时间(" ++ showNumber h (default 0%Q pingTime) ++ "ms)超过阈值("
               ++ showNumber h (default 0%Q maxResponseTime) ++ "ms)")
              pingTime, w')
      else (mkResult UP
              (if truthyNum pingTime
               then "Ping正常: " ++ showNumber h (default 0%Q pingTime) ++ "ms"
               else "Ping正常")
              pingTime, w')
  end.

(** The retrying [checkIcmp]; the [checkIcmp] of checker-icmp.ts is the
    text of [checkIcmpSingle]. *)
Definition checkIcmp (config : MonitorIcmpConfig) (w : World) : CheckResult * World :=
  let retries := default 0 (icmp_retries config) in
  let retryInterval := default 60 (icmp_retryInterval config) in
  if retries =? 0 then checkIcmpSingle config w
  else
    let '(result, w1) := checkIcmpSingle config w in
    if status result =? UP then (result, w1)
    else if retries >? 0
    then retryLoop (checkIcmpSingle config) retryInterval retries result
           (Z.to_nat retries) 0 w1
    else (result, w1).

End Executors.

(** ** lib/monitors/checker.ts *)

Inductive ConfigValue : Type :=
| ConfigObject (c : MonitorConfig)
| ConfigString (json : string).

Record Monitor : Type := mkMonitor {
  m_type : string;
  m_config : ConfigValue;
  m_interval : Z;
  m_retries : Z;
  m_retryInterval : Z
}.

(** [{ ...monitor, retries: 0 }]. *)
Definition withRetries0 (monitor : Monitor) : Monitor :=
  {| m_type := m_type monitor; m_config := m_config monitor;
     m_interval := m_interval monitor; m_retries := 0;
     m_retryInterval := m_retryInterval monitor |}.

(** The [checkers] object of lib/monitors/index. A checker is an [async]
    function: it may reject. *)
Record Checkers : Type := mkCheckers {
  chk_http : MonitorConfig -> World -> Exc CheckResult * World;
  chk_https_cert : MonitorConfig -> World -> Exc CheckResult * World;
  chk_keyword : MonitorConfig -> World -> Exc CheckResult * World;
  chk_port : MonitorPortConfig -> World -> Exc CheckResult * World;
  chk_database : string -> MonitorDatabaseConfig -> World -> Exc CheckResult * World;
  chk_push : option string -> Z -> World -> Exc CheckResult * World;
  chk_icmp : MonitorIcmpConfig -> World -> Exc CheckResult * World
}.

Section ExecuteMonitorCheck.

Variable h : Host.
Variable checkers : Checkers.

(** The [switch (monitor.type)]: the checker to run with its arguments,
    [None] for the [default] branch. *)
Definition selectChecker (monitor : Monitor) (config : MonitorConfig)
    : option (World -> Exc CheckResult * World) :=
  let type := m_type monitor in
  if (type =? "http")%string then Some (chk_http checkers config)
  else if (type =? "https-cert")%string then Some (chk_https_cert checkers config)
  else if (type =? "keyword")%string then Some (chk_keyword checkers config)
  else if (type =? "port")%string
  then Some (chk_port checkers (mkPortConfig (cfg_hostname config) (cfg_port config) None None))
  else if (type =? "mysql")%string || (type =? "redis")%string
  then Some (chk_database checkers type
               (mkDbConfig (cfg_hostname config) (cfg_port config) (cfg_username config)
                  (cfg_password config) (cfg_database config) (cfg_query config) None None))
  else if (type =? "push")%string
  then Some (chk_push checkers (cfg_token config)
               (match cfg_pushInterval config with
                | Some 0 | None => m_interval monitor
                | Some p => p
                end))
  else if (type =? "icmp")%string
  then Some (chk_icmp checkers
               (mkIcmpConfig (cfg_hostname config) (cfg_packetCount config)
                  (cfg_maxPacketLoss config) (cfg_maxResponseTime config) None None))
  else None.

Definition parseConfig (monitor : Monitor) : Exc MonitorConfig :=
  match m_config monitor with
  | ConfigString json => JSON_parse h json
  | ConfigObject c => Ok c
  end.

(** The result built by the [catch] of [executeMonitorCheck]. *)
Definition executionError (msg : string) : CheckResult :=
  mkResult 0 ("检查执行出错: " ++ msg) None.

(** The body of [executeMonitorCheck], with the recursive call as
    [self]. *)
Definition executeMonitorCheck_body (self : Monitor -> World -> CheckResult * World)
    (monitor : Monitor) (w : World) : CheckResult * World :=
  match parseConfig monitor with
  | Throw msg => (executionError msg, w)
  | Ok config =>
      match selectChecker monitor config with
      | None => (mkResult 0 ("不支持的监控类型: " ++ m_type monitor) None, w)
      | Some run =>
          match run w with
          | (Throw msg, w1) => (executionError msg, w1)
          | (Ok result, w1) =>
              if (status result =? 0) && (m_retries monitor >? 0)
              then retryLoop (self (withRetries0 monitor))
                     (m_retryInterval monitor) (m_retries monitor) result
                     (Z.to_nat (m_retries monitor)) 0 w1
              else (result, w1)
          end
      end
  end.

(** The recursion of [executeMonitorCheck] unrolled [depth] times. The
    recursive call passes [retries: 0], so it never recurses again: two
    levels are the whole function ([executeMonitorCheck_unfold] below). *)
Fixpoint executeMonitorCheck_depth (depth : nat) (monitor : Monitor) (w : World)
    : CheckResult * World :=
  match depth with
  | O => (executionError "Maximum call stack size exceeded", w)
  | S d => executeMonitorCheck_body (executeMonitorCheck_depth d) monitor w
  end.

Definition executeMonitorCheck : Monitor -> World -> CheckResult * World :=
  executeMonitorCheck_depth 2.

(** One run of the selected checker with the [catch] around it: what an
    invocation does when it does not retry. *)
Definition runOnce (run : World -> Exc CheckResult * World) (w : World)
    : CheckResult * World :=
  match run w with
  | (Throw msg, w1) => (executionError msg, w1)
  | (Ok result, w1) => (result, w1)
  end.

End ExecuteMonitorCheck.

(** The world after the first [k] retries of a loop whose retries all
    failed, and the outcome of retry number [k + 1] (counted from 0). *)
Fixpoint afterRetries (attempt : World -> CheckResult * World) (retryInterval : Z)
    (k : nat) (w : World) : World :=
  match k with
  | O => w
  | S k' => snd (attempt (sleep (retryInterval * 1000)
                            (afterRetries attempt retryInterval k' w)))
  end.

Definition nthRetry (attempt : World -> CheckResult * World) (retryInterval : Z)
    (k : nat) (w : World) : CheckResult * World :=
  attempt (sleep (retryInterval * 1000) (afterRetries attempt retryInterval k w)).

(** Checkers whose source is elsewhere (http, https-cert, keyword, push):
    the network decides their result. *)
Definition externalCheck (net : Net) (name : string) (w : World) : Exc CheckResult * World :=
  (net_check net (w_ios w), tick (emit (EvExternalCheck name) w)).

Definition resolved {A : Type} (f : A -> World -> CheckResult * World)
    (a : A) (w : World) : Exc CheckResult * World :=
  let '(r, w') := f a w in (Ok r, w').

Definition checkers (h : Host) (net : Net) : Checkers :=
  {| chk_http := fun _ => externalCheck net "http";
     chk_https_cert := fun _ => externalCheck net "https-cert";
     chk_keyword := fun _ => externalCheck net "keyword";
     chk_port := resolved (checkPort h net);
     chk_database := fun type => resolved (checkDatabase h net type);
     chk_push := fun _ _ => externalCheck net "push";
     chk_icmp := resolved (checkIcmp h net) |}.

Fixpoint parseDigits10 (s : string) (acc : Z) : Z :=
  match s with
  | EmptyString => acc
  | String c rest =>
      let n := Z.of_nat (nat_of_ascii c) in
      if (48 <=? n) && (n <=? 57) then parseDigits10 rest (acc * 10 + (n - 48)) else acc
  end.

(** A decimal [parseInt] for the sample host: the leading digits of the
    string, NaN when there are none. *)
Definition parseInt10 (s : string) : option Z :=
  match s with
  | EmptyString => None
  | String c _ =>
      let n := Z.of_nat (nat_of_ascii c) in
      if (48 <=? n) && (n <=? 57) then Some (parseDigits10 s 0) else None
  end.

(** ** The repository *)

Record MonitorStatus : Type := mkRow {
  row_id : string;
  row_monitorId : string;
  row_status : Z;
  row_message : option string;
  row_ping : option Q;
  row_details : option string;
  row_timestamp : Z
}.

Record NotificationChannel : Type := mkChannel {
  ch_name : string;
  ch_type : string;
  ch_enabled : bool;
  ch_config : list (string * string)
}.

Record NotificationBinding : Type := mkBinding {
  bind_enabled : bool;
  bind_channel : NotificationChannel
}.

Record MonitorRow : Type := mkMonitorRow {
  mon_name : string;
  mon_type : string;
  mon_config : option MonitorConfig;
  mon_resendInterval : Z;
  mon_lastCheckAt : option Z;
  mon_lastStatus : option Z;
  mon_lastMessage : option string;
  mon_lastPing : option Q;
  mon_bindings : list NotificationBinding
}.

(** The two tables the core reads and writes. History rows are kept in
    insertion order. *)
Record Database : Type := mkDatabase {
  db_monitors : gmap string MonitorRow;
  db_history : list MonitorStatus
}.

(** [orderBy: { timestamp: ... }]: insertion sort; [before r x] tells
    whether [r] goes in front of [x]. The database leaves the order of rows
    with equal timestamps open; here the row inserted last comes first. *)
Fixpoint insertBy (before : MonitorStatus -> MonitorStatus -> bool)
    (r : MonitorStatus) (l : list MonitorStatus) : list MonitorStatus :=
  match l with
  | [] => [r]
  | x :: l' => if before r x then r :: l else x :: insertBy before r l'
  end.

Definition orderBy (before : MonitorStatus -> MonitorStatus -> bool)
    (rows : list MonitorStatus) : list MonitorStatus :=
  fold_right (insertBy before) [] rows.

Definition desc (r x : MonitorStatus) : bool := row_timestamp x <? row_timestamp r.
Definition asc (r x : MonitorStatus) : bool := row_timestamp r <? row_timestamp x.

(** [prisma.monitorStatus.findFirst({ where, orderBy })] and
    [prisma.monitorStatus.count({ where })]. *)
Definition findFirst (where_ : MonitorStatus -> bool)
    (before : MonitorStatus -> MonitorStatus -> bool) (db : Database) : option MonitorStatus :=
  head (orderBy before (filter where_ (db_history db))).

Definition count (where_ : MonitorStatus -> bool) (db : Database) : Z :=
  Z.of_nat (length (filter where_ (db_history db))).

Definition ofMonitor (monitorId : string) (r : MonitorStatus) : bool :=
  (row_monitorId r =? monitorId)%string.

(** [where: { monitorId, status, timestamp: { gt: since } }]. *)
Definition statusSince (monitorId : string) (status since : Z) (r : MonitorStatus) : bool :=
  ofMonitor monitorId r && (row_status r =? status) && (since <? row_timestamp r).

Definition withStatus (monitorId : string) (status : Z) (r : MonitorStatus) : bool :=
  ofMonitor monitorId r && (row_status r =? status).

(** ** lib/utils/compact-message.ts *)

Definition generateCompactMessage (status : Z) (originalMessage : string) (ping : option Q)
    : option string :=
  if status =? UP then None
  else if status =? DOWN then Some originalMessage
  else if status =? PENDING then Some "等待中"
  else Some originalMessage.

(** ** The status recorder *)

Record RecordStatusParams : Type := mkParams {
  p_monitorId : string;
  p_status : Z;
  p_message : string;
  p_ping : option Q;
  p_details : option string;      (* [JSON.stringify(details)] when given *)
  p_monitorType : option string
}.

(** What the database answers to the two writes of the recorder: [None]
    when the write goes through, the error otherwise. *)
Record WriteFaults : Type := mkFaults {
  create_fault : option string;
  update_fault : option string
}.

Definition noFaults : WriteFaults := mkFaults None None.

(** [recordMonitorStatus]. [newId] is what [generateUltraCompactId()]
    returns or throws. The row is created without a timestamp and gets
    the instant [timestamp] of its insertion from the column default;
    [now] is the instant [new Date()] reads afterwards for [lastCheckAt].
    The two writes are two separate statements; an exception is logged and
    rethrown. The log is the list of [console.error] lines. An omitted
    [ping] ([None], the [undefined] of the parameter type) makes a row
    without ping and leaves [lastPing] as it is: the update skips a field
    whose value is undefined. *)
Definition recordMonitorStatus (faults : WriteFaults) (newId : Exc string) (timestamp now : Z)
    (params : RecordStatusParams) (db : Database)
    : Exc MonitorStatus * Database * list string :=
  let failed (msg : string) (db' : Database) : Exc MonitorStatus * Database * list string :=
    (Throw msg, db', ["记录监控状态失败: " ++ msg]) in
  match newId with
  | Throw msg => failed msg db
  | Ok ultraCompactId =>
      let compactMessage :=
        generateCompactMessage (p_status params) (p_message params) (p_ping params) in
      match create_fault faults with
      | Some msg => failed msg db
      | None =>
          let record :=
            mkRow ultraCompactId (p_monitorId params) (p_status params) compactMessage
              (p_ping params) (p_details params) timestamp in
          let db1 := mkDatabase (db_monitors db) (db_history db ++ [record])%list in
          match update_fault faults, db_monitors db1 !! p_monitorId params with
          | Some msg, _ => failed msg db1
          | None, None => failed "Record to update not found." db1
          | None, Some m =>
              let m' :=
                mkMonitorRow (mon_name m) (mon_type m) (mon_config m) (mon_resendInterval m)
                  (Some now) (Some (p_status params)) (Some (p_message params))
                  (if p_ping params is Some ping then Some ping else mon_lastPing m)
                  (mon_bindings m) in
              (Ok record,
               mkDatabase (<[p_monitorId params := m']> (db_monitors db1)) (db_history db1),
               [])
          end
      end
  end.

(** The most recent history row of a monitor. *)
Definition mostRecentRow (monitorId : string) (db : Database) : option MonitorStatus :=
  findFirst (ofMonitor monitorId) desc db.

Definition lastStatusOf (monitorId : string) (db : Database) : option Z :=
  match db_monitors db !! monitorId with
  | Some m => mon_lastStatus m
  | None => None
  end.

(** [s.trimEnd()]. *)
Fixpoint trimEnd (s : string) : string :=
  match s with
  | EmptyString => EmptyString
  | String c rest =>
      match trimEnd rest with
      | EmptyString => if isSpace c then EmptyString else String c EmptyString
      | rest' => String c rest'
      end
  end.

(** The stored message as the specification words it: null exactly for UP
    on a type other than push, "等待中" for PENDING, otherwise the message
    without trailing white space. *)
Definition compactMessageBySpec (status : Z) (originalMessage : string)
    (monitorType : option string) : option string :=
  if (status =? UP) && negb (if monitorType is Some "push" then true else false) then None
  else if status =? PENDING then Some "等待中"
  else Some (trimEnd originalMessage).

(** ** lib/monitors/notification-service.ts *)

Definition nl : string := String "010"%char EmptyString.

(** [STATUS_TEXT_CN[status] || '未知']. *)
Definition statusText (status : Z) : string :=
  if status =? 0 then "异常"
  else if status =? 1 then "正常"
  else if status =? 2 then "等待"
  else "未知".

Record NotificationData : Type := mkData {
  nd_monitorName : string;
  nd_monitorType : string;
  nd_status : string;
  nd_statusText : string;
  nd_statusCode : Z;
  nd_time : string;
  nd_message : string;
  nd_failureCount : option Z;
  nd_firstFailureTime : option string;
  nd_lastFailureTime : option string;
  nd_failureDuration : option Z
}.

(** [{ ...data, message }]. *)
Definition withDataMessage (d : NotificationData) (m : string) : NotificationData :=
  mkData (nd_monitorName d) (nd_monitorType d) (nd_status d) (nd_statusText d)
    (nd_statusCode d) (nd_time d) m (nd_failureCount d) (nd_firstFailureTime d)
    (nd_lastFailureTime d) (nd_failureDuration d).

(** One call of [sendNotification] and the error it threw, if any. *)
Record Dispatch : Type := mkDispatch {
  d_channel : NotificationChannel;
  d_data : NotificationData;
  d_error : option string
}.

(** The state of the engine: [notificationCache] (monitor id to time and
    status of the last notification), and what it has done so far: the
    notifications it decided to send (one payload per decision, handed to
    the loop over the bindings), the calls of [sendNotification], and the
    [console.error] lines. *)
Record EngineState : Type := mkEngine {
  notificationCache : gmap string (Z * Z);
  st_notified : list NotificationData;
  st_sent : list Dispatch;
  st_log : list string
}.

Inductive Query : Type :=
| QFindMonitor
| QCountSinceNotified
| QLastSuccess
| QTotalFailures
| QFirstFailure.

(** The surroundings of one call: the clock, the repository queries that
    fail, and the channels whose dispatch fails. *)
Record EngineEnv : Type := mkEnv {
  env_now : Z;
  query_fault : Query -> option string;
  send_fault : NotificationChannel -> option string
}.

(** Computations of the engine: state passing with exceptions. *)
Definition Eng (A : Type) : Type := EngineState -> Exc A * EngineState.

Definition ret {A : Type} (a : A) : Eng A := fun st => (Ok a, st).

Definition bind {A B : Type} (m : Eng A) (k : A -> Eng B) : Eng B :=
  fun st =>
    match m st with
    | (Ok a, st') => k a st'
    | (Throw msg, st') => (Throw msg, st')
    end.

Notation "x <- m ;; k" := (bind m (fun x => k))
  (at level 100, m at next level, right associativity).
Notation "m ;;; k" := (bind m (fun _ => k))
  (at level 100, right associativity).

(** [try { m } catch (error) { handler(error) }]. *)
Definition tryCatch {A : Type} (m : Eng A) (handler : string -> Eng A) : Eng A :=
  fun st =>
    match m st with
    | (Ok a, st') => (Ok a, st')
    | (Throw msg, st') => handler msg st'
    end.

Definition consoleError (line : string) : Eng unit :=
  fun st => (Ok tt, mkEngine (notificationCache st) (st_notified st) (st_sent st)
                      (st_log st ++ [line])%list).

Definition cacheSet (monitorId : string) (time status : Z) : Eng unit :=
  fun st => (Ok tt, mkEngine (<[monitorId := (time, status)]> (notificationCache st))
                      (st_notified st) (st_sent st) (st_log st)).

Definition cacheGet (monitorId : string) : Eng (option (Z * Z)) :=
  fun st => (Ok (notificationCache st !! monitorId), st).

Definition notify (data : NotificationData) : Eng unit :=
  fun st => (Ok tt, mkEngine (notificationCache st) (st_notified st ++ [data])%list
                      (st_sent st) (st_log st)).

Section NotificationService.

Variable h : Host.
Variable env : EngineEnv.
Variable db : Database.

(** A repository query: its answer, or the exception of a failing one. *)
Definition query {A : Type} (q : Query) (answer : A) : Eng A :=
  fun st =>
    match query_fault env q with
    | Some msg => (Throw msg, st)
    | None => (Ok answer, st)
    end.

(** [await sendNotification(channel.type, config, data)]. *)
Definition sendNotification (channel : NotificationChannel) (data : NotificationData)
    : Eng unit :=
  fun st =>
    let st' := mkEngine (notificationCache st) (st_notified st)
                 (st_sent st ++ [mkDispatch channel data (send_fault env channel)])%list
                 (st_log st) in
    match send_fault env channel with
    | Some msg => (Throw msg, st')
    | None => (Ok tt, st')
    end.

(** The loop over [monitor.notificationBindings], the same in the three
    branches up to the word in the log line. *)
Fixpoint dispatchLoop (what : string) (bindings : list NotificationBinding)
    (data : NotificationData) : Eng unit :=
  match bindings with
  | [] => ret tt
  | binding :: rest =>
      let channel := bind_channel binding in
      (if negb (ch_enabled channel) then ret tt
       else tryCatch (sendNotification channel data)
              (fun msg => consoleError ("向 " ++ ch_name channel ++ "(" ++ ch_type channel
                                        ++ ") 发送" ++ what ++ "失败: " ++ msg))) ;;;
      dispatchLoop what rest data
  end.

(** The [监控地址] line put in front of the message. *)
Definition withAddress (config : option MonitorConfig) (message : string) : string :=
  match config with
  | None => message
  | Some c =>
      if truthyStr (cfg_url c) then "监控地址: " ++ orEmpty (cfg_url c) ++ nl ++ message
      else if truthyStr (cfg_hostname c)
      then
        let address :=
          if truthyPort (cfg_port c)
          then orEmpty (cfg_hostname c) ++ ":" ++ renderPortOpt h (cfg_port c)
          else orEmpty (cfg_hostname c) in
        "监控地址: " ++ address ++ nl ++ message
      else message
  end.

(** [include: { notificationBindings: { where: { enabled: true } } }] and
    [statusHistory: { orderBy: { timestamp: 'desc' }, take: 2 }]. *)
Definition enabledBindings (monitor : MonitorRow) : list NotificationBinding :=
  filter (fun b => bind_enabled b) (mon_bindings monitor).

Definition statusHistory (monitorId : string) : list MonitorStatus :=
  firstn 2 (orderBy desc (filter (ofMonitor monitorId) (db_history db))).

Definition isNewMonitor (monitorId : string) : bool :=
  (length (statusHistory monitorId) <=? 1)%nat.

Definition realPrevStatus (monitorId : string) (prevStatus : option Z) : option Z :=
  match prevStatus with
  | Some p => Some p
  | None =>
      if negb (isNewMonitor monitorId)
      then match statusHistory monitorId with
           | _ :: second :: _ => Some (row_status second)
           | _ => None
           end
      else None
  end.

Definition baseData (monitor : MonitorRow) (status : Z) (message : string)
    : NotificationData :=
  mkData (mon_name monitor) (mon_type monitor) (statusText status) (statusText status)
    status (formatDateTime h (env_now env))
    (withAddress (mon_config monitor)
       (match message with EmptyString => "无详细信息" | _ => message end))
    None None None None.

(** The payload of a DOWN notification. *)
Definition aggregatedData (notificationData : NotificationData) (totalFailures : Z)
    (firstContinuousFailure : option MonitorStatus) : NotificationData :=
  let now := env_now env in
  let duration :=
    match firstContinuousFailure with
    | Some first => (now - row_timestamp first) / 1000 / 60
    | None => 0
    end in
  let firstTime :=
    match firstContinuousFailure with
    | Some first => formatDateTime h (row_timestamp first)
    | None => "未知"
    end in
  mkData (nd_monitorName notificationData) (nd_monitorType notificationData)
    (nd_status notificationData) (nd_statusText notificationData)
    (nd_statusCode notificationData) (nd_time notificationData)
    ("连续失败 " ++ numToString totalFailures ++ " 次，首次失败于 " ++ firstTime
     ++ "，持续 " ++ numToString duration ++ " 分钟" ++ nl ++ nd_message notificationData)
    (Some totalFailures) (Some firstTime) (Some (formatDateTime h now)) (Some duration).

(** The payload of a recovery notification. *)
Definition recoveryData (notificationData : NotificationData)
    (lastNotification : option (Z * Z)) : NotificationData :=
  let recoverDuration :=
    match lastNotification with
    | Some (time, 0) => (env_now env - time) / 1000 / 60
    | _ => 0
    end in
  withDataMessage notificationData
    ("监控已恢复正常。"
     ++ (if recoverDuration >? 0
         then "故障持续了约 " ++ numToString recoverDuration ++ " 分钟。" else "")
     ++ nl ++ nd_message notificationData).

(** The tail shared by the three branches: the loop over the bindings
    with the payload [data], then [notificationCache.set]. *)
Definition announce (what : string) (bindings : list NotificationBinding)
    (data : NotificationData) (monitorId : string) (status : Z) : Eng unit :=
  notify data ;;;
  dispatchLoop what bindings data ;;;
  cacheSet monitorId (env_now env) status.

(** The throttle at the head of the DOWN branch: [false] stands for its
    [return] statements. *)
Definition repeatDue (monitorId : string) (monitor : MonitorRow)
    (lastNotification : option (Z * Z)) : Eng bool :=
  if mon_resendInterval monitor >? 0 then
    match lastNotification with
    | Some (time, 0) =>
        failuresSinceLastNotification <-
          query QCountSinceNotified (count (statusSince monitorId 0 time) db) ;;
        ret (negb (failuresSinceLastNotification <? mon_resendInterval monitor))
    | _ => ret true
    end
  else
    match lastNotification with
    | Some (_, 0) => ret false
    | _ => ret true
    end.

(** The rest of the DOWN branch: the three queries of the aggregation and
    the notification. *)
Definition aggregateAndAnnounce (monitorId : string)
    (bindings : list NotificationBinding) (notificationData : NotificationData) : Eng unit :=
  lastSuccess <- query QLastSuccess (findFirst (withStatus monitorId 1) desc db) ;;
  let continuousFailureStartTime :=
    match lastSuccess with
    | Some r => row_timestamp r
    | None => 0
    end in
  totalFailures <-
    query QTotalFailures (count (statusSince monitorId 0 continuousFailureStartTime) db) ;;
  firstContinuousFailure <-
    query QFirstFailure
      (findFirst (statusSince monitorId 0 continuousFailureStartTime) asc db) ;;
  announce "失败通知" bindings
    (aggregatedData notificationData totalFailures firstContinuousFailure) monitorId 0.

(** The [try] block of [sendStatusChangeNotifications]. *)
Definition sendStatusChangeNotifications_try (monitorId : string) (status : Z)
    (message : string) (prevStatus : option Z) : Eng unit :=
  found <- query QFindMonitor (db_monitors db !! monitorId) ;;
  match found with
  | None => consoleError ("找不到监控项: " ++ monitorId)
  | Some monitor =>
      let bindings := enabledBindings monitor in
      if (length bindings =? 0)%nat then ret tt
      else
        let isNew := isNewMonitor monitorId in
        let realPrev := realPrevStatus monitorId prevStatus in
        if (if prevStatus is Some _ then true else false)
           && (if realPrev is Some p then p =? status else false)
        then ret tt
        else if isNew && (status =? 1) then ret tt
        else
          let notificationData := baseData monitor status message in
          lastNotification <- cacheGet monitorId ;;
          if status =? 0 then
            proceed <- repeatDue monitorId monitor lastNotification ;;
            if negb proceed then ret tt
            else aggregateAndAnnounce monitorId bindings notificationData
          else if (status =? 1) && (if realPrev is Some 0 then true else false) && negb isNew
          then announce "恢复通知" bindings (recoveryData notificationData lastNotification)
                 monitorId 1
          else announce "通知" bindings notificationData monitorId status
  end.

Definition sendStatusChangeNotifications (monitorId : string) (status : Z)
    (message : string) (prevStatus : option Z) : Eng unit :=
  tryCatch (sendStatusChangeNotifications_try monitorId status message prevStatus)
    (fun msg => consoleError ("处理监控 " ++ monitorId ++ " 状态变更通知时出错: " ++ msg)).

End NotificationService.

(** What a call added to the list of decided notifications. *)
Definition emitted (before after : EngineState) : list NotificationData :=
  skipn (length (st_notified before)) (st_notified after).

(** The channels a notification is dispatched to: those of the given
    bindings that are themselves enabled. *)
Definition enabledChannels (bindings : list NotificationBinding) : list NotificationChannel :=
  filter (fun c => ch_enabled c) (map bind_channel bindings).

(** A call that changes nothing but, possibly, the log. *)
Definition quiet (st st' : EngineState) : Prop :=
  notificationCache st' = notificationCache st
  /\ st_notified st' = st_notified st
  /\ st_sent st' = st_sent st.

(** A call that decided to notify with [data]: the payload is recorded,
    every enabled channel of the bindings got one dispatch, and the cache
    holds the time and status of this notification. *)
Definition announced (env : EngineEnv) (st st' : EngineState) (data : NotificationData)
    (bindings : list NotificationBinding) (monitorId : string) (status : Z) : Prop :=
  notificationCache st' = <[monitorId := (env_now env, status)]> (notificationCache st)
  /\ st_notified st' = (st_notified st ++ [data])%list
  /\ st_sent st'
     = (st_sent st
        ++ map (fun c => mkDispatch c data (send_fault env c)) (enabledChannels bindings))%list.



(** An exception of the [try] block: always the failure of a query. *)
Definition queryFailure (env : EngineEnv) (r : Exc unit) : Prop :=
  match r with
  | Throw msg => exists q, query_fault env q = Some msg
  | Ok _ => True
  end.

(** A run of DOWN evaluations of one monitor, each with its own clock,
    repository contents, message and previous status. *)
Definition evaluateDown (h : Host) (monitorId : string)
    (calls : list (EngineEnv * Database * string * option Z)) (st : EngineState)
    : EngineState :=
  fold_left
    (fun st call =>
       let '(env, db, message, prevStatus) := call in
       snd (sendStatusChangeNotifications h env db monitorId 0 message prevStatus st))
    calls st.

(** ** A host and networks for the examples

    Every theorem below is stated for an arbitrary [Host] and [Net]; these
    instances only serve to run the functions on concrete inputs. *)

Definition sampleMessages : ErrorMessages :=
  {| TIMEOUT := "TIMEOUT"; UNKNOWN_ERROR := "UNKNOWN_ERROR";
     CONNECTION_REFUSED := "CONNECTION_REFUSED"; HOST_NOT_FOUND := "HOST_NOT_FOUND";
     NETWORK_ERROR := "NETWORK_ERROR"; DATABASE_ERROR := "DATABASE_ERROR" |}.

(** The sample host prints the whole numbers of the samples in decimal
    digits, and accepts every redis URL. *)
Definition sampleHost : Host :=
  {| ERROR_MESSAGES := sampleMessages;
     parseInt := parseInt10;
     showNumber := fun q => numToString (Qfloor q);
     formatDateTime := fun ms => "T+" ++ numToString ms;
     JSON_parse := fun _ => Throw "Unexpected token";
     createClient_throws := fun _ => None |}.

(** A network on which external checks fail [failures] times and then
    succeed, every connection is refused and every host answers pings. *)
Definition flakyNet (failures : nat) : Net :=
  {| net_socket := fun _ => SockError "ECONNREFUSED" "connect ECONNREFUSED";
     net_db := fun _ => DbConnectFail "connect ECONNREFUSED";
     net_ping := fun _ => Ok (mkPing true (Some 12%Q) (Some 12%Q) 0%Q);
     net_check := fun n => if (n <? failures)%nat
                           then Ok (mkResult DOWN "HTTP 500" None)
                           else Ok (mkResult UP "HTTP 200" (Some 35%Q));
     net_elapsed := fun _ => 7 |}.

Definition emptyConfig : MonitorConfig :=
  mkConfig None None None None None None None None None None None None None.

Definition httpMonitor (retries : Z) : Monitor :=
  mkMonitor "http"
    (ConfigObject (mkConfig (Some "http://ok") None None None None None None None None None
                     None None None))
    60 retries 1.

Definition world0 : World := mkWorld 0 [].

Definition databaseMonitor (type : string) (port : Q) (retries : Z) : Monitor :=
  mkMonitor type
    (ConfigObject (mkConfig None None (Some "db.internal") (Some (PortNum port)) None None
                     None None None None None None None))
    60 retries 1.




(** A monitor with one enabled e-mail channel and one disabled webhook,
    and a history of one UP row followed by DOWN rows one minute apart. *)
Definition mailChannel : NotificationChannel := mkChannel "ops" "邮件" true [].
Definition hookChannel : NotificationChannel := mkChannel "hook" "Webhook" false [].

Definition sampleMonitor (resendInterval : Z) : MonitorRow :=
  mkMonitorRow "api" "http" (Some (mkConfig (Some "http://api") None None None None None None
                                     None None None None None None))
    resendInterval None None None None
    [mkBinding true mailChannel; mkBinding true hookChannel].

Definition downRow (n : Z) : MonitorStatus :=
  mkRow ("d" ++ numToString n) "m1" 0 (Some "HTTP 500") None None (n * 60000).

Definition sampleDb (resendInterval : Z) (downs : list Z) : Database :=
  mkDatabase {[ "m1" := sampleMonitor resendInterval ]}
    (mkRow "u0" "m1" 1 None None None 0 :: map downRow downs).

(** The rows the specification counts, in its own words: the UP rows of a
    monitor, and its DOWN rows with a timestamp strictly after [start]. *)
Definition upRowsBySpec (monitorId : string) (db : Database) : list MonitorStatus :=
  filter (fun r => bool_decide (row_monitorId r = monitorId /\ row_status r = UP))
    (db_history db).

Definition downRowsAfterBySpec (monitorId : string) (start : Z) (db : Database)
    : list MonitorStatus :=
  filter (fun r => bool_decide (row_monitorId r = monitorId /\ row_status r = DOWN
                                /\ start < row_timestamp r))
    (db_history db).

(** A monitor that failed at minute 1, recovered at minute 2 and has
    failed since: a DOWN row stamped with the very instant of the UP row,
    then DOWN rows at minutes 3 and 4; the last row belongs to another
    monitor. *)
Definition relapsedDb (resendInterval : Z) : Database :=
  mkDatabase {[ "m1" := sampleMonitor resendInterval ]}
    [downRow 1; mkRow "u2" "m1" 1 None None None 120000; downRow 2; downRow 3; downRow 4;
     mkRow "x5" "m2" 0 (Some "HTTP 500") None None 300000].

Definition calmEnv (now : Z) : EngineEnv := mkEnv now (fun _ => None) (fun _ => None).

Definition freshEngine : EngineState := mkEngine ∅ [] [] [].

(** The engine after a DOWN notification sent at [time]. *)
Definition notifiedDownAt (time : Z) : EngineState :=
  mkEngine {[ "m1" := (time, 0) ]} [] [] [].

(** The round trip stated by the specification, for a generator [gen]
    whose identifiers have [len] characters, [prefixLen] of them the time
    code: the identifier produced at [now] is read back as a date [t'] with
    [t' <= now < t' + bucketDuration prefixLen + slack]. *)
Definition reads_back_within (gen : Z -> Q -> Exc string) (len : nat) (prefixLen : Z)
    (slack : Q) (now : Z) (random : Q) : Prop :=
  exists id t',
    gen now random = Ok id
    /\ String.length id = len
    /\ extractTimeFromUltraCompactId id = Some (ValidDate t')
    /\ t' <= now
    /\ (inject_Z now < inject_Z t' + bucketDuration prefixLen + slack)%Q.

(** ** lib/utils/ultra-compact-id.ts: the collision cache and the
       retrying generator *)

Definition MAX_CACHE_SIZE : nat := Z.to_nat 10000.

(** [recentIds] is a [Set<string>]: its elements in insertion order.
    [Set.prototype.add] appends an element that is not there yet. *)
Definition setAdd (id : string) (ids : list string) : list string :=
  if existsb (String.eqb id) ids then ids else (ids ++ [id])%list.

(** [cleanupCache]: above the limit, only [idsArray.slice(-1000)] is kept. *)
Definition cleanupCache (recentIds : list string) : list string :=
  if (MAX_CACHE_SIZE <? length recentIds)%nat
  then skipn (length recentIds - 1000) recentIds
  else recentIds.

Definition isIdExists (id : string) (recentIds : list string) : bool :=
  existsb (String.eqb id) recentIds.

Definition addIdToCache (id : string) (recentIds : list string) : list string :=
  cleanupCache (setAdd id recentIds).

(** Digits of [n] in radix 16, as [toString36_digits] does in radix 36. *)
Fixpoint toString16_digits (fuel : nat) (n : Z) (acc : string) : string :=
  match fuel with
  | O => acc
  | S fuel' =>
      let acc' := String (digitChar (n mod 16)) acc in
      if n <? 16 then acc' else toString16_digits fuel' (n / 16) acc'
  end.

(** [n.toString(16)] for a non-negative integer [n]. *)
Definition toString16 (n : Z) : string :=
  toString16_digits (S (Z.to_nat (Z.log2 n))) n EmptyString.

(** The clock and the random source of the generator: [src_now k] is what
    [Date.now()] returns in the [k]-th call of a generator, [src_random k]
    what the [k]-th call of [Math.random()] returns. *)
Record IdSource : Type := mkIdSource {
  src_now : nat -> Z;
  src_random : nat -> Q
}.

Record IdState : Type := mkIdState {
  id_clock : nat;                 (* generator calls so far *)
  id_draws : nat;                 (* [Math.random()] calls so far *)
  recentIds : list string;
  id_warnings : list string       (* [console.warn] lines *)
}.

(** ['xxxx...'.replace(/[xy]/g, c => ...)] of [generateUUID], on the rest
    [template] of the pattern: every [x] and [y] takes one random draw. *)
Fixpoint uuidFill (random : nat -> Q) (template : string) (k : nat) : string * nat :=
  match template with
  | EmptyString => (EmptyString, k)
  | String c rest =>
      if Ascii.eqb c "x" || Ascii.eqb c "y"
      then
        let r := Qfloor (random k * 16) in
        let v := if Ascii.eqb c "x" then r else Z.lor (Z.land r 3) 8 in
        let '(s, k') := uuidFill random rest (S k) in
        (toString16 v ++ s, k')
      else
        let '(s, k') := uuidFill random rest k in
        (String c s, k')
  end.

Definition uuidTemplate : string := "xxxxxxxx-xxxx-4xxx-yxxx-xxxxxxxxxxxx".

Definition generateUUID (src : IdSource) (st : IdState) : string * IdState :=
  let '(s, k) := uuidFill (src_random src) uuidTemplate (id_draws st) in
  (s, mkIdState (id_clock st) k (recentIds st) (id_warnings st)).

(** The line of the [console.warn] before the fallback. *)
Definition uuidWarning : string := "超紧凑ID生成重试失败，使用UUID后备方案".

(** The loop of [generateUltraCompactIdWithRetry]: [n] iterations remain
    and [attempt] is the loop variable. The busy wait between two attempts
    only lets the clock advance; its own reads of the clock are not
    counted. *)
Fixpoint retryGenerate (src : IdSource) (maxRetries : nat) (n attempt : nat)
    (st : IdState) : Exc string * IdState :=
  match n with
  | O =>
      let st' := mkIdState (id_clock st) (id_draws st) (recentIds st)
                   (id_warnings st ++ [uuidWarning])%list in
      let '(uuid, st'') := generateUUID src st' in
      (Ok uuid, st'')
  | S n' =>
      let now := src_now src (id_clock st) in
      let random := src_random src (id_draws st) in
      let st1 := mkIdState (S (id_clock st)) (S (id_draws st)) (recentIds st)
                   (id_warnings st) in
      match (if (attempt <? 5)%nat then generateUltraCompactId9 now random
             else generateUltraCompactId8 now random) with
      | Throw msg =>
          (* the range check throws before the random draw *)
          (Throw msg, mkIdState (S (id_clock st)) (id_draws st) (recentIds st)
                        (id_warnings st))
      | Ok id =>
          if negb (isIdExists id (recentIds st1))
          then (Ok id, mkIdState (id_clock st1) (id_draws st1)
                         (addIdToCache id (recentIds st1)) (id_warnings st1))
          else
            let st2 :=
              if (attempt <? maxRetries - 1)%nat
              then mkIdState (id_clock st1) (S (id_draws st1)) (recentIds st1)
                     (id_warnings st1)
              else st1 in
            retryGenerate src maxRetries n' (S attempt) st2
      end
  end.

Definition generateUltraCompactIdWithRetry (src : IdSource) (maxRetries : nat)
    (st : IdState) : Exc string * IdState :=
  retryGenerate src maxRetries maxRetries 0 st.

(** [generateUltraCompactId()]: the default of ten retries. *)
Definition generateUltraCompactId (src : IdSource) (st : IdState) : Exc string * IdState :=
  generateUltraCompactIdWithRetry src 10 st.

(** ** lib/utils/compact-id.ts: the kinds of identifiers *)

Definition isHexDigit (c : ascii) : bool :=
  let n := Z.of_nat (nat_of_ascii c) in
  ((48 <=? n) && (n <=? 57)) || ((97 <=? n) && (n <=? 102)) || ((65 <=? n) && (n <=? 70)).

(** A run of [n] characters of class [p] at the head of [s]: the rest of
    the string, or [None] when the run is not there. *)
Fixpoint takeClass (p : ascii -> bool) (n : nat) (s : string) : option string :=
  match n with
  | O => Some s
  | S n' =>
      match s with
      | String c rest => if p c then takeClass p n' rest else None
      | EmptyString => None
      end
  end.

Definition takeDash (s : string) : option string :=
  match s with
  | String "-" rest => Some rest
  | _ => None
  end.

(** [/^[0-9a-f]{8}-[0-9a-f]{4}-[0-9a-f]{4}-[0-9a-f]{4}-[0-9a-f]{12}$/i]. *)
Definition matchesUuid (id : string) : bool :=
  match takeClass isHexDigit 8 id with
  | Some s1 =>
    match takeDash s1 with
    | Some s2 =>
      match takeClass isHexDigit 4 s2 with
      | Some s3 =>
        match takeDash s3 with
        | Some s4 =>
          match takeClass isHexDigit 4 s4 with
          | Some s5 =>
            match takeDash s5 with
            | Some s6 =>
              match takeClass isHexDigit 4 s6 with
              | Some s7 =>
                match takeDash s7 with
                | Some s8 =>
                  match takeClass isHexDigit 12 s8 with
                  | Some EmptyString => true
                  | _ => false
                  end
                | None => false
                end
              | None => false
              end
            | None => false
            end
          | None => false
          end
        | None => false
        end
      | None => false
      end
    | None => false
    end
  | None => false
  end.

(** [/^c[0-9a-z]{24}$/]. *)
Definition matchesCuid (id : string) : bool :=
  match id with
  | String "c" rest => allChars isLowerAlnum rest && (String.length rest =? 24)%nat
  | _ => false
  end.

(** [/^[0-9a-z]{lo,hi}$/]. *)
Definition lowerAlnumOfLength (lo hi : nat) (id : string) : bool :=
  allChars isLowerAlnum id && (lo <=? String.length id)%nat && (String.length id <=? hi)%nat.

Inductive IdType : Type :=
| IdUuid
| IdCuid
| IdCompact
| IdUltraCompact
| IdUnknown.

Definition getIdType (id : string) : IdType :=
  if matchesUuid id then IdUuid
  else if matchesCuid id then IdCuid
  else if lowerAlnumOfLength 6 8 id then IdUltraCompact
  else if lowerAlnumOfLength 9 15 id then IdCompact
  else IdUnknown.

Definition isCompactId (id : string) : bool :=
  if getIdType id is IdCompact then true else false.

Definition isLegacyId (id : string) : bool :=
  match getIdType id with
  | IdUuid | IdCuid => true
  | _ => false
  end.

(** [generateCompactId]: the clock and the two random draws are
    arguments. *)
Definition generateCompactId (now : Z) (random1 random2 : Q) : string :=
  let timestamp := toString36 now in
  let random1 := toString36 (Qfloor (random1 * 1296)) in
  let random2 := toString36 (Qfloor (random2 * 1296)) in
  timestamp ++ random1 ++ random2.

(** [s.slice(0, -n)]. *)
Definition dropLast (n : nat) (s : string) : string :=
  substring 0 (String.length s - n) s.

(** [extractTimestampFromCompactId]: [None] is [null]; [Some v] is the
    number [parseInt] returned, [Some None] standing for NaN. *)
Definition extractTimestampFromCompactId (id : string) : option (option Z) :=
  if negb (isCompactId id) || (String.length id <? 8)%nat then None
  else Some (parseInt36 (dropLast 6 id)).

(** The number of characters of the two random parts of an identifier made
    by [generateCompactId]. *)
Definition randomWidth (random1 random2 : Q) : nat :=
  (String.length (toString36 (Qfloor (random1 * 1296)))
   + String.length (toString36 (Qfloor (random2 * 1296))))%nat.

(** ** lib/utils/compact-message.ts: the displayed message *)

Definition generateDisplayMessage (h : Host) (status : Z) (storedMessage : option string)
    (ping : option Q) (monitorType : option string) : string :=
  if truthyStr storedMessage then orEmpty storedMessage
  else if status =? UP then
    match monitorType with
    | Some "icmp" | Some "http" =>
        if truthyNum ping then "响应正常 " ++ showNumber h (default 0%Q ping) ++ "ms"
        else "响应正常"
    | Some "keyword" => "关键词检测通过"
    | Some "port" => "端口连接正常"
    | Some "mysql" | Some "redis" => "数据库连接正常"
    | Some "https-cert" => "证书有效"
    | Some "push" => "推送正常"
    | _ => "监控正常"
    end
  else if status =? DOWN then "监控异常"
  else if status =? PENDING then "等待中"
  else "状态未知".

(** A string follows the pattern of [generateUUID]: a lower-case
    hexadecimal digit for every [x], one of [8 9 a b] for [y], and the
    character of the pattern anywhere else. *)
Definition isLowerHex (c : ascii) : bool :=
  let n := Z.of_nat (nat_of_ascii c) in
  ((48 <=? n) && (n <=? 57)) || ((97 <=? n) && (n <=? 102)).

Definition isVariantDigit (c : ascii) : bool :=
  Ascii.eqb c "8" || Ascii.eqb c "9" || Ascii.eqb c "a" || Ascii.eqb c "b".

Fixpoint followsTemplate (template s : string) : bool :=
  match template, s with
  | EmptyString, EmptyString => true
  | String t template', String c s' =>
      (if Ascii.eqb t "x" then isLowerHex c
       else if Ascii.eqb t "y" then isVariantDigit c
       else Ascii.eqb c t)
      && followsTemplate template' s'
  | _, _ => false
  end.

(** The number of [x] and [y] in a pattern. *)
Fixpoint templateDraws (template : string) : nat :=
  match template with
  | EmptyString => O
  | String c rest =>
      if Ascii.eqb c "x" || Ascii.eqb c "y" then S (templateDraws rest)
      else templateDraws rest
  end.

(** [Math.random()] answers in [0, 1). *)
Definition randomInRange (src : IdSource) : Prop :=
  forall k, (0 <= src_random src k < 1)%Q.

(** A clock that stands at [now] and a random source that always draws
    [random]; the state of a process that has made no identifier yet. *)
Definition constantSource (now : Z) (random : Q) : IdSource :=
  mkIdSource (fun _ => now) (fun _ => random).

Definition idState0 : IdState := mkIdState 0 0 [] [].

(** What a call of the retrying generator that started in [st] and ended
    in [st'] with [result] has done: thrown the range error, returned an
    identifier that was not in the cache and is in it now, or returned a
    UUID after a warning. *)
Definition generatorOutcome (st : IdState) (result : Exc string) (st' : IdState) : Prop :=
  match result with
  | Throw msg =>
      msg = out_of_range_msg
      /\ recentIds st' = recentIds st
      /\ id_warnings st' = id_warnings st
  | Ok id =>
      (isIdExists id (recentIds st) = false
       /\ recentIds st' = addIdToCache id (recentIds st)
       /\ isIdExists id (recentIds st') = true
       /\ id_warnings st' = id_warnings st)
      \/ (getIdType id = IdUuid
          /\ recentIds st' = recentIds st
          /\ id_warnings st' = (id_warnings st ++ [uuidWarning])%list)
  end.


(** An identifier made by [gen] that [isUltraCompactId] of
    ultra-compact-id.ts accepts and [getIdType] of compact-id.ts classes as
    [kind]. *)
Definition makesKind (gen : Z -> Q -> Exc string) (now : Z) (random : Q) (kind : IdType)
    : Prop :=
  exists id,
    gen now random = Ok id
    /\ isUltraCompactId id = true
    /\ getIdType id = kind.

(** ** sendWebhookNotification: the address field *)

Definition addressLabel : string := "监控地址: ".

(** The rest of [s] after the prefix [p], when [p] is a prefix of [s]. *)
Fixpoint stripPrefix (p s : string) : option string :=
  match p with
  | EmptyString => Some s
  | String a p' =>
      match s with
      | String b s' => if Ascii.eqb a b then stripPrefix p' s' else None
      | EmptyString => None
      end
  end.

(** A line terminator at the head of [s], one of the characters [.] does
    not match: LF, CR, U+2028 or U+2029 (the bytes E2 80 A8 and E2 80 A9). *)
Definition startsWithLineTerminator (s : string) : bool :=
  match s with
  | String c rest =>
      Ascii.eqb c "010" || Ascii.eqb c "013"
      || (Ascii.eqb c "226"
          && match rest with
             | String c2 (String c3 _) =>
                 Ascii.eqb c2 "128" && (Ascii.eqb c3 "168" || Ascii.eqb c3 "169")
             | _ => false
             end)
  | EmptyString => false
  end.

(** [(.*?)(?:\n|$)] at the head of [s]: the characters up to the first
    line terminator, which has to be a LF or the end of [s]. *)
Fixpoint captureLine (s : string) : option string :=
  match s with
  | EmptyString => Some EmptyString
  | String c rest =>
      if Ascii.eqb c "010" then Some EmptyString
      else if startsWithLineTerminator s then None
      else option_map (String c) (captureLine rest)
  end.

(** [message.match(/监控地址: (.*?)(?:\n|$)/)]: group 1 of the leftmost
    match. *)
Fixpoint matchAddress (message : string) : option string :=
  let here :=
    match stripPrefix addressLabel message with
    | Some rest => captureLine rest
    | None => None
    end in
  match here with
  | Some captured => Some captured
  | None =>
      match message with
      | EmptyString => None
      | String _ rest => matchAddress rest
      end
  end.

(** [webhookData.monitor.address]: [null] unless the match has a group
    that is not empty. *)
Definition webhookAddress (data : NotificationData) : option string :=
  match matchAddress (nd_message data) with
  | Some EmptyString | None => None
  | Some address => Some address
  end.

(** The address [sendStatusChangeNotifications] puts after the label: the
    URL, or the host name with the port when there is one. *)
Definition addressOf (h : Host) (c : MonitorConfig) : option string :=
  if truthyStr (cfg_url c) then Some (orEmpty (cfg_url c))
  else if truthyStr (cfg_hostname c)
  then Some (if truthyPort (cfg_port c)
             then orEmpty (cfg_hostname c) ++ ":" ++ renderPortOpt h (cfg_port c)
             else orEmpty (cfg_hostname c))
  else None.

(** A string without line terminators. *)
Fixpoint singleLine (s : string) : bool :=
  match s with
  | EmptyString => true
  | String c rest => negb (startsWithLineTerminator s) && singleLine rest
  end.

(** A string without the byte E7, which starts the label. *)
Definition plainText (s : string) : bool :=
  allChars (fun c => negb (Ascii.eqb c "231")) s.

(** ** sendWebhookNotification: the values put into a body template *)

(** [s.replace(/c/g, by)] for a pattern of one character [c] and a
    replacement without [$]. *)
Fixpoint replaceChar (c : ascii) (replacement : string) (s : string) : string :=
  match s with
  | EmptyString => EmptyString
  | String x rest =>
      (if Ascii.eqb x c then replacement else String x EmptyString)
      ++ replaceChar c replacement rest
  end.

Definition BACKSLASH : ascii := "092".
Definition QUOTE : ascii := "034".
Definition LF : ascii := "010".
Definition CR : ascii := "013".
Definition TAB : ascii := "009".

(** The chain of five [replace] calls that makes [escapedValue]. *)
Definition escapeValue (value : string) : string :=
  replaceChar TAB (String BACKSLASH "t")
    (replaceChar CR (String BACKSLASH "r")
       (replaceChar LF (String BACKSLASH "n")
          (replaceChar QUOTE (String BACKSLASH (String QUOTE EmptyString))
             (replaceChar BACKSLASH (String BACKSLASH (String BACKSLASH EmptyString))
                value)))).

Definition isEscaped (c : ascii) : bool :=
  Ascii.eqb c BACKSLASH || Ascii.eqb c QUOTE || Ascii.eqb c LF || Ascii.eqb c CR
  || Ascii.eqb c TAB.

(** Reading the escapes back, as a reader of JSON strings does; it serves
    to show that no two values share an escaped form. *)
Fixpoint readEscapes (s : string) : string :=
  match s with
  | EmptyString => EmptyString
  | String c rest =>
      if Ascii.eqb c BACKSLASH
      then match rest with
           | String e rest' =>
               String (if Ascii.eqb e "n" then LF
                       else if Ascii.eqb e "r" then CR
                       else if Ascii.eqb e "t" then TAB
                       else e)
                 (readEscapes rest')
           | EmptyString => String c EmptyString
           end
      else String c (readEscapes rest)
  end.

(** The sleeps among the events of a trace, in order. *)
Definition sleepsOf (evs : list Event) : list Z :=
  flat_map (fun e => match e with EvSleep ms => [ms] | _ => [] end) evs.

(** A run that extends the trace without sleeping and performs at most one
    input/output operation. *)
Definition oneProbe {A : Type} (run : World -> A * World) : Prop :=
  forall w, exists evs,
    w_trace (snd (run w)) = (w_trace w ++ evs)%list
    /\ sleepsOf evs = []
    /\ (w_ios w <= w_ios (snd (run w)) <= S (w_ios w))%nat.

(** The index of the bucket of [now], in exact arithmetic: the time code
    the generators write at [now] (lemma [timeUnit_in_doubles]). *)
Definition timeUnitAt (prefixLen : Z) (now : Z) : Z :=
  Qfloor (inject_Z (now - BASE_TIME) / bucketDuration prefixLen).

(** The start of the bucket of [now], for identifiers with a
    [prefixLen]-character time code, in whole milliseconds and in exact
    arithmetic. *)
Definition bucketStart (prefixLen : Z) (now : Z) : Z :=
  Qfloor (inject_Z BASE_TIME
          + inject_Z (timeUnitAt prefixLen now) * bucketDuration prefixLen)%Q.

(** The identifier [gen] makes at [now] is read back as the date [t], the
    start of the bucket of [now] or the millisecond after it. *)
Definition reads_back_bucket_start (gen : Z -> Q -> Exc string) (prefixLen : Z)
    (now : Z) (random : Q) (t : Z) : Prop :=
  exists id,
    gen now random = Ok id
    /\ extractTimeFromUltraCompactId id = Some (ValidDate t)
    /\ bucketStart prefixLen now <= t <= bucketStart prefixLen now + 1.

(** Identifiers made by [gen] at [now1] and, not earlier, at [now2] are
    read back as dates in that order, and as one date when the instants
    are the same, whatever the random draws. *)
Definition read_back_in_order (gen : Z -> Q -> Exc string) (prefixLen : Z)
    (now1 now2 : Z) (random1 random2 : Q) : Prop :=
  exists t1 t2,
    reads_back_bucket_start gen prefixLen now1 random1 t1
    /\ reads_back_bucket_start gen prefixLen now2 random2 t2
    /\ t1 <= t2
    /\ (now1 = now2 -> t1 = t2).

(** * Properties *)

Example id7_sample :
  generateUltraCompactId7 (BASE_TIME + 394290) 0 = Ok "0006000"
  /\ extractTimeFromUltraCompactId "0006000" = Some (ValidDate (BASE_TIME + 337962)).
Proof. vm_compute. split; reflexivity. Qed.

(** The generator called [generateUltraCompactId6] makes five characters
    (three of time, two random), which [isUltraCompactId] does not accept:
    its identifiers cannot be read back. *)
Example id6_is_not_recognised :
  generateUltraCompactId6 (BASE_TIME + 394290) 0 = Ok "00000"
  /\ extractTimeFromUltraCompactId "00000" = None.
Proof. vm_compute. split; reflexivity. Qed.

(** At the last instant the generators accept, three years after the epoch
    to the millisecond, the time code needs one character more than its
    width, and the identifier is read back under the layout of the next
    length. *)
Example id7_at_the_horizon :
  generateUltraCompactId7 (BASE_TIME + THREE_YEARS_MS) 0 = Ok "10000000"
  /\ extractTimeFromUltraCompactId "10000000"
     = Some (ValidDate (BASE_TIME + THREE_YEARS_MS / 36)).
Proof. vm_compute. split; reflexivity. Qed.

(** ** Strings *)

Lemma length_app_string (s1 s2 : string) :
  String.length (s1 ++ s2) = (String.length s1 + String.length s2)%nat.
Proof. induction s1 as [|c s1 IH]; simpl; [reflexivity | now rewrite IH]. Qed.

Lemma substring_prefix (s1 s2 : string) :
  substring 0 (String.length s1) (s1 ++ s2) = s1.
Proof.
  induction s1 as [|c s1 IH]; simpl.
  - destruct s2; reflexivity.
  - now rewrite IH.
Qed.

Lemma allChars_app (p : ascii -> bool) (s1 s2 : string) :
  allChars p (s1 ++ s2) = allChars p s1 && allChars p s2.
Proof.
  induction s1 as [|c s1 IH]; simpl; [reflexivity|].
  rewrite IH. now rewrite andb_assoc.
Qed.

Lemma length_repeatChar (n : nat) (c : ascii) : String.length (repeatChar n c) = n.
Proof. induction n; simpl; congruence. Qed.

Lemma app_string_assoc (s1 s2 s3 : string) : (s1 ++ s2) ++ s3 = s1 ++ (s2 ++ s3).
Proof. induction s1 as [|c s1 IH]; simpl; [reflexivity | now rewrite IH]. Qed.

(** ** Radix 36: printing and parsing *)

Lemma digitChar_spec (d : Z) :
  0 <= d < 36 -> digitValue (digitChar d) = Some d /\ isLowerAlnum (digitChar d) = true.
Proof.
  intros Hd.
  assert (Hn : exists n : nat, d = Z.of_nat n /\ (n < 36)%nat).
  { exists (Z.to_nat d). split; lia. }
  destruct Hn as (n & -> & Hn).
  do 36 (destruct n as [|n]; [vm_compute; split; reflexivity|]).
  lia.
Qed.

Lemma isLowerAlnum_digit (c : ascii) :
  isLowerAlnum c = true -> exists d, digitValue c = Some d /\ 0 <= d < 36.
Proof.
  unfold isLowerAlnum, digitValue. cbv zeta.
  set (n := Z.of_nat (nat_of_ascii c)). intros H.
  destruct ((48 <=? n) && (n <=? 57)) eqn:E1.
  - exists (n - 48). split; [reflexivity|].
    apply andb_true_iff in E1 as [?%Z.leb_le ?%Z.leb_le]. lia.
  - simpl in H. rewrite H. exists (n - 87). split; [reflexivity|].
    apply andb_true_iff in H as [?%Z.leb_le ?%Z.leb_le]. lia.
Qed.

Lemma parseDigits36_app (s1 s2 : string) (a : Z) :
  allChars isLowerAlnum s1 = true ->
  parseDigits36 (s1 ++ s2) a = parseDigits36 s2 (parseDigits36 s1 a).
Proof.
  revert a. induction s1 as [|c s1 IH]; intros a H; simpl in *; [reflexivity|].
  apply andb_true_iff in H as [Hc Hs].
  destruct (isLowerAlnum_digit c Hc) as (d & -> & _). now apply IH.
Qed.

Lemma parseDigits36_zeros (n : nat) (s : string) :
  parseDigits36 (repeatChar n "0" ++ s) 0 = parseDigits36 s 0.
Proof. induction n; simpl; [reflexivity | exact IHn]. Qed.

Lemma allChars_zeros (n : nat) : allChars isLowerAlnum (repeatChar n "0") = true.
Proof. induction n; simpl; [reflexivity | exact IHn]. Qed.

(** What [toString36_digits] produces when the fuel covers the bit length:
    a non-empty block of digits in front of [acc] that reads back as [n]
    and is as short as the magnitude of [n] allows. *)
Lemma toString36_digits_spec (fuel : nat) :
  forall (n : Z) (acc : string),
    (1 <= fuel)%nat -> 0 <= n < 2 ^ Z.of_nat fuel ->
    exists ds,
      toString36_digits fuel n acc = ds ++ acc
      /\ allChars isLowerAlnum ds = true
      /\ (forall a, parseDigits36 ds a = a * 36 ^ Z.of_nat (String.length ds) + n)
      /\ (1 <= String.length ds)%nat
      /\ (forall k, (1 <= k)%nat -> n < 36 ^ Z.of_nat k -> (String.length ds <= k)%nat).
Proof.
  induction fuel as [|fuel IH]; intros n acc Hf Hn; [lia|].
  simpl. destruct (n <? 36) eqn:E.
  - apply Z.ltb_lt in E.
    rewrite Z.mod_small by lia.
    destruct (digitChar_spec n) as [Hv Hl]; [lia|].
    exists (String (digitChar n) EmptyString). simpl.
    rewrite Hv, Hl. repeat split; try reflexivity; try lia.
  - apply Z.ltb_ge in E.
    assert (Hfuel : (1 <= fuel)%nat).
    { destruct fuel; [simpl in Hn; lia | lia]. }
    assert (Hdiv : 0 <= n / 36 < 2 ^ Z.of_nat fuel).
    { split; [apply Z.div_pos; lia|].
      apply Z.div_lt_upper_bound; [lia|].
      rewrite Nat2Z.inj_succ, Z.pow_succ_r in Hn by lia. lia. }
    destruct (IH (n / 36) (String (digitChar (n mod 36)) acc) Hfuel Hdiv)
      as (ds & Heq & Hall & Hparse & Hlen & Hshort).
    destruct (digitChar_spec (n mod 36)) as [Hv Hl].
    { apply Z.mod_pos_bound; lia. }
    exists (ds ++ String (digitChar (n mod 36)) EmptyString).
    split; [|split; [|split; [|split]]].
    + rewrite Heq, app_string_assoc. reflexivity.
    + rewrite allChars_app, Hall. simpl. now rewrite Hl.
    + intros a. rewrite parseDigits36_app by exact Hall.
      simpl. rewrite Hv, Hparse, length_app_string. simpl.
      rewrite Nat2Z.inj_add, Z.pow_add_r by lia.
      change (Z.of_nat 1) with 1. rewrite Z.pow_1_r.
      pose proof (Z.div_mod n 36). lia.
    + rewrite length_app_string. simpl. lia.
    + intros k Hk Hnk. rewrite length_app_string. simpl.
      destruct k as [|k]; [lia|]. destruct k as [|k].
      * simpl in Hnk. lia.
      * assert ((String.length ds <= S k)%nat); [|lia].
        apply Hshort; [lia|].
        apply Z.div_lt_upper_bound; [lia|].
        rewrite (Nat2Z.inj_succ (S k)), Z.pow_succ_r in Hnk by lia. lia.
Qed.

Lemma toString36_spec (n : Z) :
  0 <= n ->
  allChars isLowerAlnum (toString36 n) = true
  /\ parseDigits36 (toString36 n) 0 = n
  /\ (1 <= String.length (toString36 n))%nat
  /\ (forall k, (1 <= k)%nat -> n < 36 ^ Z.of_nat k -> (String.length (toString36 n) <= k)%nat).
Proof.
  intros Hn. unfold toString36.
  destruct (n <? 0) eqn:E; [apply Z.ltb_lt in E; lia|].
  assert (Hb : 0 <= n < 2 ^ Z.of_nat (S (Z.to_nat (Z.log2 n)))).
  { split; [exact Hn|].
    rewrite Nat2Z.inj_succ, Z2Nat.id by apply Z.log2_nonneg.
    destruct (Z.eq_dec n 0) as [->|Hne]; [reflexivity|].
    apply Z.log2_spec. lia. }
  assert (Hf : (1 <= S (Z.to_nat (Z.log2 n)))%nat) by lia.
  destruct (toString36_digits_spec _ n EmptyString Hf Hb)
    as (ds & Heq & Hall & Hparse & Hlen & Hshort).
  assert (Hds : ds ++ EmptyString = ds).
  { clear. induction ds; simpl; congruence. }
  rewrite Heq, Hds. repeat split; auto.
Qed.

(** A number below 36^k, printed in radix 36 and left-padded with zeros to
    [k] characters, is exactly [k] characters of [0-9a-z] and parses back
    to itself. *)
Lemma padded36_roundtrip (k : nat) (n : Z) :
  (1 <= k)%nat -> 0 <= n < 36 ^ Z.of_nat k ->
  String.length (padStart k "0" (toString36 n)) = k
  /\ allChars isLowerAlnum (padStart k "0" (toString36 n)) = true
  /\ parseInt36 (padStart k "0" (toString36 n)) = Some n.
Proof.
  intros Hk [Hn0 Hnk].
  destruct (toString36_spec n Hn0) as (Hall & Hparse & Hlen & Hshort).
  specialize (Hshort k Hk Hnk).
  unfold padStart.
  split; [|split].
  - rewrite length_app_string, length_repeatChar. lia.
  - rewrite allChars_app, allChars_zeros, Hall. reflexivity.
  - assert (Hp : parseDigits36 (repeatChar (k - String.length (toString36 n)) "0"
                                ++ toString36 n) 0 = n).
    { rewrite parseDigits36_zeros. exact Hparse. }
    unfold parseInt36.
    destruct (repeatChar (k - String.length (toString36 n)) "0" ++ toString36 n)
      as [|c rest] eqn:E.
    + apply (f_equal String.length) in E.
      rewrite length_app_string, length_repeatChar in E. simpl in E. lia.
    + assert (Hc : isLowerAlnum c = true).
      { assert (Ha : allChars isLowerAlnum (String c rest) = true).
        { rewrite <- E, allChars_app, allChars_zeros, Hall. reflexivity. }
        simpl in Ha. now apply andb_true_iff in Ha as [? _]. }
      destruct (isLowerAlnum_digit c Hc) as (d & -> & _).
      now rewrite Hp.
Qed.

(** ** Arithmetic on doubles *)

Ltac compare_facts :=
  repeat match goal with
         | H : (_ ?= _)%Q = Eq |- _ => apply Qeq_alt in H
         | H : (_ ?= _)%Q = Lt |- _ => apply Qlt_alt in H
         | H : (_ ?= _)%Q = Gt |- _ => apply Qgt_alt in H
         end.

Lemma roundHalfEven_bounds (q : Q) :
  (q - (1 # 2) <= inject_Z (roundHalfEven q) <= q + (1 # 2))%Q.
Proof.
  unfold roundHalfEven.
  pose proof (Qfloor_le q) as Hlo. pose proof (Qlt_floor q) as Hhi.
  set (f := Qfloor q) in *.
  rewrite inject_Z_plus in Hhi. change (inject_Z 1) with 1%Q in Hhi.
  destruct (q - inject_Z f ?= 1 # 2)%Q eqn:E.
  - apply Qeq_alt in E.
    destruct (Z.even f); [|rewrite inject_Z_plus; change (inject_Z 1) with 1%Q]; lra.
  - apply Qlt_alt in E. lra.
  - apply Qgt_alt in E. rewrite inject_Z_plus. change (inject_Z 1) with 1%Q. lra.
Qed.

Lemma roundHalfEven_inject_Z (n : Z) : roundHalfEven (inject_Z n) = n.
Proof.
  unfold roundHalfEven. rewrite Qfloor_Z.
  assert (E : (inject_Z n - inject_Z n ?= 1 # 2)%Q = Lt).
  { apply Qlt_alt. unfold Qminus. rewrite Qplus_opp_r. reflexivity. }
  now rewrite E.
Qed.

#[local] Instance roundHalfEven_comp : Proper (Qeq ==> eq) roundHalfEven.
Proof.
  intros x y H. unfold roundHalfEven. rewrite (Qfloor_comp _ _ H).
  assert (E : (x - inject_Z (Qfloor y) == y - inject_Z (Qfloor y))%Q) by (rewrite H; reflexivity).
  now rewrite (Qcompare_comp _ _ E _ _ (Qeq_refl _)).
Qed.

Lemma roundHalfEven_mono (x y : Q) : (x <= y)%Q -> roundHalfEven x <= roundHalfEven y.
Proof.
  intros Hxy.
  pose proof (Qfloor_resp_le _ _ Hxy) as Hf.
  destruct (Z.eq_dec (Qfloor x) (Qfloor y)) as [Heq|Hne].
  - unfold roundHalfEven. rewrite Heq. set (f := Qfloor y).
    destruct (x - inject_Z f ?= 1 # 2)%Q eqn:Ex; destruct (y - inject_Z f ?= 1 # 2)%Q eqn:Ey;
      try (destruct (Z.even f)); try lia; compare_facts; exfalso; lra.
  - assert (Hlt : Qfloor x + 1 <= Qfloor y) by lia.
    pose proof (roundHalfEven_bounds x) as Bx. pose proof (roundHalfEven_bounds y) as By_.
    assert (Hx : roundHalfEven x <= Qfloor x + 1).
    { unfold roundHalfEven. destruct (_ ?= _)%Q; try destruct (Z.even _); lia. }
    assert (Hy : Qfloor y <= roundHalfEven y).
    { unfold roundHalfEven. destruct (_ ?= _)%Q; try destruct (Z.even _); lia. }
    lia.
Qed.

(** ** Powers of two and binades *)

Lemma pow2_pos (e : Z) : (0 < 2 ^ e)%Q.
Proof. apply Qpower_0_lt. reflexivity. Qed.

Lemma pow2_plus (a b : Z) : (2 ^ (a + b) == 2 ^ a * 2 ^ b)%Q.
Proof. apply Qpower_plus. discriminate. Qed.

Lemma pow2_succ (e : Z) : (2 ^ (e + 1) == 2 * 2 ^ e)%Q.
Proof. rewrite pow2_plus. change (2 ^ 1)%Q with 2%Q. ring. Qed.

Lemma pow2_le (a b : Z) : a <= b -> (2 ^ a <= 2 ^ b)%Q.
Proof. intros H. apply Qpower_le_compat_l; [exact H | discriminate]. Qed.

Lemma pow2_inject_Z (e : Z) : 0 <= e -> (2 ^ e == inject_Z (2 ^ e))%Q.
Proof. intros H. rewrite Zpower_Qpower by exact H. reflexivity. Qed.

Lemma log2_bounds (n : Z) : 0 < n -> (2 ^ Z.log2 n <= inject_Z n < 2 ^ (Z.log2 n + 1))%Q.
Proof.
  intros Hn. destruct (Z.log2_spec n Hn) as [Hlo Hhi].
  pose proof (Z.log2_nonneg n) as H0.
  rewrite !pow2_inject_Z by lia. rewrite <- Zle_Qle, <- Zlt_Qlt.
  replace (Z.log2 n + 1) with (Z.succ (Z.log2 n)) by lia. lia.
Qed.

Lemma binade_spec (q : Q) : (0 < q)%Q -> (2 ^ binade q <= q < 2 ^ (binade q + 1))%Q.
Proof.
  intros Hq. unfold binade.
  destruct q as [a b]. cbn [Qnum Qden].
  assert (Ha : 0 < a) by (unfold Qlt in Hq; simpl in Hq; lia).
  destruct (log2_bounds a Ha) as [Ha1 Ha2].
  destruct (log2_bounds (Zpos b) ltac:(lia)) as [Hb1 Hb2].
  set (la := Z.log2 a) in *. set (lb := Z.log2 (Zpos b)) in *.
  assert (Hq' : (a # b == inject_Z a / inject_Z (Zpos b))%Q) by apply Qmake_Qdiv.
  assert (Hbpos : (0 < inject_Z (Zpos b))%Q) by (rewrite <- (Zlt_Qlt 0); lia).
  pose proof (pow2_pos la) as Pla. pose proof (pow2_pos lb) as Plb.
  pose proof (pow2_succ la) as Sla. pose proof (pow2_succ lb) as Slb.
  assert (E0 : (2 ^ (la - lb) * 2 ^ lb == 2 ^ la)%Q).
  { rewrite <- pow2_plus. replace (la - lb + lb) with la by lia. reflexivity. }
  pose proof (pow2_pos (la - lb)) as P0.
  assert (Hq2 : ((a # b) * inject_Z (Zpos b) == inject_Z a)%Q).
  { rewrite Hq'. field. lra. }
  assert (E1 : (2 * 2 ^ (la - lb - 1) == 2 ^ (la - lb))%Q).
  { rewrite <- pow2_succ. replace (la - lb - 1 + 1) with (la - lb) by lia. reflexivity. }
  pose proof (pow2_pos (la - lb - 1)) as P1.
  set (x := (a # b)%Q) in *. set (B := inject_Z (Zpos b)) in *. set (A := inject_Z a) in *.
  set (p0 := (2 ^ (la - lb))%Q) in *. set (pa := (2 ^ la)%Q) in *. set (pb := (2 ^ lb)%Q) in *.
  set (p1 := (2 ^ (la - lb - 1))%Q) in *.
  set (pa1 := (2 ^ (la + 1))%Q) in *. set (pb1 := (2 ^ (lb + 1))%Q) in *.
  destruct (Qle_bool p0 x) eqn:E.
  - apply Qle_bool_iff in E. split; [exact E|].
    rewrite pow2_succ. fold p0.
    apply Qnot_le_lt. intros Hc.
    assert (2 * p0 * B <= x * B)%Q by (apply Qmult_le_compat_r; lra).
    assert (2 * p0 * pb <= 2 * p0 * B)%Q by (apply Qmult_le_l; lra).
    lra.
  - assert (Hlt : (x < p0)%Q).
    { apply Qnot_le_lt. intros Hc. apply Qle_bool_iff in Hc. congruence. }
    replace (la - lb - 1 + 1) with (la - lb) by lia. split; [|exact Hlt].
    fold p1. apply Qnot_lt_le. intros Hc.
    assert (x * B <= p1 * B)%Q by (apply Qmult_le_compat_r; lra).
    assert (p1 * B < p1 * (2 * pb))%Q by (apply Qmult_lt_l; lra).
    assert (p1 * (2 * pb) == p0 * pb)%Q by (rewrite <- E1; ring).
    lra.
Qed.

Lemma binade_unique (q : Q) (e : Z) :
  (0 < q)%Q -> (2 ^ e <= q < 2 ^ (e + 1))%Q -> binade q = e.
Proof.
  intros Hq [Hlo Hhi]. destruct (binade_spec q Hq) as [Blo Bhi].
  destruct (Z.lt_trichotomy (binade q) e) as [Hlt | [Heq | Hgt]]; [|exact Heq|].
  - exfalso. pose proof (pow2_le (binade q + 1) e ltac:(lia)). lra.
  - exfalso. pose proof (pow2_le (e + 1) (binade q) ltac:(lia)). lra.
Qed.

Lemma binade_mono (x y : Q) : (0 < x)%Q -> (x <= y)%Q -> binade x <= binade y.
Proof.
  intros Hx Hxy. assert (Hy : (0 < y)%Q) by lra.
  destruct (binade_spec x Hx) as [Xlo Xhi]. destruct (binade_spec y Hy) as [Ylo Yhi].
  destruct (Z_le_gt_dec (binade x) (binade y)) as [H|H]; [exact H|].
  exfalso. pose proof (pow2_le (binade y + 1) (binade x) ltac:(lia)). lra.
Qed.

Lemma roundDouble_pos (q : Q) :
  (0 < q)%Q ->
  roundDouble q = (inject_Z (roundHalfEven (q / 2 ^ (binade q - 52))) * 2 ^ (binade q - 52))%Q.
Proof.
  intros Hq. unfold roundDouble.
  assert (E0 : Qeq_bool q 0 = false).
  { destruct (Qeq_bool q 0) eqn:E; [|reflexivity]. apply Qeq_bool_eq in E. lra. }
  assert (E1 : Qle_bool 0 q = true) by (apply Qle_bool_iff; lra).
  now rewrite E0, E1.
Qed.

Lemma roundDouble_zero (q : Q) : (q == 0)%Q -> roundDouble q = 0%Q.
Proof.
  intros Hq. unfold roundDouble. apply Qeq_eq_bool in Hq. now rewrite Hq.
Qed.

Lemma scaled_range (q : Q) :
  (0 < q)%Q ->
  (inject_Z (2 ^ 52) <= q / 2 ^ (binade q - 52) < inject_Z (2 ^ 53))%Q.
Proof.
  intros Hq. destruct (binade_spec q Hq) as [Lo Hi].
  pose proof (pow2_pos (binade q - 52)) as P.
  assert (E52 : (2 ^ binade q == inject_Z (2 ^ 52) * 2 ^ (binade q - 52))%Q).
  { rewrite <- pow2_inject_Z by lia. rewrite <- pow2_plus.
    replace (52 + (binade q - 52)) with (binade q) by lia. reflexivity. }
  assert (E53 : (2 ^ (binade q + 1) == inject_Z (2 ^ 53) * 2 ^ (binade q - 52))%Q).
  { rewrite <- pow2_inject_Z by lia. rewrite <- pow2_plus.
    replace (53 + (binade q - 52)) with (binade q + 1) by lia. reflexivity. }
  set (u := (2 ^ (binade q - 52))%Q) in *.
  split.
  - apply Qle_shift_div_l; [exact P|]. lra.
  - apply Qlt_shift_div_r; [exact P|]. lra.
Qed.

Lemma roundDouble_in_binade (q : Q) :
  (0 < q)%Q -> (2 ^ binade q <= roundDouble q <= 2 ^ (binade q + 1))%Q.
Proof.
  intros Hq. rewrite (roundDouble_pos q Hq).
  destruct (scaled_range q Hq) as [Lo Hi].
  pose proof (pow2_pos (binade q - 52)) as P.
  assert (E52 : (2 ^ binade q == inject_Z (2 ^ 52) * 2 ^ (binade q - 52))%Q).
  { rewrite <- pow2_inject_Z by lia. rewrite <- pow2_plus.
    replace (52 + (binade q - 52)) with (binade q) by lia. reflexivity. }
  assert (E53 : (2 ^ (binade q + 1) == inject_Z (2 ^ 53) * 2 ^ (binade q - 52))%Q).
  { rewrite <- pow2_inject_Z by lia. rewrite <- pow2_plus.
    replace (53 + (binade q - 52)) with (binade q + 1) by lia. reflexivity. }
  set (z := (q / 2 ^ (binade q - 52))%Q) in *.
  assert (R1 : 2 ^ 52 <= roundHalfEven z).
  { rewrite <- (roundHalfEven_inject_Z (2 ^ 52)). now apply roundHalfEven_mono. }
  assert (R2 : roundHalfEven z <= 2 ^ 53).
  { rewrite <- (roundHalfEven_inject_Z (2 ^ 53)). apply roundHalfEven_mono. lra. }
  rewrite Zle_Qle in R1, R2.
  rewrite E52, E53. split; apply Qmult_le_compat_r; lra.
Qed.

Lemma roundDouble_mono (x y : Q) :
  (0 <= x)%Q -> (x <= y)%Q -> (roundDouble x <= roundDouble y)%Q.
Proof.
  intros Hx Hxy.
  destruct (Qlt_le_dec 0 x) as [Hpos|Hzero].
  2:{ rewrite (roundDouble_zero x) by lra.
      destruct (Qlt_le_dec 0 y) as [Hy|Hy].
      - destruct (roundDouble_in_binade y Hy) as [L _].
        pose proof (pow2_pos (binade y)). lra.
      - rewrite (roundDouble_zero y) by lra. lra. }
  assert (Hy : (0 < y)%Q) by lra.
  pose proof (binade_mono x y Hpos Hxy) as Hb.
  destruct (Z.eq_dec (binade x) (binade y)) as [Heq|Hne].
  - rewrite (roundDouble_pos x Hpos), (roundDouble_pos y Hy), Heq.
    pose proof (pow2_pos (binade y - 52)) as P.
    apply Qmult_le_compat_r; [|lra].
    rewrite <- Zle_Qle. apply roundHalfEven_mono.
    apply Qmult_le_compat_r; [exact Hxy|].
    apply Qlt_le_weak. now apply Qinv_lt_0_compat.
  - destruct (roundDouble_in_binade x Hpos) as [_ Ux].
    destruct (roundDouble_in_binade y Hy) as [Ly _].
    pose proof (pow2_le (binade x + 1) (binade y) ltac:(lia)). lra.
Qed.

Lemma roundDouble_error (q : Q) :
  (0 < q)%Q ->
  (q - 2 ^ (binade q - 53) <= roundDouble q <= q + 2 ^ (binade q - 53))%Q.
Proof.
  intros Hq. rewrite (roundDouble_pos q Hq).
  pose proof (pow2_pos (binade q - 52)) as P.
  assert (E : (2 ^ (binade q - 52) == 2 * 2 ^ (binade q - 53))%Q).
  { rewrite <- pow2_succ. replace (binade q - 53 + 1) with (binade q - 52) by lia.
    reflexivity. }
  pose proof (roundHalfEven_bounds (q / 2 ^ (binade q - 52))) as [B1 B2].
  assert (Ez : (q / 2 ^ (binade q - 52) * 2 ^ (binade q - 52) == q)%Q) by (field; lra).
  set (u := (2 ^ (binade q - 52))%Q) in *. set (h := (2 ^ (binade q - 53))%Q) in *.
  set (z := (q / u)%Q) in *. set (r := inject_Z (roundHalfEven z)) in *.
  assert (M1 : ((z - (1 # 2)) * u <= r * u)%Q) by (apply Qmult_le_compat_r; lra).
  assert (M2 : (r * u <= (z + (1 # 2)) * u)%Q) by (apply Qmult_le_compat_r; lra).
  assert (D1 : ((z - (1 # 2)) * u == z * u - h)%Q) by (rewrite E; ring).
  assert (D2 : ((z + (1 # 2)) * u == z * u + h)%Q) by (rewrite E; ring).
  lra.
Qed.

(** In a known binade the result lies on the grid of that binade. *)
Lemma roundDouble_grid (q : Q) (e : Z) :
  (0 < q)%Q -> (2 ^ e <= q < 2 ^ (e + 1))%Q ->
  (roundDouble q == inject_Z (roundHalfEven (q * 2 ^ (52 - e))) / 2 ^ (52 - e))%Q.
Proof.
  intros Hq He. rewrite (roundDouble_pos q Hq), (binade_unique q e Hq He).
  pose proof (pow2_pos (e - 52)) as P. pose proof (pow2_pos (52 - e)) as P'.
  assert (E : (2 ^ (e - 52) * 2 ^ (52 - e) == 1)%Q).
  { rewrite <- pow2_plus. replace (e - 52 + (52 - e)) with 0 by lia. reflexivity. }
  assert (Ez : (q / 2 ^ (e - 52) == q * 2 ^ (52 - e))%Q).
  { apply Qmult_inj_r with (z := (2 ^ (e - 52))%Q); [lra|].
    assert (X : (q / 2 ^ (e - 52) * 2 ^ (e - 52) == q)%Q) by (field; lra).
    rewrite X. rewrite <- Qmult_assoc, (Qmult_comm (2 ^ (52 - e))), E. ring. }
  rewrite (roundHalfEven_comp _ _ Ez).
  apply Qmult_inj_r with (z := (2 ^ (52 - e))%Q); [lra|].
  assert (Y : (inject_Z (roundHalfEven (q * 2 ^ (52 - e))) / 2 ^ (52 - e) * 2 ^ (52 - e)
               == inject_Z (roundHalfEven (q * 2 ^ (52 - e))))%Q) by (field; lra).
  rewrite Y, <- Qmult_assoc, E. ring.
Qed.

Lemma binade_below (q : Q) (e : Z) : (0 < q)%Q -> (q < 2 ^ e)%Q -> binade q <= e - 1.
Proof.
  intros Hq Hlt. destruct (binade_spec q Hq) as [Lo _].
  destruct (Z_le_gt_dec (binade q) (e - 1)) as [H|H]; [exact H|].
  exfalso. pose proof (pow2_le e (binade q) ltac:(lia)). lra.
Qed.

Lemma roundHalfEven_ge (z : Q) (n : Z) :
  (inject_Z n - (1 # 4) <= z)%Q -> n <= roundHalfEven z.
Proof.
  intros H. destruct (roundHalfEven_bounds z) as [B _].
  assert (L : (inject_Z (n - 1) < inject_Z (roundHalfEven z))%Q).
  { replace (n - 1) with (n + -1) by lia. rewrite inject_Z_plus.
    change (inject_Z (-1)) with (-1 # 1)%Q. lra. }
  rewrite <- Zlt_Qlt in L. lia.
Qed.

Lemma roundHalfEven_le (z : Q) (n : Z) :
  (z <= inject_Z n + (1 # 4))%Q -> roundHalfEven z <= n.
Proof.
  intros H. destruct (roundHalfEven_bounds z) as [_ B].
  assert (L : (inject_Z (roundHalfEven z) < inject_Z (n + 1))%Q).
  { rewrite inject_Z_plus. change (inject_Z 1) with 1%Q. lra. }
  rewrite <- Zlt_Qlt in L. lia.
Qed.

(** The duration of a bucket as the code has it, a double, is within
    [2^-17 / timeUnits] of the exact quotient. *)
Lemma unitDuration_close (timeUnits : Z) :
  timeUnits = 36 ^ 3 \/ timeUnits = 36 ^ 4 \/ timeUnits = 36 ^ 5 \/ timeUnits = 36 ^ 6 ->
  let u := (inject_Z THREE_YEARS_MS / inject_Z timeUnits)%Q in
  let d := roundDouble u in
  (0 < d)%Q
  /\ (inject_Z timeUnits * (d - u) <= 1 # 131072)%Q
  /\ (inject_Z timeUnits * (u - d) <= 1 # 131072)%Q.
Proof.
  intros [-> | [-> | [-> | ->]]]; cbv zeta;
    (split; [|split]); first [reflexivity | apply Qle_bool_iff; vm_compute; reflexivity].
Qed.

Lemma Qmult_le_compat_l_nonneg (x y z : Q) :
  (0 <= z)%Q -> (x <= y)%Q -> (z * x <= z * y)%Q.
Proof.
  intros Hz Hxy. rewrite (Qmult_comm z x), (Qmult_comm z y).
  now apply Qmult_le_compat_r.
Qed.

Lemma codeTime_bounds (timeUnits timeUnit : Z) :
  timeUnits = 36 ^ 3 \/ timeUnits = 36 ^ 4 \/ timeUnits = 36 ^ 5 \/ timeUnits = 36 ^ 6 ->
  0 <= timeUnit < timeUnits ->
  let exact := (inject_Z timeUnit * (inject_Z THREE_YEARS_MS / inject_Z timeUnits))%Q in
  (inject_Z (BASE_TIME + Qfloor exact) <= codeTime timeUnits timeUnit
   <= inject_Z (BASE_TIME + Qceiling exact))%Q.
Proof.
  intros Hu Hi exact. unfold codeTime. cbv zeta.
  destruct (unitDuration_close timeUnits Hu) as (Dpos & Dhi & Dlo). cbv zeta in Dhi, Dlo.
  assert (Hupos : 0 < timeUnits) by lia.
  assert (HU : (0 < inject_Z timeUnits)%Q) by (rewrite <- (Zlt_Qlt 0); lia).
  assert (HI0 : (0 <= inject_Z timeUnit)%Q) by (rewrite <- (Zle_Qle 0); lia).
  assert (HI1 : (inject_Z timeUnit <= inject_Z timeUnits)%Q) by (rewrite <- Zle_Qle; lia).
  set (u := (inject_Z THREE_YEARS_MS / inject_Z timeUnits)%Q) in *.
  set (d := roundDouble u) in *.
  set (I := inject_Z timeUnit) in *. set (U := inject_Z timeUnits) in *.
  (* the exact value lies in [0, H) *)
  assert (Eu : (U * u == inject_Z THREE_YEARS_MS)%Q) by (unfold u; field; lra).
  assert (Hupos' : (0 < u)%Q).
  { unfold u. apply Qlt_shift_div_l; [exact HU|]. rewrite Qmult_0_l. reflexivity. }
  assert (Hex0 : (0 <= exact)%Q) by (unfold exact; fold I u; apply Qmult_le_0_compat; lra).
  assert (Hex1 : (exact <= inject_Z THREE_YEARS_MS)%Q).
  { unfold exact. fold I u. rewrite <- Eu. apply Qmult_le_compat_r; lra. }
  (* the product, before and after rounding *)
  assert (Hx0 : (0 <= I * d)%Q) by (apply Qmult_le_0_compat; lra).
  assert (Hx1 : (I * d - exact <= 1 # 131072)%Q).
  { unfold exact. fold I u.
    destruct (Qlt_le_dec d u) as [Hlt|Hge].
    - assert (I * d <= I * u)%Q by (apply Qmult_le_compat_l_nonneg; lra). lra.
    - assert (I * (d - u) <= U * (d - u))%Q by (apply Qmult_le_compat_r; lra).
      assert (I * (d - u) == I * d - I * u)%Q by ring. lra. }
  assert (Hx2 : (exact - I * d <= 1 # 131072)%Q).
  { unfold exact. fold I u.
    destruct (Qlt_le_dec u d) as [Hlt|Hge].
    - assert (I * u <= I * d)%Q by (apply Qmult_le_compat_l_nonneg; lra). lra.
    - assert (I * (u - d) <= U * (u - d))%Q by (apply Qmult_le_compat_r; lra).
      assert (I * (u - d) == I * u - I * d)%Q by ring. lra. }
  set (x := (I * d)%Q) in *.
  assert (Hp : (0 <= roundDouble x)%Q
               /\ (x - (1 # 131072) <= roundDouble x <= x + (1 # 131072))%Q).
  { destruct (Qlt_le_dec 0 x) as [Hpos|Hzero].
    - destruct (roundDouble_in_binade x Hpos) as [L _].
      pose proof (pow2_pos (binade x)) as P.
      split; [lra|].
      assert (Hb : binade x <= 36).
      { apply (binade_below x 37 Hpos).
        apply Qle_lt_trans with (inject_Z THREE_YEARS_MS + 1)%Q; [lra | reflexivity]. }
      pose proof (pow2_le (binade x - 53) (-17) ltac:(lia)) as Hp.
      change (2 ^ (-17))%Q with (1 # 131072)%Q in Hp.
      pose proof (roundDouble_error x Hpos). lra.
    - rewrite (roundDouble_zero x) by lra. lra. }
  destruct Hp as (Hp0 & Hp1 & Hp2).
  set (p := roundDouble x) in *.
  (* the sum lies in the binade of 2^40 *)
  set (y := (inject_Z BASE_TIME + p)%Q).
  assert (Hy0 : (inject_Z BASE_TIME <= y)%Q) by (unfold y; lra).
  assert (Hy1 : (y <= inject_Z BASE_TIME + inject_Z THREE_YEARS_MS + 1)%Q) by (unfold y; lra).
  assert (Hypos : (0 < y)%Q).
  { apply Qlt_le_trans with (inject_Z BASE_TIME); [reflexivity | exact Hy0]. }
  assert (Hbin : (2 ^ 40 <= y < 2 ^ (40 + 1))%Q).
  { split.
    - apply Qle_trans with (inject_Z BASE_TIME); [discriminate | exact Hy0].
    - apply Qle_lt_trans with (inject_Z BASE_TIME + inject_Z THREE_YEARS_MS + 1)%Q;
        [exact Hy1 | reflexivity]. }
  rewrite (roundDouble_grid y 40 Hypos Hbin).
  change (2 ^ (52 - 40))%Q with (4096 # 1)%Q.
  pose proof (Qfloor_le exact) as Fl. pose proof (Qle_ceiling exact) as Ce.
  set (F := Qfloor exact) in *. set (C := Qceiling exact) in *.
  assert (Glo : (BASE_TIME + F) * 4096 <= roundHalfEven (y * (4096 # 1))).
  { apply roundHalfEven_ge. rewrite inject_Z_mult, inject_Z_plus.
    change (inject_Z 4096) with (4096 # 1)%Q. unfold y. lra. }
  assert (Ghi : roundHalfEven (y * (4096 # 1)) <= (BASE_TIME + C) * 4096).
  { apply roundHalfEven_le. rewrite inject_Z_mult, inject_Z_plus.
    change (inject_Z 4096) with (4096 # 1)%Q. unfold y. lra. }
  rewrite Zle_Qle in Glo, Ghi. rewrite inject_Z_mult in Glo, Ghi.
  change (inject_Z 4096) with (4096 # 1)%Q in Glo, Ghi.
  set (r := inject_Z (roundHalfEven (y * (4096 # 1)))) in *.
  split.
  - apply Qle_shift_div_l; [reflexivity | exact Glo].
  - apply Qle_shift_div_r; [reflexivity | exact Ghi].
Qed.

(** ** Time buckets *)

Lemma inject_Z_pos (z : Z) : 0 < z -> (0 < inject_Z z)%Q.
Proof. intros H. change 0%Q with (inject_Z 0). now rewrite <- Zlt_Qlt. Qed.

(** *** The time code of the generators in doubles *)

Lemma roundHalfEven_above (z : Q) (n : Z) :
  (inject_Z n - (1 # 2) < z)%Q -> n <= roundHalfEven z.
Proof.
  intros H. destruct (roundHalfEven_bounds z) as [Lo _].
  assert (L : (inject_Z (n + -1) < inject_Z (roundHalfEven z))%Q).
  { rewrite inject_Z_plus. change (inject_Z (-1)) with (-1 # 1)%Q. lra. }
  rewrite <- Zlt_Qlt in L. lia.
Qed.

(** A number at most a whole number [n < 2^53] and less than [n / 2^54]
    away from it is rounded to [n]: no double lies strictly between. *)
Lemma roundDouble_reaches_int (n : Z) (z : Q) :
  0 < n < 2 ^ 53 ->
  (inject_Z n * (1 - (1 # 18014398509481984)) < z)%Q -> (z <= inject_Z n)%Q ->
  (inject_Z n <= roundDouble z)%Q.
Proof.
  intros [Hn0 Hn1] Hlo Hhi.
  change (2 ^ 53) with 9007199254740992 in Hn1.
  assert (Hn1' : (1 <= inject_Z n)%Q).
  { change 1%Q with (inject_Z 1). rewrite <- Zle_Qle. lia. }
  assert (HnQ : (inject_Z n < 9007199254740992 # 1)%Q).
  { change (9007199254740992 # 1)%Q with (inject_Z 9007199254740992).
    now rewrite <- Zlt_Qlt. }
  assert (Hzpos : (0 < z)%Q) by lra.
  set (e := binade z).
  destruct (binade_spec z Hzpos) as [Be Be']. fold e in Be, Be'.
  assert (He0 : 0 <= e + 1).
  { destruct (Z_lt_le_dec (e + 1) 0) as [Hneg|]; [|assumption]. exfalso.
    pose proof (pow2_le (e + 1) (-1) ltac:(lia)) as P.
    change (2 ^ (-1))%Q with (1 # 2)%Q in P. lra. }
  assert (He52 : e <= 52).
  { destruct (Z_le_gt_dec e 52) as [|Hbig]; [assumption|]. exfalso.
    pose proof (pow2_le 53 e ltac:(lia)) as P.
    rewrite (pow2_inject_Z 53) in P by lia.
    change (inject_Z (2 ^ 53)) with (9007199254740992 # 1)%Q in P. lra. }
  assert (Hn2 : n <= 2 ^ (e + 1)).
  { destruct (Z_le_gt_dec n (2 ^ (e + 1))) as [|Hgt]; [assumption|]. exfalso.
    assert (G : (inject_Z (2 ^ (e + 1)) + 1 <= inject_Z n)%Q).
    { change 1%Q with (inject_Z 1). rewrite <- inject_Z_plus, <- Zle_Qle. lia. }
    rewrite (pow2_inject_Z (e + 1) He0) in Be'. lra. }
  set (S := 2 ^ (52 - e)).
  assert (HS : (2 ^ (52 - e) == inject_Z S)%Q) by (apply pow2_inject_Z; lia).
  assert (HSpos : (0 < inject_Z S)%Q) by (rewrite <- HS; apply pow2_pos).
  pose proof (roundDouble_grid z e Hzpos (conj Be Be')) as G.
  assert (Ezs : (z * 2 ^ (52 - e) == z * inject_Z S)%Q).
  { apply Qmult_comp; [reflexivity | exact HS]. }
  rewrite (roundHalfEven_comp _ _ Ezs) in G.
  assert (G' : (roundDouble z == inject_Z (roundHalfEven (z * inject_Z S)) / inject_Z S)%Q).
  { rewrite G. apply Qdiv_comp; [reflexivity | exact HS]. }
  rewrite G'.
  apply Qle_shift_div_l; [exact HSpos|].
  rewrite <- inject_Z_mult, <- Zle_Qle.
  apply roundHalfEven_above.
  rewrite inject_Z_mult.
  assert (HnS : (inject_Z n * inject_Z S <= 9007199254740992 # 1)%Q).
  { rewrite <- inject_Z_mult.
    change (9007199254740992 # 1)%Q with (inject_Z (2 ^ 53)). rewrite <- Zle_Qle.
    unfold S. replace 53 with ((e + 1) + (52 - e)) by lia. rewrite Z.pow_add_r by lia.
    apply Z.mul_le_mono_nonneg_r; [apply Z.pow_nonneg; lia | exact Hn2]. }
  assert (Hm : (inject_Z n * (1 - (1 # 18014398509481984)) * inject_Z S < z * inject_Z S)%Q)
    by (apply Qmult_lt_compat_r; assumption).
  assert (E : (inject_Z n * (1 - (1 # 18014398509481984)) * inject_Z S
               == inject_Z n * inject_Z S
                  - inject_Z n * inject_Z S * (1 # 18014398509481984))%Q) by ring.
  rewrite E in Hm.
  set (nS := (inject_Z n * inject_Z S)%Q) in *. clearbody nS.
  set (zS := (z * inject_Z S)%Q) in *. clearbody zS. lra.
Qed.

Lemma roundDouble_above_int (n : Z) (z : Q) :
  0 < n < 2 ^ 53 ->
  (inject_Z n * (1 - (1 # 18014398509481984)) < z)%Q ->
  (inject_Z n <= roundDouble z)%Q.
Proof.
  intros Hn Hlo.
  assert (Hn0 : (0 < inject_Z n)%Q) by (apply inject_Z_pos; lia).
  destruct (Qlt_le_dec (inject_Z n) z) as [Hgt | Hle].
  - apply Qle_trans with (roundDouble (inject_Z n)).
    + apply roundDouble_reaches_int; [exact Hn | lra | apply Qle_refl].
    + apply roundDouble_mono; lra.
  - now apply roundDouble_reaches_int.
Qed.

Lemma floor_gap (N a : Z) :
  0 < a ->
  (inject_Z N / inject_Z a
   <= inject_Z (Qfloor (inject_Z N / inject_Z a)) + 1 - 1 / inject_Z a)%Q.
Proof.
  intros Ha.
  assert (HA : (0 < inject_Z a)%Q) by now apply inject_Z_pos.
  set (x := (inject_Z N / inject_Z a)%Q). set (n := Qfloor x).
  assert (HN : (inject_Z N == x * inject_Z a)%Q).
  { unfold x. field. intros E. rewrite E in HA. now apply Qlt_irrefl in HA. }
  assert (Hlt : N < (n + 1) * a).
  { rewrite Zlt_Qlt, inject_Z_mult, HN. apply Qmult_lt_compat_r; [exact HA|].
    apply Qlt_floor. }
  assert (Hle : (inject_Z N <= inject_Z (n + 1) * inject_Z a - 1)%Q).
  { rewrite <- inject_Z_mult. change 1%Q with (inject_Z 1).
    unfold Qminus. rewrite <- inject_Z_opp, <- inject_Z_plus, <- Zle_Qle. lia. }
  apply Qle_trans with ((inject_Z (n + 1) * inject_Z a - 1) / inject_Z a)%Q.
  - unfold x, Qdiv. apply Qmult_le_compat_r; [exact Hle|].
    apply Qlt_le_weak. now apply Qinv_lt_0_compat.
  - rewrite inject_Z_plus. change (inject_Z 1) with 1%Q.
    assert (E : (((inject_Z n + 1) * inject_Z a - 1) / inject_Z a
                 == inject_Z n + 1 - 1 / inject_Z a)%Q).
    { field. intros E. rewrite E in HA. now apply Qlt_irrefl in HA. }
    rewrite E. apply Qle_refl.
Qed.

(** The double that stands for the duration of a bucket, against the
    exact one: their ratio is within [2^-54] of 1 from below, and near
    enough to 1 from above for the index of a bucket to survive the
    division and its rounding. *)
Lemma unitDuration_ratio (timeUnits : Z) :
  timeUnits = 36 ^ 3 \/ timeUnits = 36 ^ 4 \/ timeUnits = 36 ^ 5 \/ timeUnits = 36 ^ 6 ->
  let u := (inject_Z THREE_YEARS_MS / inject_Z timeUnits)%Q in
  let d := roundDouble u in
  let a := THREE_YEARS_MS / Z.gcd THREE_YEARS_MS timeUnits in
  let b := timeUnits / Z.gcd THREE_YEARS_MS timeUnits in
  let rho := (u / d * (1 + (1 # 9007199254740992)))%Q in
  0 < a /\ 0 < b
  /\ (u == inject_Z a / inject_Z b)%Q
  /\ (1 - (1 # 18014398509481984) < u / d)%Q
  /\ (inject_Z (timeUnits + 1) * (rho - 1) < rho / inject_Z a)%Q.
Proof.
  intros [-> | [-> | [-> | ->]]]; cbv zeta;
    (split; [reflexivity|]); (split; [reflexivity|]);
    (split; [apply Qeq_bool_iff; vm_compute; reflexivity|]);
    split; apply Qlt_alt; vm_compute; reflexivity.
Qed.

(** The time code of the generators, [Math.floor(relativeTime /
    unitDuration)] with [unitDuration] a double and the quotient rounded
    to a double, is the floor of the exact quotient, at every instant the
    generators accept. *)
Lemma timeUnit_in_doubles (timeUnits relativeTime : Z) :
  timeUnits = 36 ^ 3 \/ timeUnits = 36 ^ 4 \/ timeUnits = 36 ^ 5 \/ timeUnits = 36 ^ 6 ->
  0 <= relativeTime <= THREE_YEARS_MS ->
  Qfloor (roundDouble
            (inject_Z relativeTime
             / roundDouble (inject_Z THREE_YEARS_MS / inject_Z timeUnits)))
  = Qfloor (inject_Z relativeTime / (inject_Z THREE_YEARS_MS / inject_Z timeUnits)).
Proof.
  intros Hu [Hr0 Hr1].
  destruct (unitDuration_close timeUnits Hu) as (Dpos & _).
  destruct (unitDuration_ratio timeUnits Hu) as (Ha & Hb & Eu & Hrho & Hup).
  cbv zeta in Dpos, Eu, Hrho, Hup.
  assert (HUpos : 0 < timeUnits) by lia.
  assert (HUQ : (0 < inject_Z timeUnits)%Q) by now apply inject_Z_pos.
  assert (HU53 : timeUnits < 2 ^ 53).
  { change (2 ^ 53) with 9007199254740992.
    destruct Hu as [-> | [-> | [-> | ->]]]; reflexivity. }
  set (u := (inject_Z THREE_YEARS_MS / inject_Z timeUnits)%Q) in *.
  set (d := roundDouble u) in *.
  set (a := THREE_YEARS_MS / Z.gcd THREE_YEARS_MS timeUnits) in *.
  set (b := timeUnits / Z.gcd THREE_YEARS_MS timeUnits) in *.
  assert (HA : (0 < inject_Z a)%Q) by now apply inject_Z_pos.
  assert (HB : (0 < inject_Z b)%Q) by now apply inject_Z_pos.
  assert (Hupos : (0 < u)%Q).
  { unfold u. apply Qlt_shift_div_l; [exact HUQ|]. rewrite Qmult_0_l. reflexivity. }
  assert (HUu : (inject_Z timeUnits * u == inject_Z THREE_YEARS_MS)%Q).
  { unfold u. field. intros E. rewrite E in HUQ. now apply Qlt_irrefl in HUQ. }
  destruct (Z.eq_dec relativeTime 0) as [-> | Hne].
  { assert (E1 : (inject_Z 0 / d == 0)%Q) by (unfold Qdiv; apply Qmult_0_l).
    assert (E2 : (inject_Z 0 / u == 0)%Q) by (unfold Qdiv; apply Qmult_0_l).
    rewrite (roundDouble_zero _ E1), E2. reflexivity. }
  assert (Hrel : (0 < inject_Z relativeTime)%Q) by (apply inject_Z_pos; lia).
  set (x := (inject_Z relativeTime / u)%Q).
  set (z := (inject_Z relativeTime / d)%Q).
  set (n := Qfloor x).
  assert (Hxpos : (0 < x)%Q).
  { unfold x. apply Qlt_shift_div_l; [exact Hupos|]. now rewrite Qmult_0_l. }
  assert (Hzpos : (0 < z)%Q).
  { unfold z. apply Qlt_shift_div_l; [exact Dpos|]. now rewrite Qmult_0_l. }
  assert (Ez : (z == x * (u / d))%Q).
  { unfold z, x. field. split; intros E.
    - rewrite E in Dpos. now apply Qlt_irrefl in Dpos.
    - rewrite E in Hupos. now apply Qlt_irrefl in Hupos. }
  assert (Hxn : (inject_Z n <= x)%Q) by apply Qfloor_le.
  assert (Hn0 : 0 <= n).
  { change 0 with (Qfloor 0). apply Qfloor_resp_le. now apply Qlt_le_weak. }
  assert (HxU : (x <= inject_Z timeUnits)%Q).
  { unfold x. apply Qle_shift_div_r; [exact Hupos|]. rewrite HUu. now rewrite <- Zle_Qle. }
  assert (HnU : n <= timeUnits).
  { rewrite <- (Qfloor_Z timeUnits). now apply Qfloor_resp_le. }
  assert (Hgap : (x <= inject_Z n + 1 - 1 / inject_Z a)%Q).
  { assert (Ex : (x == inject_Z (relativeTime * b) / inject_Z a)%Q).
    { unfold x. rewrite Eu, inject_Z_mult. field. split; intros E.
      - rewrite E in HA. now apply Qlt_irrefl in HA.
      - rewrite E in HB. now apply Qlt_irrefl in HB. }
    apply Qle_trans with (inject_Z (relativeTime * b) / inject_Z a)%Q.
    - apply Qle_lteq. right. exact Ex.
    - unfold n. rewrite (Qfloor_comp _ _ Ex). apply floor_gap. exact Ha. }
  set (eps := (1 # 9007199254740992)%Q) in *.
  set (rho := (u / d * (1 + eps))%Q) in *.
  assert (Hrpos : (0 < u / d)%Q).
  { apply Qlt_shift_div_l; [exact Dpos|]. now rewrite Qmult_0_l. }
  assert (Hrho0 : (0 < rho)%Q).
  { unfold rho. apply Qmult_lt_0_compat; [exact Hrpos | reflexivity]. }
  assert (Hrd_hi : (roundDouble z < inject_Z n + 1)%Q).
  { destruct (roundDouble_error z Hzpos) as [_ Hi].
    destruct (binade_spec z Hzpos) as [Bz _].
    assert (P : (2 ^ (binade z - 53) == 2 ^ binade z * eps)%Q).
    { replace (binade z - 53) with (binade z + -53) by lia. rewrite pow2_plus.
      reflexivity. }
    rewrite P in Hi.
    assert (H1 : (2 ^ binade z * eps <= z * eps)%Q).
    { apply Qmult_le_compat_r; [exact Bz | discriminate]. }
    assert (H2 : (z + z * eps == x * rho)%Q) by (rewrite Ez; unfold rho; ring).
    assert (H3 : (x * rho <= (inject_Z n + 1 - 1 / inject_Z a) * rho)%Q).
    { apply Qmult_le_compat_r; [exact Hgap | now apply Qlt_le_weak]. }
    assert (H4 : ((inject_Z n + 1 - 1 / inject_Z a) * rho
                  == inject_Z n + 1 + (inject_Z (n + 1) * (rho - 1) - rho / inject_Z a))%Q).
    { rewrite inject_Z_plus. change (inject_Z 1) with 1%Q. field.
      intros E. rewrite E in HA. now apply Qlt_irrefl in HA. }
    assert (H5 : (inject_Z (n + 1) * (rho - 1) < rho / inject_Z a)%Q).
    { destruct (Qlt_le_dec 1 rho) as [Hbig | Hsmall].
      - eapply Qle_lt_trans; [|exact Hup].
        apply Qmult_le_compat_r; [rewrite <- Zle_Qle; lia | lra].
      - apply Qle_lt_trans with 0%Q.
        + assert (G : (0 <= inject_Z (n + 1) * (1 - rho))%Q).
          { apply Qmult_le_0_compat; [|lra].
            change 0%Q with (inject_Z 0). rewrite <- Zle_Qle. lia. }
          assert (G' : (inject_Z (n + 1) * (rho - 1) == - (inject_Z (n + 1) * (1 - rho)))%Q)
            by ring.
          rewrite G'. lra.
        + apply Qlt_shift_div_l; [exact HA|]. now rewrite Qmult_0_l. }
    rewrite H4 in H3.
    set (rz := roundDouble z) in *. clearbody rz.
    set (t1 := (2 ^ binade z * eps)%Q) in *. clearbody t1.
    set (t2 := (z * eps)%Q) in *. clearbody t2.
    set (t3 := (x * rho)%Q) in *. clearbody t3.
    set (t4 := (inject_Z (n + 1) * (rho - 1))%Q) in *. clearbody t4.
    set (t5 := (rho / inject_Z a)%Q) in *. clearbody t5.
    lra. }
  assert (Hrd_lo : (inject_Z n <= roundDouble z)%Q).
  { destruct (Z.eq_dec n 0) as [E0 | Hn].
    - rewrite E0. apply Qle_trans with (roundDouble 0).
      + rewrite (roundDouble_zero 0) by reflexivity. apply Qle_refl.
      + apply roundDouble_mono; [apply Qle_refl | now apply Qlt_le_weak].
    - apply roundDouble_above_int; [lia|].
      assert (HnQ : (0 < inject_Z n)%Q) by (apply inject_Z_pos; lia).
      apply Qlt_le_trans with (inject_Z n * (u / d))%Q.
      + rewrite !(Qmult_comm (inject_Z n)). apply Qmult_lt_compat_r; assumption.
      + rewrite Ez. apply Qmult_le_compat_r; [exact Hxn | now apply Qlt_le_weak]. }
  apply Z.le_antisymm.
  - assert (G : Qfloor (roundDouble z) < n + 1); [|lia].
    rewrite Zlt_Qlt. eapply Qle_lt_trans; [apply Qfloor_le|].
    rewrite inject_Z_plus. exact Hrd_hi.
  - rewrite <- (Qfloor_Z n) at 1. apply Qfloor_resp_le. exact Hrd_lo.
Qed.

(** The bucket index computed by the generators: with [u] the width of a
    bucket, the index [i] of [rel] satisfies [i * u <= rel < (i + 1) * u]
    and stays below the number of buckets. *)
Lemma bucket_index_bounds (units rel : Z) :
  0 < units -> 0 <= rel < THREE_YEARS_MS ->
  let u := (inject_Z THREE_YEARS_MS / inject_Z units)%Q in
  let i := Qfloor (inject_Z rel / u) in
  0 <= i < units
  /\ (inject_Z i * u <= inject_Z rel)%Q
  /\ (inject_Z rel < (inject_Z i + 1) * u)%Q.
Proof.
  intros Hu [Hr0 Hr1] u i.
  assert (HH : (0 < inject_Z THREE_YEARS_MS)%Q) by (apply inject_Z_pos; reflexivity).
  assert (HU : (0 < inject_Z units)%Q) by (apply inject_Z_pos; exact Hu).
  assert (Hupos : (0 < u)%Q).
  { unfold u. apply Qlt_shift_div_l; [exact HU|]. now rewrite Qmult_0_l. }
  set (x := (inject_Z rel / u)%Q) in *.
  assert (Hx : (inject_Z rel == x * u)%Q).
  { unfold x. field. intros E. rewrite E in Hupos. now apply Qlt_irrefl in Hupos. }
  assert (Hfl : (inject_Z i <= x)%Q) by apply Qfloor_le.
  assert (Hfu : (x < inject_Z (i + 1))%Q) by apply Qlt_floor.
  rewrite inject_Z_plus in Hfu. change (inject_Z 1) with 1%Q in Hfu.
  assert (Hx0 : (0 <= x)%Q).
  { unfold x. apply Qle_shift_div_l; [exact Hupos|].
    rewrite Qmult_0_l. change 0%Q with (inject_Z 0). now rewrite <- Zle_Qle. }
  assert (HxN : (x < inject_Z units)%Q).
  { unfold x. apply Qlt_shift_div_r; [exact Hupos|].
    assert (E : (inject_Z units * u == inject_Z THREE_YEARS_MS)%Q).
    { unfold u. field. intros E. rewrite E in HU. now apply Qlt_irrefl in HU. }
    rewrite E. now rewrite <- Zlt_Qlt. }
  split; [split|split].
  - change 0 with (Qfloor 0). now apply Qfloor_resp_le.
  - rewrite Zlt_Qlt. eapply Qle_lt_trans; [exact Hfl | exact HxN].
  - rewrite Hx. apply Qmult_le_compat_r; [exact Hfl | now apply Qlt_le_weak].
  - rewrite Hx. apply Qmult_lt_compat_r; [exact Hupos | exact Hfu].
Qed.

Lemma random_slot_bounds (random : Q) (slots : Z) :
  0 < slots -> (0 <= random < 1)%Q ->
  0 <= Qfloor (random * inject_Z slots) < slots.
Proof.
  intros Hs [H0 H1].
  assert (HS : (0 < inject_Z slots)%Q) by (apply inject_Z_pos; exact Hs).
  split.
  - change 0 with (Qfloor 0). apply Qfloor_resp_le.
    apply Qmult_le_0_compat; [exact H0 | now apply Qlt_le_weak].
  - rewrite Zlt_Qlt. eapply Qle_lt_trans; [apply Qfloor_le|].
    rewrite <- (Qmult_1_l (inject_Z slots)) at 2.
    apply Qmult_lt_compat_r; [exact HS | exact H1].
Qed.

(** Reading back an identifier made of a [k]-character time code and the
    remaining random (and checksum) characters. *)
Lemma extract_time_code (k r : nat) (units : Z) (tc rest : string) (i : Z) :
  (k = 4%nat /\ r = 3%nat /\ units = 36 ^ 4)
  \/ (k = 5%nat /\ r = 3%nat /\ units = 36 ^ 5)
  \/ (k = 6%nat /\ r = 3%nat /\ units = 36 ^ 6) ->
  String.length tc = k -> String.length rest = r ->
  allChars isLowerAlnum tc = true -> allChars isLowerAlnum rest = true ->
  parseInt36 tc = Some i ->
  extractTimeFromUltraCompactId (tc ++ rest) = Some (newDate (Some (codeTime units i))).
Proof.
  intros Hlay Hk Hr Htc Hrest Hparse.
  pose proof (substring_prefix tc rest) as Hsub. rewrite Hk in Hsub.
  unfold extractTimeFromUltraCompactId, isUltraCompactId.
  rewrite allChars_app, Htc, Hrest, length_app_string, Hk, Hr.
  destruct Hlay as [(-> & -> & ->)|[(-> & -> & ->)|(-> & -> & ->)]];
    cbn [Nat.add Nat.leb Nat.eqb andb negb]; rewrite Hsub, Hparse; reflexivity.
Qed.

Lemma newDate_floor (q : Q) :
  (0 <= q)%Q -> (q <= inject_Z 8640000000000000)%Q ->
  newDate (Some q) = ValidDate (Qfloor q).
Proof.
  intros H0 H1. unfold newDate.
  assert (C1 : Qle_bool q (inject_Z 8640000000000000) = true) by now apply Qle_bool_iff.
  assert (C2 : Qle_bool (inject_Z (- 8640000000000000)) q = true).
  { apply Qle_bool_iff. eapply Qle_trans; [|exact H0]. discriminate. }
  rewrite C1, C2. cbn [andb]. unfold Qtruncate. apply Qle_bool_iff in H0. now rewrite H0.
Qed.

(** The date the extractor builds from time code [i]: the three rounded
    operations land between the exact product rounded down and rounded up
    to whole milliseconds. *)
Lemma codeTime_date (units i : Z) :
  units = 36 ^ 3 \/ units = 36 ^ 4 \/ units = 36 ^ 5 \/ units = 36 ^ 6 ->
  0 <= i < units ->
  let exact := (inject_Z i * (inject_Z THREE_YEARS_MS / inject_Z units))%Q in
  exists t,
    newDate (Some (codeTime units i)) = ValidDate t
    /\ t = Qfloor (codeTime units i)
    /\ BASE_TIME + Qfloor exact <= t <= BASE_TIME + Qceiling exact.
Proof.
  intros Hu Hi exact.
  destruct (codeTime_bounds units i Hu Hi) as [Lo Hi']. fold exact in Lo, Hi'.
  assert (Hupos : 0 < units) by lia.
  assert (HU : (0 < inject_Z units)%Q) by (apply inject_Z_pos; exact Hupos).
  assert (He0 : (0 <= exact)%Q).
  { unfold exact. apply Qmult_le_0_compat.
    - change 0%Q with (inject_Z 0). rewrite <- Zle_Qle. lia.
    - apply Qle_shift_div_l; [exact HU|]. rewrite Qmult_0_l. discriminate. }
  assert (He1 : (exact <= inject_Z THREE_YEARS_MS)%Q).
  { unfold exact.
    assert (E : (inject_Z i * (inject_Z THREE_YEARS_MS / inject_Z units)
                 == inject_Z THREE_YEARS_MS * (inject_Z i / inject_Z units))%Q).
    { field. intros E. rewrite E in HU. now apply Qlt_irrefl in HU. }
    rewrite E. rewrite <- (Qmult_1_r (inject_Z THREE_YEARS_MS)) at 2.
    apply Qmult_le_compat_l_nonneg; [discriminate|].
    apply Qle_shift_div_r; [exact HU|]. rewrite Qmult_1_l. rewrite <- Zle_Qle. lia. }
  assert (Hf0 : 0 <= Qfloor exact).
  { change 0 with (Qfloor 0). now apply Qfloor_resp_le. }
  assert (Hc1 : Qceiling exact <= THREE_YEARS_MS).
  { rewrite <- (Qceiling_Z THREE_YEARS_MS). now apply Qceiling_resp_le. }
  exists (Qfloor (codeTime units i)). split; [|split; [reflexivity|split]].
  - apply newDate_floor.
    + eapply Qle_trans; [|exact Lo]. change 0%Q with (inject_Z 0).
      rewrite <- Zle_Qle. unfold BASE_TIME. lia.
    + eapply Qle_trans; [exact Hi'|]. rewrite <- Zle_Qle.
      unfold BASE_TIME, THREE_YEARS_MS in *. lia.
  - rewrite <- (Qfloor_Z (BASE_TIME + Qfloor exact)). now apply Qfloor_resp_le.
  - rewrite <- (Qfloor_Z (BASE_TIME + Qceiling exact)). now apply Qfloor_resp_le.
Qed.

(** The date rebuilt from bucket [i] lies at or before the generation
    instant, and the instant is less than one bucket and one millisecond
    after it. *)
Lemma extracted_date_bounds (units rel i : Z) :
  units = 36 ^ 3 \/ units = 36 ^ 4 \/ units = 36 ^ 5 \/ units = 36 ^ 6 ->
  0 <= rel < THREE_YEARS_MS ->
  let u := (inject_Z THREE_YEARS_MS / inject_Z units)%Q in
  0 <= i < units ->
  (inject_Z i * u <= inject_Z rel)%Q ->
  (inject_Z rel < (inject_Z i + 1) * u)%Q ->
  exists t',
    newDate (Some (codeTime units i)) = ValidDate t'
    /\ t' <= BASE_TIME + rel
    /\ (inject_Z (BASE_TIME + rel) < inject_Z t' + u + 1)%Q.
Proof.
  intros Hu [Hr0 Hr1] u Hi Hlo Hhi.
  destruct (codeTime_date units i Hu Hi) as (t' & Hd & _ & Hfl & Hce).
  fold u in Hfl, Hce.
  exists t'. split; [exact Hd|split].
  - assert (Qceiling (inject_Z i * u) <= rel).
    { rewrite <- (Qceiling_Z rel). now apply Qceiling_resp_le. }
    lia.
  - pose proof (Qlt_floor (inject_Z i * u)) as Hf.
    rewrite inject_Z_plus in Hf. change (inject_Z 1) with 1%Q in Hf.
    assert (Ht : (inject_Z BASE_TIME + inject_Z (Qfloor (inject_Z i * u)) <= inject_Z t')%Q).
    { rewrite <- inject_Z_plus, <- Zle_Qle. exact Hfl. }
    rewrite inject_Z_plus.
    assert (E : ((inject_Z i + 1) * u == inject_Z i * u + u)%Q) by ring.
    rewrite E in Hhi.
    set (p := (inject_Z i * u)%Q) in *. clearbody p.
    set (f := inject_Z (Qfloor p)) in *. clearbody f. lra.
Qed.

Lemma random_code (k : nat) (q random : Q) :
  (1 <= k)%nat -> (q == random * inject_Z (36 ^ Z.of_nat k))%Q -> (0 <= random < 1)%Q ->
  String.length (padStart k "0" (toString36 (Qfloor q))) = k
  /\ allChars isLowerAlnum (padStart k "0" (toString36 (Qfloor q))) = true.
Proof.
  intros Hk Hq Hr. rewrite Hq.
  assert (Hpos : 0 < 36 ^ Z.of_nat k) by (apply Z.pow_pos_nonneg; lia).
  pose proof (random_slot_bounds random _ Hpos Hr) as Hb.
  destruct (padded36_roundtrip k _ Hk Hb) as (Hl & Ha & _). now split.
Qed.

(** The common part of the three recognised layouts: a [k]-character time
    code followed by three more characters. *)
Lemma generated_id_reads_back (k : nat) (rest : string) (rel : Z) :
  k = 4%nat \/ k = 5%nat \/ k = 6%nat ->
  String.length rest = 3%nat -> allChars isLowerAlnum rest = true ->
  0 <= rel < THREE_YEARS_MS ->
  let i := Qfloor (inject_Z rel / (inject_Z THREE_YEARS_MS / inject_Z (36 ^ Z.of_nat k))) in
  let id := padStart k "0" (toString36 i) ++ rest in
  exists t',
    String.length id = (k + 3)%nat
    /\ extractTimeFromUltraCompactId id = Some (ValidDate t')
    /\ t' <= BASE_TIME + rel
    /\ (inject_Z (BASE_TIME + rel) < inject_Z t' + bucketDuration (Z.of_nat k) + 1)%Q.
Proof.
  intros Hk Hlen Hall Hrel i id.
  assert (Hk1 : (1 <= k)%nat) by lia.
  assert (Hpos : 0 < 36 ^ Z.of_nat k) by (apply Z.pow_pos_nonneg; lia).
  destruct (bucket_index_bounds _ rel Hpos Hrel) as (Hi & Hlo & Hhi). fold i in Hi, Hlo, Hhi.
  destruct (padded36_roundtrip k i Hk1 Hi) as (Hl & Ha & Hp).
  assert (Hunits : 36 ^ Z.of_nat k = 36 ^ 3 \/ 36 ^ Z.of_nat k = 36 ^ 4
                   \/ 36 ^ Z.of_nat k = 36 ^ 5 \/ 36 ^ Z.of_nat k = 36 ^ 6).
  { destruct Hk as [ -> | [ -> | -> ] ]; auto. }
  destruct (extracted_date_bounds _ rel i Hunits Hrel Hi Hlo Hhi) as (t' & Hd & Hle & Hlt).
  exists t'. split; [|split; [|split]].
  - unfold id. rewrite length_app_string, Hl, Hlen. reflexivity.
  - unfold id.
    rewrite (extract_time_code k 3 (36 ^ Z.of_nat k) _ rest i); auto.
    + now rewrite Hd.
    + destruct Hk as [ -> | [ -> | -> ] ]; auto.
  - exact Hle.
  - exact Hlt.
Qed.

Lemma horizon_guard (now : Z) :
  0 <= now - BASE_TIME < THREE_YEARS_MS ->
  (now - BASE_TIME <? 0) || (now - BASE_TIME >? THREE_YEARS_MS) = false.
Proof.
  intros [H0 H1]. apply orb_false_iff. split; [apply Z.ltb_ge | rewrite Z.gtb_ltb; apply Z.ltb_ge]; lia.
Qed.

Lemma id7_reads_back (now : Z) (random : Q) :
  0 <= now - BASE_TIME < THREE_YEARS_MS -> (0 <= random < 1)%Q ->
  reads_back_within generateUltraCompactId7 7 4 1 now random.
Proof.
  intros Hnow Hr. unfold reads_back_within, generateUltraCompactId7. cbv zeta.
  rewrite (horizon_guard now Hnow).
  rewrite (timeUnit_in_doubles (36 * 36 * 36 * 36) (now - BASE_TIME)
             ltac:(right; left; reflexivity) ltac:(lia)).
  assert (Eq : (random * 36 * 36 * 36 == random * inject_Z (36 ^ Z.of_nat 3))%Q).
  { change (inject_Z (36 ^ Z.of_nat 3)) with (46656 # 1). ring. }
  destruct (random_code 3 _ random ltac:(lia) Eq Hr) as (Hl & Ha).
  destruct (generated_id_reads_back 4 _ (now - BASE_TIME) ltac:(auto) Hl Ha Hnow)
    as (t' & H1 & H2 & H3 & H4).
  replace (BASE_TIME + (now - BASE_TIME)) with now in * by lia.
  eexists. exists t'. split; [reflexivity|]. auto.
Qed.

Lemma id9_reads_back (now : Z) (random : Q) :
  0 <= now - BASE_TIME < THREE_YEARS_MS -> (0 <= random < 1)%Q ->
  reads_back_within generateUltraCompactId9 9 6 1 now random.
Proof.
  intros Hnow Hr. unfold reads_back_within, generateUltraCompactId9. cbv zeta.
  rewrite (horizon_guard now Hnow).
  rewrite (timeUnit_in_doubles (36 * 36 * 36 * 36 * 36 * 36) (now - BASE_TIME)
             ltac:(right; right; right; reflexivity) ltac:(lia)).
  assert (Eq : (random * 36 * 36 * 36 == random * inject_Z (36 ^ Z.of_nat 3))%Q).
  { change (inject_Z (36 ^ Z.of_nat 3)) with (46656 # 1). ring. }
  destruct (random_code 3 _ random ltac:(lia) Eq Hr) as (Hl & Ha).
  destruct (generated_id_reads_back 6 _ (now - BASE_TIME) ltac:(auto) Hl Ha Hnow)
    as (t' & H1 & H2 & H3 & H4).
  replace (BASE_TIME + (now - BASE_TIME)) with now in * by lia.
  eexists. exists t'. split; [reflexivity|]. auto.
Qed.

Lemma id8_reads_back (now : Z) (random : Q) :
  0 <= now - BASE_TIME < THREE_YEARS_MS -> (0 <= random < 1)%Q ->
  reads_back_within generateUltraCompactId8 8 5 1 now random.
Proof.
  intros Hnow Hr. unfold reads_back_within, generateUltraCompactId8. cbv zeta.
  rewrite (horizon_guard now Hnow).
  rewrite (timeUnit_in_doubles (36 * 36 * 36 * 36 * 36) (now - BASE_TIME)
             ltac:(right; right; left; reflexivity) ltac:(lia)).
  assert (Eq : (random * 36 * 36 == random * inject_Z (36 ^ Z.of_nat 2))%Q).
  { change (inject_Z (36 ^ Z.of_nat 2)) with (1296 # 1). ring. }
  destruct (random_code 2 _ random ltac:(lia) Eq Hr) as (Hl & Ha).
  set (rnd := padStart 2 "0" (toString36 (Qfloor (random * 36 * 36)))) in *.
  set (i := Qfloor _).
  set (c := (i + charCodeAt rnd 0 + charCodeAt rnd 1) mod 36).
  assert (Hc : 0 <= c < 36) by (apply Z.mod_pos_bound; lia).
  destruct (toString36_spec c (proj1 Hc)) as (Hca & _ & Hc1 & Hc2).
  specialize (Hc2 1%nat ltac:(lia) (proj2 Hc)).
  assert (Hlen : String.length (rnd ++ toString36 c) = 3%nat).
  { rewrite length_app_string, Hl. lia. }
  assert (Hall : allChars isLowerAlnum (rnd ++ toString36 c) = true).
  { now rewrite allChars_app, Ha, Hca. }
  destruct (generated_id_reads_back 5 _ (now - BASE_TIME) ltac:(auto) Hlen Hall Hnow)
    as (t' & H1 & H2 & H3 & H4).
  replace (BASE_TIME + (now - BASE_TIME)) with now in * by lia.
  eexists. exists t'. split; [reflexivity|]. auto.
Qed.

(** ** The retry loop *)

Section RetryLoop.

Variable attempt : World -> CheckResult * World.
Variables retryInterval retries : Z.
Variable result : CheckResult.

Lemma afterRetries_shift (k : nat) (w : World) :
  afterRetries attempt retryInterval (S k) w
  = afterRetries attempt retryInterval k (snd (attempt (sleep (retryInterval * 1000) w))).
Proof. induction k as [|k IH]; [reflexivity|]. simpl in *. now rewrite <- IH. Qed.

Lemma nthRetry_shift (k : nat) (w : World) :
  nthRetry attempt retryInterval (S k) w
  = nthRetry attempt retryInterval k (snd (attempt (sleep (retryInterval * 1000) w))).
Proof. unfold nthRetry. now rewrite afterRetries_shift. Qed.

(** No retry returns UP: the loop runs all its iterations and the first
    result comes back with the failure prefix. *)
Lemma retryLoop_exhausted (n : nat) :
  forall (i : Z) (w : World),
    (forall j, (j < n)%nat -> status (fst (nthRetry attempt retryInterval j w)) <> 1) ->
    retryLoop attempt retryInterval retries result n i w
    = (withMessage result
         ("重试" ++ numToString retries ++ "次后仍然失败: " ++ message result),
       afterRetries attempt retryInterval n w).
Proof.
  induction n as [|n IH]; intros i w Hall; [reflexivity|].
  cbn [retryLoop].
  pose proof (Hall O ltac:(lia)) as H0. unfold nthRetry in H0. cbn [afterRetries] in H0.
  destruct (attempt (sleep (retryInterval * 1000) w)) as [r w2] eqn:E.
  cbn [fst] in H0. apply Z.eqb_neq in H0. rewrite H0.
  rewrite IH.
  - rewrite afterRetries_shift, E. reflexivity.
  - intros j Hj. specialize (Hall (S j) ltac:(lia)).
    now rewrite nthRetry_shift, E in Hall.
Qed.

(** Retry [k + 1] is the first to return UP: the loop stops there. *)
Lemma retryLoop_first_up (n : nat) :
  forall (i : Z) (w : World) (k : nat),
    (k < n)%nat ->
    (forall j, (j < k)%nat -> status (fst (nthRetry attempt retryInterval j w)) <> 1) ->
    status (fst (nthRetry attempt retryInterval k w)) = 1 ->
    retryLoop attempt retryInterval retries result n i w
    = (withMessage (fst (nthRetry attempt retryInterval k w))
         ("重试成功 (" ++ numToString (i + Z.of_nat k + 1) ++ "/" ++ numToString retries
          ++ "): " ++ message (fst (nthRetry attempt retryInterval k w))),
       snd (nthRetry attempt retryInterval k w)).
Proof.
  induction n as [|n IH]; intros i w k Hk Hbefore Hup; [lia|].
  cbn [retryLoop].
  destruct k as [|k].
  - unfold nthRetry in *. cbn [afterRetries] in *.
    destruct (attempt (sleep (retryInterval * 1000) w)) as [r w2] eqn:E.
    cbn [fst snd] in *. rewrite Hup. cbn [Z.eqb Pos.eqb].
    replace (i + Z.of_nat 0 + 1) with (i + 1) by lia. reflexivity.
  - pose proof (Hbefore O ltac:(lia)) as H0. unfold nthRetry in H0. cbn [afterRetries] in H0.
    rewrite nthRetry_shift in *.
    destruct (attempt (sleep (retryInterval * 1000) w)) as [r w2] eqn:E.
    cbn [fst snd] in *. apply Z.eqb_neq in H0. rewrite H0.
    rewrite (IH (i + 1) w2 k); [|lia| |exact Hup].
    + replace (i + 1 + Z.of_nat k + 1) with (i + Z.of_nat (S k) + 1) by lia. reflexivity.
    + intros j Hj. specialize (Hbefore (S j) ltac:(lia)).
      now rewrite nthRetry_shift, E in Hbefore.
Qed.

End RetryLoop.

Lemma retryLoop_ext (a1 a2 : World -> CheckResult * World) (ri n0 : Z) (r : CheckResult)
    (n : nat) :
  (forall w, a1 w = a2 w) ->
  forall i w, retryLoop a1 ri n0 r n i w = retryLoop a2 ri n0 r n i w.
Proof.
  intros Hext. induction n as [|n IH]; intros i w; [reflexivity|].
  cbn [retryLoop]. rewrite Hext.
  destruct (a2 (sleep (ri * 1000) w)) as [r' w2].
  destruct (status r' =? 1); [reflexivity | apply IH].
Qed.

(** ** executeMonitorCheck *)

Section ExecuteMonitorCheckFacts.

Variable h : Host.
Variable cs : Checkers.

Lemma parseConfig_withRetries0 (monitor : Monitor) :
  parseConfig h (withRetries0 monitor) = parseConfig h monitor.
Proof. reflexivity. Qed.

Lemma selectChecker_withRetries0 (monitor : Monitor) (config : MonitorConfig) :
  selectChecker cs (withRetries0 monitor) config = selectChecker cs monitor config.
Proof. reflexivity. Qed.

(** With [retries <= 0] the body never reaches the recursive call. *)
Lemma body_without_retries (self1 self2 : Monitor -> World -> CheckResult * World)
    (monitor : Monitor) (w : World) :
  m_retries monitor <= 0 ->
  executeMonitorCheck_body h cs self1 monitor w
  = executeMonitorCheck_body h cs self2 monitor w.
Proof.
  intros Hr. unfold executeMonitorCheck_body.
  destruct (parseConfig h monitor) as [config|msg]; [|reflexivity].
  destruct (selectChecker cs monitor config) as [run|]; [|reflexivity].
  destruct (run w) as [[result|msg] w1]; [|reflexivity].
  assert (E : (m_retries monitor >? 0) = false) by (rewrite Z.gtb_ltb; apply Z.ltb_ge; lia).
  now rewrite E, andb_false_r.
Qed.

(** The recursion equation of the source function. *)
Lemma executeMonitorCheck_unfold (monitor : Monitor) (w : World) :
  executeMonitorCheck h cs monitor w
  = executeMonitorCheck_body h cs (executeMonitorCheck h cs) monitor w.
Proof.
  unfold executeMonitorCheck. cbn [executeMonitorCheck_depth].
  unfold executeMonitorCheck_body at 1 3.
  destruct (parseConfig h monitor) as [config|msg]; [|reflexivity].
  destruct (selectChecker cs monitor config) as [run|]; [|reflexivity].
  destruct (run w) as [[result|msg] w1]; [|reflexivity].
  destruct ((status result =? 0) && (m_retries monitor >? 0)); [|reflexivity].
  apply retryLoop_ext. intros w'.
  apply body_without_retries. simpl. lia.
Qed.

(** Any deeper unrolling computes the same function. *)
Lemma executeMonitorCheck_depth_stable (d : nat) (monitor : Monitor) (w : World) :
  executeMonitorCheck_depth h cs (S (S d)) monitor w = executeMonitorCheck h cs monitor w.
Proof.
  revert monitor w. induction d as [|d IH]; intros monitor w; [reflexivity|].
  change (executeMonitorCheck_depth h cs (S (S (S d))) monitor w)
    with (executeMonitorCheck_body h cs (executeMonitorCheck_depth h cs (S (S d))) monitor w).
  rewrite executeMonitorCheck_unfold.
  unfold executeMonitorCheck_body.
  destruct (parseConfig h monitor) as [config|msg]; [|reflexivity].
  destruct (selectChecker cs monitor config) as [run|]; [|reflexivity].
  destruct (run w) as [[result|msg] w1]; [|reflexivity].
  destruct ((status result =? 0) && (m_retries monitor >? 0)); [|reflexivity].
  apply retryLoop_ext. intros w'. apply IH.
Qed.

(** An invocation with [retries <= 0] is one run of the checker. *)
Lemma executeMonitorCheck_once (monitor : Monitor) (config : MonitorConfig)
    (run : World -> Exc CheckResult * World) (w : World) :
  parseConfig h monitor = Ok config ->
  selectChecker cs monitor config = Some run ->
  m_retries monitor <= 0 ->
  executeMonitorCheck h cs monitor w = runOnce run w.
Proof.
  intros Hp Hs Hr. rewrite executeMonitorCheck_unfold.
  unfold executeMonitorCheck_body, runOnce. rewrite Hp, Hs.
  destruct (run w) as [[result|msg] w1]; [|reflexivity].
  assert (E : (m_retries monitor >? 0) = false) by (rewrite Z.gtb_ltb; apply Z.ltb_ge; lia).
  now rewrite E, andb_false_r.
Qed.

End ExecuteMonitorCheckFacts.

(** C2. Retry wrapper. For a monitor whose configuration parses and whose
    type selects the checker [run]: every inner invocation (made with
    [retries: 0]) is a single run of the checker; with [retries = 0] the
    whole call is a single run; and when the first run returns DOWN and
    [retries = N > 0], each retry is preceded by a sleep of
    [retryInterval * 1000] ms, the first retry [k + 1] that returns UP ends
    the call with UP and the message "重试成功 (k+1/N): ..." of that
    retry, and if all [N] retries return DOWN the first DOWN result is
    returned with the message "重试N次后仍然失败: ...". *)
Theorem retry_wrapper_outcomes (h : Host) (cs : Checkers) (monitor : Monitor)
    (config : MonitorConfig) (run : World -> Exc CheckResult * World) (w : World) :
  parseConfig h monitor = Ok config ->
  selectChecker cs monitor config = Some run ->
  let N := m_retries monitor in
  let ri := m_retryInterval monitor in
  let attempt := executeMonitorCheck h cs (withRetries0 monitor) in
  (forall w', attempt w' = runOnce run w')
  /\ (N = 0 -> executeMonitorCheck h cs monitor w = runOnce run w)
  /\ (forall r0 w0,
        run w = (Ok r0, w0) -> status r0 = DOWN -> 0 < N ->
        (forall k, nthRetry attempt ri k w0
                   = attempt (sleep (ri * 1000) (afterRetries attempt ri k w0)))
        /\ (forall k,
              (k < Z.to_nat N)%nat ->
              (forall j, (j < k)%nat -> status (fst (nthRetry attempt ri j w0)) = DOWN) ->
              status (fst (nthRetry attempt ri k w0)) = UP ->
              executeMonitorCheck h cs monitor w
              = (withMessage (fst (nthRetry attempt ri k w0))
                   ("重试成功 (" ++ numToString (Z.of_nat k + 1) ++ "/" ++ numToString N
                    ++ "): " ++ message (fst (nthRetry attempt ri k w0))),
                 snd (nthRetry attempt ri k w0)))
        /\ ((forall j, (j < Z.to_nat N)%nat ->
                       status (fst (nthRetry attempt ri j w0)) = DOWN) ->
            executeMonitorCheck h cs monitor w
            = (withMessage r0 ("重试" ++ numToString N ++ "次后仍然失败: " ++ message r0),
               afterRetries attempt ri (Z.to_nat N) w0))).
Proof.
  intros Hp Hs N ri attempt.
  assert (Hinner : forall w', attempt w' = runOnce run w').
  { intros w'. unfold attempt. apply (executeMonitorCheck_once h cs _ config).
    - exact Hp.
    - exact Hs.
    - simpl. lia. }
  split; [exact Hinner|]. split.
  - intros HN. apply (executeMonitorCheck_once h cs _ config); auto. fold N. lia.
  - intros r0 w0 Hrun Hdown HN.
    assert (Hloop : executeMonitorCheck h cs monitor w
                    = retryLoop attempt ri N r0 (Z.to_nat N) 0 w0).
    { rewrite executeMonitorCheck_unfold. unfold executeMonitorCheck_body.
      rewrite Hp, Hs, Hrun, Hdown.
      assert (E : (m_retries monitor >? 0) = true) by (apply Z.gtb_lt; exact HN).
      rewrite E. reflexivity. }
    split; [reflexivity|]. split.
    + intros k Hk Hbefore Hup. rewrite Hloop.
      rewrite (retryLoop_first_up attempt ri N r0 (Z.to_nat N) 0 w0 k Hk).
      * reflexivity.
      * intros j Hj. rewrite (Hbefore j Hj). discriminate.
      * exact Hup.
    + intros Hall. rewrite Hloop. apply retryLoop_exhausted.
      intros j Hj. rewrite (Hall j Hj). discriminate.
Qed.

(** The second scenario of the specification: an HTTP monitor with two
    retries whose endpoint fails once and then succeeds. *)
Lemma retry_wrapper_outcomes_witness :
  executeMonitorCheck sampleHost (checkers sampleHost (flakyNet 1)) (httpMonitor 2) world0
  = (mkResult UP "重试成功 (1/2): HTTP 200" (Some 35%Q),
     mkWorld 2 [EvExternalCheck "http"; EvSleep 1000; EvExternalCheck "http"]).
Proof.
  destruct (retry_wrapper_outcomes sampleHost (checkers sampleHost (flakyNet 1))
              (httpMonitor 2) _ _ world0 eq_refl eq_refl) as (_ & _ & H).
  destruct (H _ _ eq_refl eq_refl eq_refl) as (_ & Hup & _).
  rewrite (Hup 0%nat); [reflexivity | simpl; lia | intros j Hj; lia | reflexivity].
Defined.

(** ** Port validation of the database executors *)


Section DatabasePort.

Variable h : Host.
Variable net : Net.



End DatabasePort.





(** The port executor has no such validation: whatever the port is, it
    goes straight to the socket. *)
Lemma checkPortSingle_always_connects (h : Host) (net : Net) (config : MonitorPortConfig)
    (w : World) :
  w_trace (snd (checkPortSingle h net config w))
  = (w_trace w ++ [EvSocketConnect (orEmpty (port_hostname config))
                     (portNumberOf h (port_port config))])%list.
Proof. unfold checkPortSingle. destruct (net_socket net (w_ios w)); reflexivity. Qed.

(** ** ICMP *)




(** ** The notification engine *)

Section EngineFacts.

Variable h : Host.
Variable env : EngineEnv.
Variable db : Database.

(** The loop over the bindings never throws, leaves the cache and the
    decided notifications alone, and calls [sendNotification] once for
    every enabled channel, in order, whatever the earlier calls did. *)
Lemma dispatchLoop_spec (what : string) (data : NotificationData)
    (bindings : list NotificationBinding) :
  forall st,
    exists st',
      dispatchLoop env what bindings data st = (Ok tt, st')
      /\ notificationCache st' = notificationCache st
      /\ st_notified st' = st_notified st
      /\ st_sent st'
         = (st_sent st
            ++ map (fun c => mkDispatch c data (send_fault env c)) (enabledChannels bindings))%list.
Proof.
  induction bindings as [|b rest IH]; intros st.
  - exists st. simpl. rewrite app_nil_r. auto.
  - cbn [dispatchLoop]. unfold bind at 1. unfold enabledChannels. cbn [map filter].
    destruct (ch_enabled (bind_channel b)) eqn:Hen; cbn [negb].
    + unfold tryCatch, sendNotification.
      set (st1 := mkEngine _ _ (st_sent st ++ [_])%list _).
      destruct (send_fault env (bind_channel b)) as [msg|] eqn:Hf.
      * unfold consoleError. cbn [notificationCache st_notified st_sent st_log].
        match goal with |- context [dispatchLoop _ _ _ _ ?s] => destruct (IH s) as (st' & E & Hc & Hn & Hs) end.
        exists st'. rewrite E. repeat split; auto.
        rewrite Hs. unfold st1. cbn [st_sent]. rewrite <- app_assoc. cbn [app map].
        rewrite Hf. reflexivity.
      * destruct (IH st1) as (st' & E & Hc & Hn & Hs).
        exists st'. rewrite E. repeat split; auto.
        rewrite Hs. unfold st1. cbn [st_sent]. rewrite <- app_assoc. cbn [app map].
        rewrite Hf. reflexivity.
    + unfold ret. destruct (IH st) as (st' & E & Hc & Hn & Hs).
      exists st'. rewrite E. auto.
Qed.

Lemma quiet_refl (st : EngineState) : quiet st st.
Proof. repeat split. Qed.

Lemma announce_spec (what : string) (bindings : list NotificationBinding)
    (data : NotificationData) (monitorId : string) (status : Z) (st : EngineState) :
  exists st',
    announce env what bindings data monitorId status st = (Ok tt, st')
    /\ announced env st st' data bindings monitorId status.
Proof.
  unfold announce, bind, notify.
  match goal with |- context [dispatchLoop _ _ _ _ ?s] =>
    destruct (dispatchLoop_spec what data bindings s) as (st1 & E & Hc & Hn & Hs) end.
  rewrite E. unfold cacheSet. eexists. split; [reflexivity|].
  unfold announced. cbn [notificationCache st_notified st_sent] in *.
  rewrite Hc, Hn, Hs. auto.
Qed.

(** The throttle either fails on its query, leaving the state alone, or
    answers; the state is never changed. *)
Lemma repeatDue_state (monitorId : string) (monitor : MonitorRow)
    (lastNotification : option (Z * Z)) (st : EngineState) :
  snd (repeatDue env db monitorId monitor lastNotification st) = st.
Proof.
  unfold repeatDue, bind, query, ret.
  destruct (mon_resendInterval monitor >? 0);
    destruct lastNotification as [[t [|p|p]]|]; try reflexivity.
  destruct (query_fault env QCountSinceNotified); reflexivity.
Qed.

Lemma repeatDue_throw (monitorId : string) (monitor : MonitorRow)
    (lastNotification : option (Z * Z)) (st st1 : EngineState) (msg : string) :
  repeatDue env db monitorId monitor lastNotification st = (Throw msg, st1) ->
  query_fault env QCountSinceNotified = Some msg.
Proof.
  unfold repeatDue, bind, query, ret.
  destruct (mon_resendInterval monitor >? 0);
    destruct lastNotification as [[t [|p|p]]|]; try discriminate.
  destruct (query_fault env QCountSinceNotified); [|discriminate].
  now intros [= -> _].
Qed.

(** The aggregation either fails on one of its queries, leaving the state
    alone, or announces the aggregated payload. *)
Lemma aggregateAndAnnounce_spec (monitorId : string) (bindings : list NotificationBinding)
    (notificationData : NotificationData) (st : EngineState) :
  let start :=
    match findFirst (withStatus monitorId 1) desc db with
    | Some r => row_timestamp r
    | None => 0
    end in
  let data :=
    aggregatedData h env notificationData (count (statusSince monitorId 0 start) db)
      (findFirst (statusSince monitorId 0 start) asc db) in
  exists r st',
    aggregateAndAnnounce h env db monitorId bindings notificationData st = (r, st')
    /\ ((st' = st /\ queryFailure env r)
        \/ (r = Ok tt
            /\ query_fault env QLastSuccess = None
            /\ query_fault env QTotalFailures = None
            /\ query_fault env QFirstFailure = None
            /\ announced env st st' data bindings monitorId 0)).
Proof.
  intros start data. unfold aggregateAndAnnounce, bind, query.
  destruct (query_fault env QLastSuccess) eqn:E1;
    [eexists _, _; split; [reflexivity|]; left; split; [reflexivity|]; simpl; eauto|].
  destruct (query_fault env QTotalFailures) eqn:E2;
    [eexists _, _; split; [reflexivity|]; left; split; [reflexivity|]; simpl; eauto|].
  destruct (query_fault env QFirstFailure) eqn:E3;
    [eexists _, _; split; [reflexivity|]; left; split; [reflexivity|]; simpl; eauto|].
  destruct (announce_spec "失败通知" bindings data monitorId 0 st) as (st' & E & Ha).
  exists (Ok tt), st'. split; [exact E|]. right. auto.
Qed.

Lemma quiet_log (st : EngineState) (line : string) :
  quiet st (mkEngine (notificationCache st) (st_notified st) (st_sent st)
              (st_log st ++ [line])%list).
Proof. repeat split. Qed.

(** What the [try] block does, in full: it leaves the state alone (but
    for the log), or it announces one payload; which payload, and that the
    gates of rules 1 to 5 were passed, is part of the statement. *)
Lemma try_spec (monitorId : string) (status : Z) (message : string)
    (prevStatus : option Z) (st : EngineState) :
  exists r st',
    sendStatusChangeNotifications_try h env db monitorId status message prevStatus st
    = (r, st')
    /\ ((quiet st st' /\ queryFailure env r /\ (forall msg, r = Throw msg -> st' = st))
        \/ (r = Ok tt
            /\ exists monitor data,
                 query_fault env QFindMonitor = None
                 /\ db_monitors db !! monitorId = Some monitor
                 /\ enabledBindings monitor <> []
                 /\ prevStatus <> Some status
                 /\ (isNewMonitor db monitorId && (status =? 1)) = false
                 /\ (status = 0 ->
                     fst (repeatDue env db monitorId monitor
                            (notificationCache st !! monitorId) st) = Ok true)
                 /\ announced env st st' data (enabledBindings monitor) monitorId status
                 /\ (status = 0 ->
                     let start :=
                       match findFirst (withStatus monitorId 1) desc db with
                       | Some r => row_timestamp r
                       | None => 0
                       end in
                     data = aggregatedData h env (baseData h env monitor status message)
                              (count (statusSince monitorId 0 start) db)
                              (findFirst (statusSince monitorId 0 start) asc db))
                 /\ (status <> 0 ->
                     data = if (status =? 1)
                               && (if realPrevStatus db monitorId prevStatus is Some 0
                                   then true else false)
                               && negb (isNewMonitor db monitorId)
                            then recoveryData env (baseData h env monitor status message)
                                   (notificationCache st !! monitorId)
                            else baseData h env monitor status message))).
Proof.
  unfold sendStatusChangeNotifications_try. unfold bind at 1. unfold query at 1.
  destruct (query_fault env QFindMonitor) as [msg|] eqn:Hq.
  { eexists _, _. split; [reflexivity|]. left.
    split; [apply quiet_refl|]. split; [simpl; eauto | reflexivity]. }
  destruct (db_monitors db !! monitorId) as [monitor|] eqn:Hm.
  2:{ eexists _, _. split; [reflexivity|]. left.
      split; [apply quiet_log|]. split; [exact I | discriminate]. }
  cbv zeta.
  destruct (length (enabledBindings monitor) =? 0)%nat eqn:Hb.
  { eexists _, _. split; [reflexivity|]. left.
    split; [apply quiet_refl|]. split; [exact I | discriminate]. }
  assert (Hbind : enabledBindings monitor <> []).
  { intros E. rewrite E in Hb. discriminate. }
  destruct ((if prevStatus is Some _ then true else false)
            && (if realPrevStatus db monitorId prevStatus is Some p then p =? status else false))
    eqn:Hgate.
  { eexists _, _. split; [reflexivity|]. left.
    split; [apply quiet_refl|]. split; [exact I | discriminate]. }
  assert (Hprev : prevStatus <> Some status).
  { intros ->. simpl in Hgate. rewrite Z.eqb_refl in Hgate. discriminate. }
  destruct (isNewMonitor db monitorId && (status =? 1)) eqn:Hnew.
  { eexists _, _. split; [reflexivity|]. left.
    split; [apply quiet_refl|]. split; [exact I | discriminate]. }
  unfold bind at 1. unfold cacheGet at 1.
  destruct (status =? 0) eqn:Hs.
  - apply Z.eqb_eq in Hs. subst status.
    unfold bind at 1.
    pose proof (repeatDue_state monitorId monitor (notificationCache st !! monitorId) st) as Hst.
    destruct (repeatDue env db monitorId monitor (notificationCache st !! monitorId) st)
      as [[proceed|msg] st1] eqn:Hdue; cbn [snd] in Hst; subst st1.
    2:{ eexists _, _. split; [reflexivity|]. left.
        split; [apply quiet_refl|]. split; [|reflexivity].
        simpl. eexists. eapply repeatDue_throw. exact Hdue. }
    destruct proceed; cbn [negb].
    2:{ eexists _, _. split; [reflexivity|]. left.
        split; [apply quiet_refl|]. split; [exact I | discriminate]. }
    destruct (aggregateAndAnnounce_spec monitorId (enabledBindings monitor)
                (baseData h env monitor 0 message) st) as (r & st' & E & [[-> Hf] | Hann]).
    + exists r, st. split; [exact E|]. left.
      split; [apply quiet_refl|]. split; [exact Hf | reflexivity].
    + destruct Hann as (-> & _ & _ & _ & Hann).
      exists (Ok tt), st'. split; [exact E|]. right. split; [reflexivity|].
      exists monitor. eexists.
      split; [reflexivity|]. split; [reflexivity|]. split; [exact Hbind|].
      split; [exact Hprev|]. split; [first [exact Hnew | reflexivity]|].
      split; [intros _; now rewrite Hdue|]. split; [exact Hann|].
      split; [intros _; reflexivity | intros Hne; now contradiction Hne].
  - apply Z.eqb_neq in Hs.
    match goal with |- context [if ?c then announce _ _ _ ?d _ _ else _] =>
      destruct c eqn:Hrec end.
    + match goal with |- context [announce _ ?w ?b ?d ?i ?s ?t] =>
        destruct (announce_spec w b d i s t) as (st' & E & Hann) end.
      exists (Ok tt), st'. split; [exact E|]. right. split; [reflexivity|].
      assert (Hs1 : status = 1).
      { apply andb_true_iff in Hrec as [Hrec _]. apply andb_true_iff in Hrec as [Hrec _].
        now apply Z.eqb_eq in Hrec. }
      subst status.
      exists monitor. eexists.
      split; [reflexivity|]. split; [reflexivity|]. split; [exact Hbind|].
      split; [exact Hprev|]. split; [first [exact Hnew | reflexivity]|].
      split; [intros [=]|]. split; [exact Hann|].
      split; [intros [=] | intros _; reflexivity].
    + match goal with |- context [announce _ ?w ?b ?d ?i ?s ?t] =>
        destruct (announce_spec w b d i s t) as (st' & E & Hann) end.
      exists (Ok tt), st'. split; [exact E|]. right. split; [reflexivity|].
      exists monitor. eexists.
      split; [reflexivity|]. split; [reflexivity|]. split; [exact Hbind|].
      split; [exact Hprev|]. split; [first [exact Hnew | reflexivity]|].
      split; [intros ->; now contradiction Hs|]. split; [exact Hann|].
      split; [intros ->; now contradiction Hs | intros _; reflexivity].
Qed.

(** The whole function: the [catch] turns any exception into a log line,
    so the call always completes. *)
Lemma engine_spec (monitorId : string) (status : Z) (message : string)
    (prevStatus : option Z) (st : EngineState) :
  exists st',
    sendStatusChangeNotifications h env db monitorId status message prevStatus st
    = (Ok tt, st')
    /\ (quiet st st'
        \/ exists monitor data,
             query_fault env QFindMonitor = None
             /\ db_monitors db !! monitorId = Some monitor
             /\ enabledBindings monitor <> []
             /\ prevStatus <> Some status
             /\ (isNewMonitor db monitorId && (status =? 1)) = false
             /\ (status = 0 ->
                 fst (repeatDue env db monitorId monitor
                        (notificationCache st !! monitorId) st) = Ok true)
             /\ announced env st st' data (enabledBindings monitor) monitorId status
             /\ (status = 0 ->
                 let start :=
                   match findFirst (withStatus monitorId 1) desc db with
                   | Some r => row_timestamp r
                   | None => 0
                   end in
                 data = aggregatedData h env (baseData h env monitor status message)
                          (count (statusSince monitorId 0 start) db)
                          (findFirst (statusSince monitorId 0 start) asc db))
             /\ (status <> 0 ->
                 data = if (status =? 1)
                           && (if realPrevStatus db monitorId prevStatus is Some 0
                               then true else false)
                           && negb (isNewMonitor db monitorId)
                        then recoveryData env (baseData h env monitor status message)
                               (notificationCache st !! monitorId)
                        else baseData h env monitor status message)).
Proof.
  unfold sendStatusChangeNotifications, tryCatch.
  destruct (try_spec monitorId status message prevStatus st) as (r & st1 & E & Hcase).
  rewrite E. destruct Hcase as [(Hq & _ & _) | (-> & Hemit)].
  - destruct r as [[]|msg].
    + exists st1. split; [reflexivity | now left].
    + unfold consoleError. eexists. split; [reflexivity|]. left.
      destruct Hq as (Hc & Hn & Hs). repeat split; assumption.
  - exists st1. split; [reflexivity | now right].
Qed.

(** *** The log of the dispatch loops *)





End EngineFacts.

(** ** Queries over the history *)

Lemma orderBy_desc_head (l : list MonitorStatus) :
  match head (orderBy desc l) with
  | None => l = []
  | Some r => In r l /\ forall x, In x l -> row_timestamp x <= row_timestamp r
  end.
Proof.
  induction l as [|a l IH]; [reflexivity|].
  unfold orderBy in *. cbn [fold_right].
  destruct (fold_right (insertBy desc) [] l) as [|y s]; cbn [head insertBy] in *.
  - subst l. split; [now left|]. intros x [<-|[]]. lia.
  - destruct IH as [Hy Hmax]. unfold desc at 1.
    destruct (row_timestamp y <? row_timestamp a) eqn:E; cbn [head].
    + apply Z.ltb_lt in E. split; [now left|].
      intros x [<-|Hx]; [lia|]. specialize (Hmax x Hx). lia.
    + apply Z.ltb_ge in E. split; [now right|].
      intros x [<-|Hx]; [lia|]. now apply Hmax.
Qed.

Lemma orderBy_asc_head (l : list MonitorStatus) :
  match head (orderBy asc l) with
  | None => l = []
  | Some r => In r l /\ forall x, In x l -> row_timestamp r <= row_timestamp x
  end.
Proof.
  induction l as [|a l IH]; [reflexivity|].
  unfold orderBy in *. cbn [fold_right].
  destruct (fold_right (insertBy asc) [] l) as [|y s]; cbn [head insertBy] in *.
  - subst l. split; [now left|]. intros x [<-|[]]. lia.
  - destruct IH as [Hy Hmin]. unfold asc at 1.
    destruct (row_timestamp a <? row_timestamp y) eqn:E; cbn [head].
    + apply Z.ltb_lt in E. split; [now left|].
      intros x [<-|Hx]; [lia|]. specialize (Hmin x Hx). lia.
    + apply Z.ltb_ge in E. split; [now right|].
      intros x [<-|Hx]; [lia|]. now apply Hmin.
Qed.

(** [findFirst] with [orderBy: desc] returns a matching row with the
    greatest timestamp, with [asc] one with the least; [None] only when no
    row matches. *)
Lemma findFirst_desc_spec (where_ : MonitorStatus -> bool) (db : Database) :
  match findFirst where_ desc db with
  | None => filter where_ (db_history db) = []
  | Some r => In r (filter where_ (db_history db))
              /\ forall x, In x (filter where_ (db_history db)) ->
                           row_timestamp x <= row_timestamp r
  end.
Proof. apply orderBy_desc_head. Qed.

Lemma findFirst_asc_spec (where_ : MonitorStatus -> bool) (db : Database) :
  match findFirst where_ asc db with
  | None => filter where_ (db_history db) = []
  | Some r => In r (filter where_ (db_history db))
              /\ forall x, In x (filter where_ (db_history db)) ->
                           row_timestamp r <= row_timestamp x
  end.
Proof. apply orderBy_asc_head. Qed.

Lemma emitted_quiet (st st' : EngineState) : quiet st st' -> emitted st st' = [].
Proof. intros (_ & Hn & _). unfold emitted. rewrite Hn. apply skipn_all. Qed.

Lemma emitted_announced (env : EngineEnv) (st st' : EngineState) (data : NotificationData)
    (bindings : list NotificationBinding) (monitorId : string) (status : Z) :
  announced env st st' data bindings monitorId status -> emitted st st' = [data].
Proof.
  intros (_ & Hn & _). unfold emitted. rewrite Hn.
  rewrite skipn_app, skipn_all, Nat.sub_diag. reflexivity.
Qed.



Lemma minutes_floor (ms : Z) : ms / 1000 / 60 = ms / 60000.
Proof. rewrite Z.div_div by lia. reflexivity. Qed.

Lemma withStatus_up_by_spec (monitorId : string) (db : Database) :
  filter (withStatus monitorId 1) (db_history db) = upRowsBySpec monitorId db.
Proof.
  unfold upRowsBySpec. apply filter_ext. intros r.
  unfold withStatus, ofMonitor, UP.
  destruct (String.eqb_spec (row_monitorId r) monitorId) as [E1|E1];
    destruct (Z.eqb_spec (row_status r) 1) as [E2|E2]; cbn [andb]; symmetry;
    first [apply bool_decide_eq_true; tauto | apply bool_decide_eq_false; tauto].
Qed.

Lemma statusSince_down_by_spec (monitorId : string) (start : Z) (db : Database) :
  filter (statusSince monitorId 0 start) (db_history db)
  = downRowsAfterBySpec monitorId start db.
Proof.
  unfold downRowsAfterBySpec. apply filter_ext. intros r.
  unfold statusSince, ofMonitor, DOWN.
  destruct (String.eqb_spec (row_monitorId r) monitorId) as [E1|E1];
    destruct (Z.eqb_spec (row_status r) 0) as [E2|E2];
    destruct (Z.ltb_spec start (row_timestamp r)) as [E3|E3]; cbn [andb]; symmetry;
    first [apply bool_decide_eq_true; tauto | apply bool_decide_eq_false; intros (? & ? & ?); lia
          | apply bool_decide_eq_false; tauto].
Qed.

(** C5. Whenever the engine sends a DOWN notification, the payload is the
    aggregated one: with [start] the greatest timestamp among the UP rows
    of the monitor (0 when it has none) and [failures] its DOWN rows with a
    timestamp strictly after [start], [failureCount] is the number of
    [failures], the first failure is a row of [failures] with the least
    timestamp, [failureDuration] is the whole number of minutes from that
    row to now, the message starts with the line "连续失败 N 次，首次失败于
    T，持续 D 分钟", and the cache holds (now, DOWN). *)
Theorem down_notification_is_aggregated (h : Host) (env : EngineEnv) (db : Database)
    (monitorId : string) (message : string) (prevStatus : option Z)
    (st st' : EngineState) (data : NotificationData) :
  sendStatusChangeNotifications h env db monitorId 0 message prevStatus st = (Ok tt, st') ->
  emitted st st' = [data] ->
  let now := env_now env in
  let ups := upRowsBySpec monitorId db in
  exists monitor start,
    db_monitors db !! monitorId = Some monitor
    /\ ((ups = [] /\ start = 0)
        \/ (exists r, In r ups /\ row_timestamp r = start)
           /\ forall x, In x ups -> row_timestamp x <= start)
    /\ let failures := downRowsAfterBySpec monitorId start db in
       nd_failureCount data = Some (Z.of_nat (length failures))
       /\ nd_lastFailureTime data = Some (formatDateTime h now)
       /\ notificationCache st' !! monitorId = Some (now, DOWN)
       /\ exists firstTime duration,
            nd_firstFailureTime data = Some firstTime
            /\ nd_failureDuration data = Some duration
            /\ nd_message data
               = "连续失败 " ++ numToString (Z.of_nat (length failures)) ++ " 次，首次失败于 "
                 ++ firstTime ++ "，持续 " ++ numToString duration ++ " 分钟" ++ nl
                 ++ nd_message (baseData h env monitor 0 message)
            /\ ((failures = [] /\ firstTime = "未知" /\ duration = 0)
                \/ exists first,
                     In first failures
                     /\ (forall x, In x failures -> row_timestamp first <= row_timestamp x)
                     /\ firstTime = formatDateTime h (row_timestamp first)
                     /\ duration = (now - row_timestamp first) / 60000).
Proof.
  intros Hrun Hemit now ups.
  destruct (engine_spec h env db monitorId 0 message prevStatus st)
    as (st2 & E & [Hq | (monitor & data' & _ & Hm & _ & _ & _ & _ & Hann & Hdown & _)]).
  { rewrite Hrun in E. injection E as <-.
    rewrite (emitted_quiet _ _ Hq) in Hemit. discriminate. }
  rewrite Hrun in E. injection E as <-.
  rewrite (emitted_announced _ _ _ _ _ _ _ Hann) in Hemit. injection Hemit as <-.
  specialize (Hdown eq_refl). cbv zeta in Hdown.
  pose proof (findFirst_desc_spec (withStatus monitorId 1) db) as Hup.
  set (start := match findFirst (withStatus monitorId 1) desc db with
                | Some r => row_timestamp r
                | None => 0
                end) in *.
  pose proof (findFirst_asc_spec (statusSince monitorId 0 start) db) as Hfirst.
  unfold ups. rewrite <- withStatus_up_by_spec.
  exists monitor, start. split; [exact Hm|]. split.
  { unfold start. destruct (findFirst (withStatus monitorId 1) desc db) as [r|].
    - right. destruct Hup as [Hin Hmax]. split; [exists r; auto | exact Hmax].
    - left. auto. }
  cbv zeta. rewrite <- statusSince_down_by_spec.
  subst data'. cbn [aggregatedData nd_failureCount nd_lastFailureTime
                      nd_firstFailureTime nd_failureDuration nd_message].
  split; [reflexivity|]. split; [reflexivity|]. split.
  { destruct Hann as (Hc & _). rewrite Hc. apply lookup_insert_eq. }
  eexists _, _. split; [reflexivity|]. split; [reflexivity|]. split; [reflexivity|].
  destruct (findFirst (statusSince monitorId 0 start) asc db) as [first|].
  - right. destruct Hfirst as [Hin Hmin]. exists first.
    split; [exact Hin|]. split; [exact Hmin|]. split; [reflexivity|]. apply minutes_floor.
  - left. auto.
Qed.

(** A relapse: the monitor failed at minute 1, recovered at minute 2 and
    has DOWN rows at minutes 2 (the instant of the UP row), 3 and 4. At
    305 s the notification counts the two rows after the recovery, names
    minute 3 as the first failure and two whole minutes as duration. *)
Lemma down_notification_is_aggregated_witness :
  let env := calmEnv 305000 in
  let db := relapsedDb 0 in
  let st' := snd (sendStatusChangeNotifications sampleHost env db "m1" 0 "HTTP 500"
                    None freshEngine) in
  exists data,
    emitted freshEngine st' = [data]
    /\ upRowsBySpec "m1" db = [mkRow "u2" "m1" 1 None None None 120000]
    /\ downRowsAfterBySpec "m1" 120000 db = [downRow 3; downRow 4]
    /\ nd_failureCount data = Some 2
    /\ nd_firstFailureTime data = Some (formatDateTime sampleHost 180000)
    /\ nd_failureDuration data = Some 2
    /\ notificationCache st' !! "m1" = Some (305000, DOWN).
Proof.
  intros env db st'.
  set (data := hd (baseData sampleHost env (sampleMonitor 0) 0 "") (emitted freshEngine st')).
  assert (Hrun : sendStatusChangeNotifications sampleHost env db "m1" 0 "HTTP 500"
                   None freshEngine = (Ok tt, st')) by (vm_compute; reflexivity).
  assert (Hemit : emitted freshEngine st' = [data]) by (vm_compute; reflexivity).
  destruct (down_notification_is_aggregated sampleHost env db "m1" "HTTP 500" None
              freshEngine st' data Hrun Hemit)
    as (monitor & start & _ & Hstart & Hcount & _ & Hcache & first & duration
        & Hfirst & Hdur & _ & Hrows).
  assert (Hups : upRowsBySpec "m1" db = [mkRow "u2" "m1" 1 None None None 120000])
    by (vm_compute; reflexivity).
  assert (Es : start = 120000).
  { rewrite Hups in Hstart. destruct Hstart as [[Hnil _] | [(r & [<- | []] & Hr) _]].
    - discriminate.
    - now rewrite <- Hr. }
  subst start.
  assert (Hdowns : downRowsAfterBySpec "m1" 120000 db = [downRow 3; downRow 4])
    by (vm_compute; reflexivity).
  rewrite Hdowns in Hcount, Hrows.
  exists data. split; [exact Hemit|]. split; [exact Hups|]. split; [exact Hdowns|].
  split; [exact Hcount|].
  destruct Hrows as [(Hnil & _) | (r & Hin & Hmin & -> & ->)]; [discriminate|].
  assert (Er : row_timestamp r = 180000).
  { destruct Hin as [<- | [<- | []]]; [reflexivity|].
    specialize (Hmin (downRow 3) (or_introl eq_refl)). vm_compute in Hmin.
    exfalso. now apply Hmin. }
  rewrite Er in Hfirst, Hdur.
  split; [exact Hfirst|]. split; [exact Hdur|]. exact Hcache.
Defined.

(** ** Repeat notifications and recovery *)

Section EngineRuns.

Variable h : Host.
Variable env : EngineEnv.
Variable db : Database.

Lemma gate_open (monitorId : string) (status : Z) (prevStatus : option Z) :
  prevStatus <> Some status ->
  (if prevStatus is Some _ then true else false)
  && (if realPrevStatus db monitorId prevStatus is Some p then p =? status else false)
  = false.
Proof.
  intros Hne. destruct prevStatus as [p|]; [|reflexivity].
  cbn [realPrevStatus andb]. apply Z.eqb_neq. congruence.
Qed.

(** A DOWN evaluation that passes the gates and the throttle, and whose
    queries succeed, announces. *)
Lemma down_call_announces (monitorId message : string) (prevStatus : option Z)
    (st : EngineState) (monitor : MonitorRow) :
  (forall q, query_fault env q = None) ->
  db_monitors db !! monitorId = Some monitor ->
  enabledBindings monitor <> [] ->
  prevStatus <> Some 0 ->
  repeatDue env db monitorId monitor (notificationCache st !! monitorId) st = (Ok true, st) ->
  exists st' data,
    sendStatusChangeNotifications h env db monitorId 0 message prevStatus st = (Ok tt, st')
    /\ announced env st st' data (enabledBindings monitor) monitorId 0.
Proof.
  intros Hq Hm Hb Hprev Hdue.
  unfold sendStatusChangeNotifications, tryCatch, sendStatusChangeNotifications_try.
  unfold bind at 1. unfold query at 1. rewrite (Hq QFindMonitor), Hm. cbv zeta.
  destruct (enabledBindings monitor) as [|b bs] eqn:Eb; [contradiction|].
  cbn [length Nat.eqb]. rewrite <- Eb.
  rewrite (gate_open monitorId 0 prevStatus Hprev).
  change (0 =? 1) with false. rewrite andb_false_r.
  unfold bind at 1. unfold cacheGet at 1. change (0 =? 0) with true. cbv iota.
  unfold bind at 1. rewrite Hdue. cbn [negb].
  unfold aggregateAndAnnounce, bind, query.
  rewrite (Hq QLastSuccess), (Hq QTotalFailures), (Hq QFirstFailure).
  match goal with |- context [announce _ ?w ?b ?d ?i ?s ?t] =>
    destruct (announce_spec env w b d i s t) as (st2 & E2 & Hann) end.
  rewrite E2. eauto.
Qed.

(** With [resendInterval <= 0] and a DOWN notification in the cache, a
    DOWN evaluation changes nothing but the log. *)
Lemma down_call_without_resend (monitorId message : string) (prevStatus : option Z)
    (st : EngineState) (t : Z) :
  (forall m, db_monitors db !! monitorId = Some m -> mon_resendInterval m <= 0) ->
  notificationCache st !! monitorId = Some (t, 0) ->
  quiet st (snd (sendStatusChangeNotifications h env db monitorId 0 message prevStatus st)).
Proof.
  intros Hres Hc.
  destruct (engine_spec h env db monitorId 0 message prevStatus st)
    as (st' & E & [Hq | (monitor & data & _ & Hm & _ & _ & _ & Hdue & _)]).
  - now rewrite E.
  - exfalso. specialize (Hdue eq_refl). specialize (Hres monitor Hm).
    unfold repeatDue in Hdue. rewrite Hc in Hdue.
    assert (E0 : (mon_resendInterval monitor >? 0) = false)
      by (rewrite Z.gtb_ltb; apply Z.ltb_ge; lia).
    rewrite E0 in Hdue. discriminate.
Qed.

End EngineRuns.

(** Over any run of DOWN evaluations of a monitor whose [resendInterval]
    stays 0, starting from a DOWN notification in the cache: nothing more
    is sent and the cache entry stays. *)
Lemma evaluateDown_silent (h : Host) (monitorId : string)
    (calls : list (EngineEnv * Database * string * option Z)) :
  forall (st : EngineState) (t : Z),
    (forall env db message prevStatus m,
        In (env, db, message, prevStatus) calls ->
        db_monitors db !! monitorId = Some m -> mon_resendInterval m <= 0) ->
    notificationCache st !! monitorId = Some (t, 0) ->
    quiet st (evaluateDown h monitorId calls st).
Proof.
  induction calls as [|[[[env db] message] prevStatus] calls IH]; intros st t Hres Hc.
  - apply quiet_refl.
  - unfold evaluateDown. cbn [fold_left].
    pose proof (down_call_without_resend h env db monitorId message prevStatus st t) as Hq.
    destruct Hq as (Hc1 & Hn1 & Hs1); [|exact Hc|].
    { intros m Hm. eapply Hres; [left; reflexivity | exact Hm]. }
    destruct (IH (snd (sendStatusChangeNotifications h env db monitorId 0 message
                         prevStatus st)) t) as (Hc2 & Hn2 & Hs2).
    + intros env' db' message' prev' m Hin. eapply Hres. right. exact Hin.
    + rewrite Hc1. exact Hc.
    + unfold evaluateDown in *. repeat split; congruence.
Qed.

(** The throttle of repeat notifications, for the calls that reach it.
    For a monitor that exists and has an enabled binding, with the last
    notification DOWN at time [t] and no failing query, a DOWN evaluation
    - sends nothing when it is called with [prevStatus = DOWN]: the
      no-change guard returns before the throttle is looked at;
    - otherwise, with [resendInterval > 0], sends a repeat exactly when the
      DOWN rows later than [t] number at least [resendInterval];
    - with [resendInterval <= 0] sends nothing and leaves the cache alone,
      and so does every further DOWN evaluation while [resendInterval]
      stays 0: one notification per failure until recovery. *)
Theorem repeat_notification_throttle (h : Host) (env : EngineEnv) (db : Database)
    (monitorId message : string) (prevStatus : option Z) (st : EngineState)
    (monitor : MonitorRow) (t : Z) :
  (forall q, query_fault env q = None) ->
  db_monitors db !! monitorId = Some monitor ->
  enabledBindings monitor <> [] ->
  notificationCache st !! monitorId = Some (t, DOWN) ->
  let st' := snd (sendStatusChangeNotifications h env db monitorId DOWN message
                    prevStatus st) in
  let repeats := Z.of_nat (length (downRowsAfterBySpec monitorId t db)) in
  (prevStatus = Some DOWN -> emitted st st' = [])
  /\ (0 < mon_resendInterval monitor -> prevStatus <> Some DOWN ->
      (emitted st st' <> [] <-> mon_resendInterval monitor <= repeats))
  /\ (mon_resendInterval monitor <= 0 ->
      emitted st st' = [] /\ notificationCache st' = notificationCache st)
  /\ (forall calls,
        (forall env' db' message' prev' m,
            In (env', db', message', prev') calls ->
            db_monitors db' !! monitorId = Some m -> mon_resendInterval m <= 0) ->
        emitted st (evaluateDown h monitorId calls st) = []
        /\ notificationCache (evaluateDown h monitorId calls st) !! monitorId
           = Some (t, DOWN)).
Proof.
  intros Hq Hm Hb Hc st' repeats. unfold DOWN in *.
  destruct (engine_spec h env db monitorId 0 message prevStatus st)
    as (st2 & E & Hcase).
  assert (Est : st' = st2) by (unfold st'; now rewrite E).
  assert (Hdue : 0 < mon_resendInterval monitor ->
                 repeatDue env db monitorId monitor (notificationCache st !! monitorId) st
                 = (Ok (negb (repeats <? mon_resendInterval monitor)), st)).
  { intros Hpos. unfold repeatDue, bind, query, ret. rewrite Hc, (Hq QCountSinceNotified).
    assert (E0 : (mon_resendInterval monitor >? 0) = true) by (apply Z.gtb_lt; lia).
    rewrite E0. unfold count. now rewrite statusSince_down_by_spec. }
  split; [|split; [|split]].
  - intros ->. destruct Hcase as [Hquiet | (m & d & _ & _ & _ & Hprev & _)].
    + rewrite Est. now apply emitted_quiet.
    + now contradiction Hprev.
  - intros Hpos Hprev. specialize (Hdue Hpos). split.
    + intros Hne. destruct Hcase as [Hquiet | (m & d & _ & Hm' & _ & _ & _ & Hrep & _)].
      * rewrite Est in Hne. now rewrite (emitted_quiet _ _ Hquiet) in Hne.
      * rewrite Hm in Hm'. injection Hm' as <-. specialize (Hrep eq_refl).
        rewrite Hdue in Hrep. cbn [fst] in Hrep. injection Hrep as Hrep.
        apply negb_true_iff, Z.ltb_ge in Hrep. exact Hrep.
    + intros Hle.
      assert (Hb' : negb (repeats <? mon_resendInterval monitor) = true)
        by (apply negb_true_iff, Z.ltb_ge; exact Hle).
      rewrite Hb' in Hdue.
      destruct (down_call_announces h env db monitorId message prevStatus st monitor
                  Hq Hm Hb Hprev Hdue) as (st3 & data & E3 & Hann).
      rewrite E in E3. injection E3 as <-.
      rewrite Est, (emitted_announced _ _ _ _ _ _ _ Hann). discriminate.
  - intros Hle.
    pose proof (down_call_without_resend h env db monitorId message prevStatus st t) as Hquiet.
    fold st' in Hquiet.
    destruct Hquiet as (Hc' & Hn' & Hs'); [|exact Hc|].
    { intros m Hm'. rewrite Hm in Hm'. now injection Hm' as <-. }
    split; [apply emitted_quiet; repeat split; assumption | exact Hc'].
  - intros calls Hall.
    destruct (evaluateDown_silent h monitorId calls st t Hall Hc) as (Hc' & Hn' & Hs').
    split; [apply emitted_quiet; repeat split; assumption | now rewrite Hc'].
Qed.

(** The first DOWN was notified at 60.5 s, two more DOWN rows have since
    been written, [resendInterval = 2] and the engine is called without a
    previous status: the repeat goes out. *)
Lemma repeat_sent_without_previous_status :
  emitted (notifiedDownAt 60500)
    (snd (sendStatusChangeNotifications sampleHost (calmEnv 180500) (sampleDb 2 [1; 2; 3])
            "m1" DOWN "HTTP 500" None (notifiedDownAt 60500)))
  <> [].
Proof.
  apply (repeat_notification_throttle sampleHost (calmEnv 180500) (sampleDb 2 [1; 2; 3])
           "m1" "HTTP 500" None (notifiedDownAt 60500) (sampleMonitor 2) 60500);
    [reflexivity | reflexivity | discriminate | reflexivity | reflexivity | discriminate
    | vm_compute; discriminate].
Defined.

(** C1, at the input where the code departs from it. The third probe of
    a persistent failure: the first DOWN was notified at 60.5 s, two DOWN
    rows have been written since, [resendInterval] is 2, and the engine is
    called with the previous status DOWN, as it is while the failure
    lasts. The count has reached [resendInterval], and the call returns at
    the no-change guard: nothing is sent and the state is what it was. The
    throttle that would have sent the repeat is never reached. *)
Lemma repeat_suppressed_when_previous_down :
  let db := sampleDb 2 [1; 2; 3] in
  let st := notifiedDownAt 60500 in
  let run := sendStatusChangeNotifications sampleHost (calmEnv 180500) db
               "m1" DOWN "HTTP 500" (Some DOWN) st in
  notificationCache st !! "m1" = Some (60500, DOWN)
  /\ option_map mon_resendInterval (db_monitors db !! "m1") = Some 2
  /\ downRowsAfterBySpec "m1" 60500 db = [downRow 2; downRow 3]
  /\ run = (Ok tt, st)
  /\ emitted st (snd run) = [].
Proof. vm_compute. repeat split. Qed.

(** C6, as the code has it. When the engine is called with UP, the
    resolved previous status is DOWN and the monitor is not new (and the
    monitor exists with an enabled binding), it sends a recovery
    notification and stores (now, UP) in the cache. With [D] the whole
    minutes since the last DOWN notification (0 when the last notification
    was not DOWN), the message starts with "监控已恢复正常。" followed, only
    when [D > 0], by "故障持续了约 D 分钟。". *)
Theorem recovery_notification (h : Host) (env : EngineEnv) (db : Database)
    (monitorId message : string) (prevStatus : option Z) (st : EngineState)
    (monitor : MonitorRow) :
  query_fault env QFindMonitor = None ->
  db_monitors db !! monitorId = Some monitor ->
  enabledBindings monitor <> [] ->
  realPrevStatus db monitorId prevStatus = Some DOWN ->
  isNewMonitor db monitorId = false ->
  let now := env_now env in
  let D :=
    match notificationCache st !! monitorId with
    | Some (time, 0) => (now - time) / 60000
    | _ => 0
    end in
  exists st' data,
    sendStatusChangeNotifications h env db monitorId UP message prevStatus st = (Ok tt, st')
    /\ emitted st st' = [data]
    /\ nd_message data
       = "监控已恢复正常。"
         ++ (if 0 <? D then "故障持续了约 " ++ numToString D ++ " 分钟。" else "")
         ++ nl ++ nd_message (baseData h env monitor UP message)
    /\ notificationCache st' !! monitorId = Some (now, UP)
    /\ st_sent st'
       = (st_sent st
          ++ map (fun c => mkDispatch c data (send_fault env c))
               (enabledChannels (enabledBindings monitor)))%list.
Proof.
  intros Hq Hm Hb Hreal Hnew now D. unfold UP, DOWN in *.
  assert (Hprev : prevStatus <> Some 1).
  { intros ->. cbn [realPrevStatus] in Hreal. discriminate. }
  unfold sendStatusChangeNotifications, tryCatch, sendStatusChangeNotifications_try.
  unfold bind at 1. unfold query at 1. rewrite Hq, Hm. cbv zeta.
  destruct (enabledBindings monitor) as [|b bs] eqn:Eb; [contradiction|].
  cbn [length Nat.eqb]. rewrite <- Eb.
  rewrite (gate_open db monitorId 1 prevStatus Hprev), Hnew, Hreal.
  cbn [andb negb]. unfold bind at 1. unfold cacheGet at 1.
  change (1 =? 0) with false. change (1 =? 1) with true. cbn [andb]. cbv iota.
  match goal with |- context [announce _ ?w ?b ?d ?i ?s ?t] =>
    destruct (announce_spec env w b d i s t) as (st' & E & Hann) end.
  rewrite E. eexists st', _. split; [reflexivity|].
  split; [exact (emitted_announced _ _ _ _ _ _ _ Hann)|].
  destruct Hann as (Hc & _ & Hs).
  split; [|split; [rewrite Hc; apply lookup_insert_eq | exact Hs]].
  unfold recoveryData, withDataMessage. cbn [nd_message]. fold now.
  assert (ED : match notificationCache st !! monitorId with
               | Some (time, 0) => (now - time) / 1000 / 60
               | _ => 0
               end = D).
  { unfold D. destruct (notificationCache st !! monitorId) as [[time [|p|p]]|];
      try reflexivity. apply minutes_floor. }
  rewrite ED, Z.gtb_ltb. reflexivity.
Qed.

(** Recovery two minutes after the DOWN notification. *)
Lemma recovery_notification_witness :
  let db := mkDatabase (db_monitors (sampleDb 0 []))
              (db_history (sampleDb 0 [1]) ++ [mkRow "u2" "m1" 1 None None None 185000])%list in
  exists st' data,
    sendStatusChangeNotifications sampleHost (calmEnv 185000) db "m1" UP "HTTP 200"
      (Some DOWN) (notifiedDownAt 60500) = (Ok tt, st')
    /\ emitted (notifiedDownAt 60500) st' = [data]
    /\ nd_message data
       = "监控已恢复正常。故障持续了约 2 分钟。" ++ nl ++ "监控地址: http://api" ++ nl
         ++ "HTTP 200".
Proof.
  intros db.
  destruct (recovery_notification sampleHost (calmEnv 185000) db "m1" "HTTP 200"
              (Some DOWN) (notifiedDownAt 60500) (sampleMonitor 0))
    as (st' & data & E & Hemit & Hmsg & _);
    [reflexivity | reflexivity | discriminate | reflexivity | reflexivity |].
  exists st', data. split; [exact E|]. split; [exact Hemit|].
  rewrite Hmsg. reflexivity.
Defined.

(** C6, as the specification states it, fails: a recovery half a minute after the
    DOWN notification does not say "持续了约 0 分钟"; the sentence about the
    duration is left out. *)
Lemma short_outage_recovery_message :
  let db := mkDatabase (db_monitors (sampleDb 0 []))
              (db_history (sampleDb 0 [1]) ++ [mkRow "u2" "m1" 1 None None None 90000])%list in
  let st' := snd (sendStatusChangeNotifications sampleHost (calmEnv 90000) db "m1" UP
                    "HTTP 200" (Some DOWN) (notifiedDownAt 60500)) in
  exists data,
    emitted (notifiedDownAt 60500) st' = [data]
    /\ (90000 - 60500) / 60000 = 0
    /\ String.prefix "监控已恢复正常。故障持续了约 0 分钟。" (nd_message data) = false
    /\ nd_message data = "监控已恢复正常。" ++ nl ++ "监控地址: http://api" ++ nl ++ "HTTP 200".
Proof. eexists. vm_compute. repeat split. Qed.

(** ** The status recorder *)

Lemma mostRecentRow_appended (monitorId : string) (monitors : gmap string MonitorRow)
    (history : list MonitorStatus) (row : MonitorStatus) :
  row_monitorId row = monitorId ->
  (forall x, In x history -> row_monitorId x = monitorId ->
             row_timestamp x < row_timestamp row) ->
  mostRecentRow monitorId (mkDatabase monitors (history ++ [row])%list) = Some row.
Proof.
  intros Hid Hlate. unfold mostRecentRow.
  pose proof (findFirst_desc_spec (ofMonitor monitorId)
                (mkDatabase monitors (history ++ [row])%list)) as Hspec.
  cbn [db_history] in Hspec.
  assert (Hrow : In row (filter (ofMonitor monitorId) (history ++ [row])%list)).
  { apply filter_In. split; [apply in_or_app; right; now left|].
    unfold ofMonitor. rewrite Hid. apply String.eqb_refl. }
  destruct (findFirst (ofMonitor monitorId) desc _) as [r|].
  - destruct Hspec as [Hin Hmax]. specialize (Hmax row Hrow).
    apply filter_In in Hin as [Hin Hof]. apply in_app_or in Hin as [Hin | [<- | []]].
    + unfold ofMonitor in Hof. apply String.eqb_eq in Hof.
      specialize (Hlate r Hin Hof). lia.
    + reflexivity.
  - rewrite Hspec in Hrow. destruct Hrow.
Qed.

(** C3, as the code has it. The recorder inserts the row and then, in a
    second write, updates the last-known fields of the monitor: the
    instant read for the update, the status, the original message and the
    ping (kept as it was when the call has none). When both writes go
    through (and the row is later than the earlier rows of the monitor),
    [lastStatus] is the status of the most recent row. The two writes are
    not one transaction: when no identifier could be made or the insert
    fails nothing changes, and when the update fails the inserted row
    stays while the monitor keeps its old last-known fields; the error is
    logged and rethrown. *)
Theorem record_writes_row_then_last_known (faults : WriteFaults) (newId : Exc string)
    (timestamp now : Z) (params : RecordStatusParams) (db : Database) :
  let monitorId := p_monitorId params in
  let '(r, db', log) := recordMonitorStatus faults newId timestamp now params db in
  let inserted (row : MonitorStatus) : Prop :=
    db_history db' = (db_history db ++ [row])%list
    /\ (exists id, newId = Ok id /\ row_id row = id)
    /\ row_monitorId row = monitorId
    /\ row_status row = p_status params
    /\ row_ping row = p_ping params
    /\ row_timestamp row = timestamp in
  match r with
  | Ok row =>
      log = []
      /\ create_fault faults = None /\ update_fault faults = None
      /\ inserted row
      /\ (exists m0 m,
            db_monitors db !! monitorId = Some m0
            /\ db_monitors db' = <[monitorId := m]> (db_monitors db)
            /\ mon_lastCheckAt m = Some now
            /\ mon_lastStatus m = Some (p_status params)
            /\ mon_lastMessage m = Some (p_message params)
            /\ mon_lastPing m
               = (if p_ping params is Some ping then Some ping else mon_lastPing m0))
      /\ ((forall x, In x (db_history db) -> row_monitorId x = monitorId ->
                     row_timestamp x < timestamp) ->
          mostRecentRow monitorId db' = Some row
          /\ lastStatusOf monitorId db' = Some (row_status row))
  | Throw msg =>
      log = ["记录监控状态失败: " ++ msg]
      /\ db_monitors db' = db_monitors db
      /\ match newId, create_fault faults with
         | Throw e, _ => msg = e /\ db_history db' = db_history db
         | Ok _, Some e => msg = e /\ db_history db' = db_history db
         | Ok _, None =>
             (exists row, inserted row)
             /\ (update_fault faults = Some msg
                 \/ (update_fault faults = None /\ db_monitors db !! monitorId = None))
         end
  end.
Proof.
  unfold recordMonitorStatus.
  destruct newId as [id|msg]; [|now repeat split; auto].
  destruct (create_fault faults) as [msg|] eqn:Ec; [now repeat split; auto|].
  cbn [db_monitors db_history].
  destruct (update_fault faults) as [msg|].
  { split; [reflexivity|]. split; [reflexivity|]. split; [|now left].
    eexists. repeat split. eauto. }
  destruct (db_monitors db !! p_monitorId params) as [m|] eqn:Em.
  2:{ split; [reflexivity|]. split; [reflexivity|]. split; [|now right].
      eexists. repeat split. eauto. }
  cbn [db_history db_monitors].
  split; [reflexivity|]. split; [reflexivity|]. split; [reflexivity|].
  split; [repeat split; eauto|]. split.
  - eexists. eexists. split; [reflexivity|]. repeat split.
  - intros Hlate. split.
    + apply mostRecentRow_appended; [reflexivity | exact Hlate].
    + unfold lastStatusOf. cbn [db_monitors]. now rewrite lookup_insert_eq.
Qed.

(** C3, as the specification states it, fails: after a first UP record, a DOWN
    record whose second write fails leaves the DOWN row as the most recent
    one and [lastStatus] at UP. *)
Lemma failed_update_leaves_stale_status :
  let up := mkParams "m1" UP "HTTP 200" (Some 35%Q) None (Some "http") in
  let down := mkParams "m1" DOWN "HTTP 500" None None (Some "http") in
  let db1 := snd (fst (recordMonitorStatus noFaults (Ok "0006zi0a1") 60000 60002 up
                         (sampleDb 0 []))) in
  let '(r, db2, _) := recordMonitorStatus (mkFaults None (Some "database is locked"))
                        (Ok "0006zj0b2") 120000 120002 down db1 in
  r = Throw "database is locked"
  /\ option_map row_status (mostRecentRow "m1" db2) = Some DOWN
  /\ lastStatusOf "m1" db2 = Some UP.
Proof. vm_compute. repeat split. Qed.

(** A record without a ping makes a row without one and leaves the
    monitor's [lastPing] where the record before it put it. *)
Example omitted_ping_keeps_last_ping :
  let up := mkParams "m1" UP "HTTP 200" (Some 35%Q) None (Some "http") in
  let down := mkParams "m1" DOWN "HTTP 500" None None (Some "http") in
  let db1 := snd (fst (recordMonitorStatus noFaults (Ok "0006zi0a1") 60000 60002 up
                         (sampleDb 0 []))) in
  let '(r, db2, _) := recordMonitorStatus noFaults (Ok "0006zj0b2") 120000 120002 down db1 in
  option_map row_ping (match r with Ok row => Some row | Throw _ => None end) = Some None
  /\ option_map mon_lastPing (db_monitors db2 !! "m1") = Some (Some 35%Q)
  /\ option_map mon_lastCheckAt (db_monitors db2 !! "m1") = Some (Some 120002).
Proof. vm_compute. repeat split. Qed.

(** C4, as the code has it. The message stored in the inserted row depends
    on the status alone: null exactly for UP (push or not), "等待中" for
    PENDING, and the original message, unchanged, otherwise. *)
Theorem stored_message_by_status (faults : WriteFaults) (newId : Exc string)
    (timestamp now : Z) (params : RecordStatusParams) (db db' : Database)
    (row : MonitorStatus) (log : list string) :
  recordMonitorStatus faults newId timestamp now params db = (Ok row, db', log) ->
  In row (db_history db')
  /\ row_message row
     = generateCompactMessage (p_status params) (p_message params) (p_ping params)
  /\ (row_message row = None <-> p_status params = UP)
  /\ (p_status params = PENDING -> row_message row = Some "等待中")
  /\ (p_status params <> UP -> p_status params <> PENDING ->
      row_message row = Some (p_message params)).
Proof.
  unfold recordMonitorStatus.
  destruct newId as [id|msg]; [|discriminate].
  destruct (create_fault faults); [discriminate|].
  destruct (update_fault faults); [discriminate|].
  cbn [db_monitors].
  destruct (db_monitors db !! p_monitorId params); [|discriminate].
  intros [= <- <- _]. cbn [db_history row_message].
  split; [apply in_or_app; right; now left|]. split; [reflexivity|].
  unfold generateCompactMessage, UP, DOWN, PENDING.
  destruct (p_status params =? 1) eqn:E1.
  { apply Z.eqb_eq in E1. rewrite E1. repeat split; try discriminate; congruence. }
  apply Z.eqb_neq in E1.
  destruct (p_status params =? 0) eqn:E0.
  { apply Z.eqb_eq in E0. rewrite E0. repeat split; try discriminate; congruence. }
  destruct (p_status params =? 2) eqn:E2.
  { apply Z.eqb_eq in E2. rewrite E2. repeat split; try discriminate; congruence. }
  apply Z.eqb_neq in E2. repeat split; try discriminate; congruence.
Qed.

Lemma stored_message_by_status_witness :
  row_message (mkRow "0006zj0b2" "m1" DOWN (Some "HTTP 500 ") None None 120000)
  = Some "HTTP 500 ".
Proof.
  refine (proj2 (proj2 (proj2 (proj2
            (stored_message_by_status noFaults (Ok "0006zj0b2") 120000 120002
               (mkParams "m1" DOWN "HTTP 500 " None None (Some "http")) (sampleDb 0 [])
               _ _ _ eq_refl)))) _ _); discriminate.
Defined.

(** C4, as the specification states it, fails: the UP heartbeat of a push monitor
    is stored without its message, where the specification keeps it. *)
Lemma push_heartbeat_row_has_no_message :
  let params := mkParams "m1" UP "heartbeat received" (Some 12%Q) None (Some "push") in
  let '(r, _, _) := recordMonitorStatus noFaults (Ok "0006zj0b2") 120000 120002 params
                      (sampleDb 0 []) in
  option_map row_message (match r with Ok row => Some row | Throw _ => None end)
  = Some None
  /\ compactMessageBySpec (p_status params) (p_message params) (p_monitorType params)
     = Some "heartbeat received".
Proof. vm_compute. split; reflexivity. Qed.

(** Nor is the stored message trimmed. *)
Lemma down_message_is_not_trimmed :
  generateCompactMessage DOWN "HTTP 500 " None = Some "HTTP 500 "
  /\ compactMessageBySpec DOWN "HTTP 500 " (Some "http") = Some "HTTP 500".
Proof. split; reflexivity. Qed.

Lemma record_writes_row_then_last_known_witness :
  let up := mkParams "m1" UP "HTTP 200" (Some 35%Q) None (Some "http") in
  let db' := snd (fst (recordMonitorStatus noFaults (Ok "0006zi0a1") 60000 60002 up
                         (sampleDb 0 []))) in
  option_map row_status (mostRecentRow "m1" db') = Some UP
  /\ lastStatusOf "m1" db' = Some UP.
Proof.
  intros up. cbv zeta.
  pose proof (record_writes_row_then_last_known noFaults (Ok "0006zi0a1") 60000 60002 up
                (sampleDb 0 [])) as H.
  cbv zeta in H.
  destruct (recordMonitorStatus noFaults (Ok "0006zi0a1") 60000 60002 up (sampleDb 0 []))
    as [[r db1] log] eqn:E.
  assert (Er : exists row, r = Ok row).
  { revert E. vm_compute. intros [= <- _ _]. eauto. }
  destruct Er as [row ->]. cbn [fst snd].
  destruct H as (_ & _ & _ & (_ & _ & _ & Hs & _) & _ & Hrecent).
  destruct Hrecent as [Hrow Hlast].
  - intros x [<- | []] _. reflexivity.
  - change (p_monitorId up) with "m1" in Hrow, Hlast.
    rewrite Hrow, Hlast. cbn [option_map]. rewrite Hs. split; reflexivity.
Defined.

(** ** Compact identifiers *)

(** C9, as the code has it. For every instant in the three years after
    the epoch and every random draw, the identifier made by the 7-, 8- or
    9-character generator is recognised and read back as a date [t'] with
    [t' <= t < t' + bucketDuration + 1 ms]: one bucket, and up to one
    millisecond more because [new Date] keeps whole milliseconds only.
    The extractor computes as the code does, in doubles. *)
Theorem compact_id_time_within_bucket (now : Z) (random : Q) :
  0 <= now - BASE_TIME < THREE_YEARS_MS ->
  (0 <= random < 1)%Q ->
  reads_back_within generateUltraCompactId7 7 4 1 now random
  /\ reads_back_within generateUltraCompactId8 8 5 1 now random
  /\ reads_back_within generateUltraCompactId9 9 6 1 now random.
Proof.
  intros Hnow Hr. split; [|split].
  - now apply id7_reads_back.
  - now apply id8_reads_back.
  - now apply id9_reads_back.
Qed.

Lemma compact_id_time_within_bucket_witness :
  reads_back_within generateUltraCompactId7 7 4 1 (BASE_TIME + 394290) (1 # 2).
Proof.
  refine (proj1 (compact_id_time_within_bucket (BASE_TIME + 394290) (1 # 2) _ _)).
  - unfold BASE_TIME, THREE_YEARS_MS. lia.
  - split; [discriminate | reflexivity].
Defined.

(** C9, as the specification states it, fails: the identifier made 394.29 s after
    the epoch belongs to bucket 6, which starts at 337962.96 ms and is read
    back as 337962 ms; the generation instant is 56328 ms later, more than
    the 56327.16 ms of a bucket. *)
Lemma extracted_time_short_of_bucket :
  ~ reads_back_within generateUltraCompactId7 7 4 0 (BASE_TIME + 394290) 0.
Proof.
  intros (id & t' & Hgen & _ & Hext & _ & Hlt).
  vm_compute in Hgen. injection Hgen as <-.
  vm_compute in Hext. injection Hext as <-.
  vm_compute in Hlt. discriminate.
Qed.

(** * Further properties *)

(** ** Reading identifiers back *)

Lemma length_substring0 (k : nat) (s : string) :
  (k <= String.length s)%nat -> String.length (substring 0 k s) = k.
Proof.
  revert s. induction k as [|k IH]; intros s Hk.
  - destruct s; reflexivity.
  - destruct s as [|c s]; simpl in *; [lia|]. rewrite IH; [reflexivity | lia].
Qed.

Lemma allChars_substring0 (p : ascii -> bool) (k : nat) (s : string) :
  allChars p s = true -> allChars p (substring 0 k s) = true.
Proof.
  revert s. induction k as [|k IH]; intros s Hs.
  - destruct s; reflexivity.
  - destruct s as [|c s]; simpl in *; [reflexivity|].
    apply andb_true_iff in Hs as [Hc Hs]. rewrite Hc. now apply IH.
Qed.

Lemma parseDigits36_value (s : string) :
  allChars isLowerAlnum s = true ->
  forall a,
    parseDigits36 s a = a * 36 ^ Z.of_nat (String.length s) + parseDigits36 s 0
    /\ 0 <= parseDigits36 s 0 < 36 ^ Z.of_nat (String.length s).
Proof.
  induction s as [|c s IH]; intros Hs a.
  - simpl. lia.
  - simpl in Hs. apply andb_true_iff in Hs as [Hc Hs].
    destruct (isLowerAlnum_digit c Hc) as (d & Hd & Hrange).
    cbn [parseDigits36 String.length]. rewrite Hd.
    destruct (IH Hs (a * 36 + d)) as [E1 _]. destruct (IH Hs (0 * 36 + d)) as [E2 Hb].
    rewrite E1, E2. rewrite Nat2Z.inj_succ, Z.pow_succ_r by lia.
    set (P := 36 ^ Z.of_nat (String.length s)) in *.
    split; [lia|]. nia.
Qed.

Lemma parseInt36_value (s : string) :
  allChars isLowerAlnum s = true -> (1 <= String.length s)%nat ->
  exists v, parseInt36 s = Some v /\ 0 <= v < 36 ^ Z.of_nat (String.length s).
Proof.
  intros Hs Hlen. destruct (parseDigits36_value s Hs 0) as [_ Hb].
  destruct s as [|c s]; [simpl in Hlen; lia|].
  unfold parseInt36. simpl in Hs. apply andb_true_iff in Hs as [Hc _].
  destruct (isLowerAlnum_digit c Hc) as (d & -> & _). eauto.
Qed.

(** The date rebuilt from a time code below the number of buckets lies in
    the three years after the epoch. *)
Lemma date_of_time_code (units v : Z) :
  units = 36 ^ 3 \/ units = 36 ^ 4 \/ units = 36 ^ 5 \/ units = 36 ^ 6 ->
  0 <= v < units ->
  exists t,
    newDate (Some (codeTime units v)) = ValidDate t
    /\ BASE_TIME <= t < BASE_TIME + THREE_YEARS_MS.
Proof.
  intros Hunits Hv.
  destruct (codeTime_date units v Hunits Hv) as (t & Hd & _ & Hlo & Hhi).
  set (u := (inject_Z THREE_YEARS_MS / inject_Z units)%Q) in *.
  assert (Hupos : 0 < units) by lia.
  assert (HU : (0 < inject_Z units)%Q) by (apply inject_Z_pos; exact Hupos).
  assert (Hu1 : (1 <= u)%Q).
  { unfold u. destruct Hunits as [-> | [-> | [-> | ->]]]; discriminate. }
  assert (Eu : (inject_Z units * u == inject_Z THREE_YEARS_MS)%Q).
  { unfold u. field. intros E. rewrite E in HU. now apply Qlt_irrefl in HU. }
  assert (Hp0 : (0 <= inject_Z v * u)%Q).
  { apply Qmult_le_0_compat; [|lra].
    change 0%Q with (inject_Z 0). rewrite <- Zle_Qle. lia. }
  assert (Hp1 : (inject_Z v * u <= inject_Z (THREE_YEARS_MS - 1))%Q).
  { assert (Hv1 : (inject_Z v <= inject_Z units - 1)%Q).
    { change 1%Q with (inject_Z 1). unfold Qminus. rewrite <- inject_Z_opp, <- inject_Z_plus.
      rewrite <- Zle_Qle. lia. }
    assert (Hm : (inject_Z v * u <= (inject_Z units - 1) * u)%Q).
    { apply Qmult_le_compat_r; [exact Hv1 | lra]. }
    assert (E : ((inject_Z units - 1) * u == inject_Z THREE_YEARS_MS - u)%Q).
    { rewrite <- Eu. ring. }
    replace (THREE_YEARS_MS - 1) with (THREE_YEARS_MS + - 1) by lia.
    rewrite inject_Z_plus. change (inject_Z (- 1)) with (- (1))%Q.
    rewrite E in Hm. lra. }
  assert (Hf : 0 <= Qfloor (inject_Z v * u)).
  { change 0 with (Qfloor 0). now apply Qfloor_resp_le. }
  assert (Hc : Qceiling (inject_Z v * u) <= THREE_YEARS_MS - 1).
  { rewrite <- (Qceiling_Z (THREE_YEARS_MS - 1)). now apply Qceiling_resp_le. }
  exists t. split; [exact Hd | lia].
Qed.

(** X1. [extractTimeFromUltraCompactId] answers null exactly for the
    strings that are not six to nine characters of [0-9a-z]; for every
    other string it answers a valid date that lies in the three years
    after the epoch, whatever the characters are. *)
Theorem extract_time_total_on_compact_ids (id : string) :
  if isUltraCompactId id
  then exists t,
         extractTimeFromUltraCompactId id = Some (ValidDate t)
         /\ BASE_TIME <= t < BASE_TIME + THREE_YEARS_MS
  else extractTimeFromUltraCompactId id = None.
Proof.
  unfold extractTimeFromUltraCompactId.
  destruct (isUltraCompactId id) eqn:Hok; [|reflexivity].
  cbn [negb]. unfold isUltraCompactId in Hok.
  apply andb_true_iff in Hok as [Hok Hhi]. apply andb_true_iff in Hok as [Hall Hlo].
  apply Nat.leb_le in Hlo, Hhi.
  assert (Hcode : forall k units,
             (3 <= k <= 6)%nat -> (k <= String.length id)%nat -> units = 36 ^ Z.of_nat k ->
             exists t,
               newDate
                 (option_map (fun r => roundDouble (inject_Z BASE_TIME + r))
                    (option_map
                       (fun u => roundDouble
                                   (inject_Z u
                                    * roundDouble (inject_Z THREE_YEARS_MS / inject_Z units)))
                       (parseInt36 (substring 0 k id))))
               = ValidDate t
               /\ BASE_TIME <= t < BASE_TIME + THREE_YEARS_MS).
  { intros k units Hk Hkl ->.
    destruct (parseInt36_value (substring 0 k id)) as (v & Hv & Hb).
    - now apply allChars_substring0.
    - rewrite length_substring0; lia.
    - rewrite length_substring0 in Hb by lia. rewrite Hv. cbn [option_map].
      apply (date_of_time_code (36 ^ Z.of_nat k) v); [|exact Hb].
      assert (E : k = 3%nat \/ k = 4%nat \/ k = 5%nat \/ k = 6%nat) by lia.
      destruct E as [-> | [-> | [-> | ->]]]; auto. }
  destruct (String.length id =? 6)%nat eqn:E6.
  { apply Nat.eqb_eq in E6. destruct (Hcode 3%nat (36 * 36 * 36)) as (t & Ht & Hb);
      [lia | lia | reflexivity |]. exists t. now rewrite Ht. }
  destruct (String.length id =? 7)%nat eqn:E7.
  { apply Nat.eqb_eq in E7. destruct (Hcode 4%nat (36 * 36 * 36 * 36)) as (t & Ht & Hb);
      [lia | lia | reflexivity |]. exists t. now rewrite Ht. }
  destruct (String.length id =? 8)%nat eqn:E8.
  { apply Nat.eqb_eq in E8. destruct (Hcode 5%nat (36 * 36 * 36 * 36 * 36)) as (t & Ht & Hb);
      [lia | lia | reflexivity |]. exists t. now rewrite Ht. }
  destruct (String.length id =? 9)%nat eqn:E9.
  { apply Nat.eqb_eq in E9.
    destruct (Hcode 6%nat (36 * 36 * 36 * 36 * 36 * 36)) as (t & Ht & Hb);
      [lia | lia | reflexivity |]. exists t. now rewrite Ht. }
  apply Nat.eqb_neq in E6, E7, E8, E9. lia.
Qed.

Lemma Qfloor_plus_Z (a : Z) (q : Q) : Qfloor (inject_Z a + q) = a + Qfloor q.
Proof.
  apply Z.le_antisymm.
  - assert (H : Qfloor (inject_Z a + q) < a + Qfloor q + 1); [|lia].
    rewrite Zlt_Qlt. eapply Qle_lt_trans; [apply Qfloor_le|].
    pose proof (Qlt_floor q) as Hq.
    rewrite !inject_Z_plus. rewrite inject_Z_plus in Hq. lra.
  - rewrite <- (Qfloor_Z (a + Qfloor q)). apply Qfloor_resp_le.
    rewrite inject_Z_plus. pose proof (Qfloor_le q). lra.
Qed.

Lemma Qceiling_floor_succ (q : Q) : Qceiling q <= Qfloor q + 1.
Proof.
  rewrite <- (Qceiling_Z (Qfloor q + 1)). apply Qceiling_resp_le.
  apply Qlt_le_weak, Qlt_floor.
Qed.

(** The extractor's arithmetic keeps the order of the time codes. *)
Lemma codeTime_mono (units i1 i2 : Z) :
  units = 36 ^ 3 \/ units = 36 ^ 4 \/ units = 36 ^ 5 \/ units = 36 ^ 6 ->
  0 <= i1 <= i2 -> (codeTime units i1 <= codeTime units i2)%Q.
Proof.
  intros Hunits [H0 Hle]. unfold codeTime. cbv zeta.
  destruct (unitDuration_close units Hunits) as (Dpos & _). cbv zeta in Dpos.
  set (d := roundDouble (inject_Z THREE_YEARS_MS / inject_Z units)) in *.
  assert (Hi1 : (0 <= inject_Z i1)%Q).
  { change 0%Q with (inject_Z 0). now rewrite <- Zle_Qle. }
  assert (Hp1 : (0 <= inject_Z i1 * d)%Q) by (apply Qmult_le_0_compat; lra).
  assert (Hp : (inject_Z i1 * d <= inject_Z i2 * d)%Q).
  { apply Qmult_le_compat_r; [now rewrite <- Zle_Qle | lra]. }
  pose proof (roundDouble_mono _ _ Hp1 Hp) as Hr.
  assert (Hr0 : (0 <= roundDouble (inject_Z i1 * d))%Q).
  { rewrite <- (roundDouble_zero 0) at 1 by reflexivity.
    apply roundDouble_mono; [apply Qle_refl | exact Hp1]. }
  apply roundDouble_mono.
  - apply Qle_trans with (inject_Z BASE_TIME + 0)%Q; [discriminate | lra].
  - lra.
Qed.

Lemma timeUnitAt_mono (k now1 now2 : Z) :
  0 <= k -> now1 <= now2 -> timeUnitAt k now1 <= timeUnitAt k now2.
Proof.
  intros Hk Hle. unfold timeUnitAt, bucketDuration.
  apply Qfloor_resp_le.
  apply Qmult_le_compat_r.
  - rewrite <- Zle_Qle. lia.
  - apply Qlt_le_weak, Qinv_lt_0_compat. apply Qlt_shift_div_l.
    + apply inject_Z_pos. apply Z.pow_pos_nonneg; lia.
    + rewrite Qmult_0_l. apply inject_Z_pos. reflexivity.
Qed.

Lemma generated_id_date (k : nat) (rest : string) (rel : Z) :
  k = 4%nat \/ k = 5%nat \/ k = 6%nat ->
  String.length rest = 3%nat -> allChars isLowerAlnum rest = true ->
  0 <= rel < THREE_YEARS_MS ->
  let i := Qfloor (inject_Z rel / (inject_Z THREE_YEARS_MS / inject_Z (36 ^ Z.of_nat k))) in
  let t := Qfloor (codeTime (36 ^ Z.of_nat k) (timeUnitAt (Z.of_nat k) (BASE_TIME + rel))) in
  extractTimeFromUltraCompactId (padStart k "0" (toString36 i) ++ rest) = Some (ValidDate t)
  /\ bucketStart (Z.of_nat k) (BASE_TIME + rel) <= t
     <= bucketStart (Z.of_nat k) (BASE_TIME + rel) + 1.
Proof.
  intros Hk Hlen Hall Hrel i t.
  assert (Hk1 : (1 <= k)%nat) by lia.
  assert (Hpos : 0 < 36 ^ Z.of_nat k) by (apply Z.pow_pos_nonneg; lia).
  assert (Hunits : 36 ^ Z.of_nat k = 36 ^ 3 \/ 36 ^ Z.of_nat k = 36 ^ 4
                   \/ 36 ^ Z.of_nat k = 36 ^ 5 \/ 36 ^ Z.of_nat k = 36 ^ 6).
  { destruct Hk as [ -> | [ -> | -> ] ]; auto. }
  destruct (bucket_index_bounds _ rel Hpos Hrel) as (Hi & Hlo & Hhi). fold i in Hi, Hlo, Hhi.
  destruct (padded36_roundtrip k i Hk1 Hi) as (Hl & Ha & Hp).
  assert (Ei : timeUnitAt (Z.of_nat k) (BASE_TIME + rel) = i).
  { unfold timeUnitAt, bucketDuration.
    replace (BASE_TIME + rel - BASE_TIME) with rel by lia. reflexivity. }
  destruct (codeTime_date _ i Hunits Hi) as (t' & Hd & Et & Hfl & Hce).
  assert (Ett : t' = t) by (unfold t; rewrite Ei; exact Et).
  rewrite Ett in Hd, Hfl, Hce. clear Ett Et.
  split.
  - rewrite (extract_time_code k 3 (36 ^ Z.of_nat k) _ rest i); auto.
    + now rewrite Hd.
    + destruct Hk as [ -> | [ -> | -> ] ]; auto.
  - unfold bucketStart. rewrite Ei, Qfloor_plus_Z. unfold bucketDuration.
    pose proof (Qceiling_floor_succ
                  (inject_Z i * (inject_Z THREE_YEARS_MS / inject_Z (36 ^ Z.of_nat k)))).
    lia.
Qed.

Lemma id7_date (now : Z) (random : Q) :
  0 <= now - BASE_TIME < THREE_YEARS_MS -> (0 <= random < 1)%Q ->
  reads_back_bucket_start generateUltraCompactId7 4 now random
    (Qfloor (codeTime (36 ^ 4) (timeUnitAt 4 now))).
Proof.
  intros Hnow Hr. unfold reads_back_bucket_start, generateUltraCompactId7. cbv zeta.
  rewrite (horizon_guard now Hnow).
  rewrite (timeUnit_in_doubles (36 * 36 * 36 * 36) (now - BASE_TIME)
             ltac:(right; left; reflexivity) ltac:(lia)).
  assert (Eq : (random * 36 * 36 * 36 == random * inject_Z (36 ^ Z.of_nat 3))%Q).
  { change (inject_Z (36 ^ Z.of_nat 3)) with (46656 # 1). ring. }
  destruct (random_code 3 _ random ltac:(lia) Eq Hr) as (Hl & Ha).
  pose proof (generated_id_date 4 _ (now - BASE_TIME) ltac:(auto) Hl Ha Hnow) as H.
  cbv zeta in H.
  replace (BASE_TIME + (now - BASE_TIME)) with now in H by lia.
  eexists. split; [reflexivity | exact H].
Qed.

Lemma id9_date (now : Z) (random : Q) :
  0 <= now - BASE_TIME < THREE_YEARS_MS -> (0 <= random < 1)%Q ->
  reads_back_bucket_start generateUltraCompactId9 6 now random
    (Qfloor (codeTime (36 ^ 6) (timeUnitAt 6 now))).
Proof.
  intros Hnow Hr. unfold reads_back_bucket_start, generateUltraCompactId9. cbv zeta.
  rewrite (horizon_guard now Hnow).
  rewrite (timeUnit_in_doubles (36 * 36 * 36 * 36 * 36 * 36) (now - BASE_TIME)
             ltac:(right; right; right; reflexivity) ltac:(lia)).
  assert (Eq : (random * 36 * 36 * 36 == random * inject_Z (36 ^ Z.of_nat 3))%Q).
  { change (inject_Z (36 ^ Z.of_nat 3)) with (46656 # 1). ring. }
  destruct (random_code 3 _ random ltac:(lia) Eq Hr) as (Hl & Ha).
  pose proof (generated_id_date 6 _ (now - BASE_TIME) ltac:(auto) Hl Ha Hnow) as H.
  cbv zeta in H.
  replace (BASE_TIME + (now - BASE_TIME)) with now in H by lia.
  eexists. split; [reflexivity | exact H].
Qed.

Lemma id8_date (now : Z) (random : Q) :
  0 <= now - BASE_TIME < THREE_YEARS_MS -> (0 <= random < 1)%Q ->
  reads_back_bucket_start generateUltraCompactId8 5 now random
    (Qfloor (codeTime (36 ^ 5) (timeUnitAt 5 now))).
Proof.
  intros Hnow Hr. unfold reads_back_bucket_start, generateUltraCompactId8. cbv zeta.
  rewrite (horizon_guard now Hnow).
  rewrite (timeUnit_in_doubles (36 * 36 * 36 * 36 * 36) (now - BASE_TIME)
             ltac:(right; right; left; reflexivity) ltac:(lia)).
  assert (Eq : (random * 36 * 36 == random * inject_Z (36 ^ Z.of_nat 2))%Q).
  { change (inject_Z (36 ^ Z.of_nat 2)) with (1296 # 1). ring. }
  destruct (random_code 2 _ random ltac:(lia) Eq Hr) as (Hl & Ha).
  set (rnd := padStart 2 "0" (toString36 (Qfloor (random * 36 * 36)))) in *.
  set (i := Qfloor _).
  set (c := (i + charCodeAt rnd 0 + charCodeAt rnd 1) mod 36).
  assert (Hc : 0 <= c < 36) by (apply Z.mod_pos_bound; lia).
  destruct (toString36_spec c (proj1 Hc)) as (Hca & _ & Hc1 & Hc2).
  specialize (Hc2 1%nat ltac:(lia) (proj2 Hc)).
  assert (Hlen : String.length (rnd ++ toString36 c) = 3%nat).
  { rewrite length_app_string, Hl. lia. }
  assert (Hall : allChars isLowerAlnum (rnd ++ toString36 c) = true).
  { now rewrite allChars_app, Ha, Hca. }
  pose proof (generated_id_date 5 _ (now - BASE_TIME) ltac:(auto) Hlen Hall Hnow) as H.
  cbv zeta in H.
  replace (BASE_TIME + (now - BASE_TIME)) with now in H by lia.
  eexists. split; [reflexivity | exact H].
Qed.

Lemma timeUnitAt_range (k : nat) (now : Z) :
  0 <= now - BASE_TIME < THREE_YEARS_MS -> 0 <= timeUnitAt (Z.of_nat k) now.
Proof.
  intros Hnow.
  assert (Hpos : 0 < 36 ^ Z.of_nat k) by (apply Z.pow_pos_nonneg; lia).
  destruct (bucket_index_bounds _ (now - BASE_TIME) Hpos Hnow) as (Hi & _).
  exact (proj1 Hi).
Qed.

(** The dates of two identifiers of one generator, made in order. *)
Lemma dates_in_order (gen : Z -> Q -> Exc string) (k : nat) (now1 now2 : Z)
    (random1 random2 : Q) :
  k = 4%nat \/ k = 5%nat \/ k = 6%nat ->
  (forall now random,
      0 <= now - BASE_TIME < THREE_YEARS_MS -> (0 <= random < 1)%Q ->
      reads_back_bucket_start gen (Z.of_nat k) now random
        (Qfloor (codeTime (36 ^ Z.of_nat k) (timeUnitAt (Z.of_nat k) now)))) ->
  0 <= now1 - BASE_TIME -> now1 <= now2 -> now2 - BASE_TIME < THREE_YEARS_MS ->
  (0 <= random1 < 1)%Q -> (0 <= random2 < 1)%Q ->
  read_back_in_order gen (Z.of_nat k) now1 now2 random1 random2.
Proof.
  intros Hk Hgen H0 Hle H1 Hr1 Hr2.
  assert (Hn1 : 0 <= now1 - BASE_TIME < THREE_YEARS_MS) by lia.
  assert (Hn2 : 0 <= now2 - BASE_TIME < THREE_YEARS_MS) by lia.
  eexists. eexists. split; [apply Hgen; assumption|]. split; [apply Hgen; assumption|].
  split.
  - apply Qfloor_resp_le. apply codeTime_mono.
    + destruct Hk as [ -> | [ -> | -> ] ]; auto.
    + split; [now apply timeUnitAt_range | apply timeUnitAt_mono; lia].
  - now intros ->.
Qed.

(** X2. Identifiers are time-ordered as far as they can be read: within
    the three years after the epoch, the 7-, 8- and 9-character generators
    make identifiers that are read back as the start of the bucket of the
    generation instant in whole milliseconds or the millisecond after it
    (the three roundings of the extractor may carry it over), a date that
    does not depend on the random draw and does not decrease when the
    generation instant increases. *)
Theorem extracted_times_are_ordered (now1 now2 : Z) (random1 random2 : Q) :
  0 <= now1 - BASE_TIME -> now1 <= now2 -> now2 - BASE_TIME < THREE_YEARS_MS ->
  (0 <= random1 < 1)%Q -> (0 <= random2 < 1)%Q ->
  read_back_in_order generateUltraCompactId7 4 now1 now2 random1 random2
  /\ read_back_in_order generateUltraCompactId8 5 now1 now2 random1 random2
  /\ read_back_in_order generateUltraCompactId9 6 now1 now2 random1 random2.
Proof.
  intros H0 Hle H1 Hr1 Hr2. split; [|split].
  - apply (dates_in_order generateUltraCompactId7 4); auto. exact id7_date.
  - apply (dates_in_order generateUltraCompactId8 5); auto. exact id8_date.
  - apply (dates_in_order generateUltraCompactId9 6); auto. exact id9_date.
Qed.

Lemma extracted_times_are_ordered_witness :
  read_back_in_order generateUltraCompactId9 6 (BASE_TIME + 124087082) (BASE_TIME + 124087083)
    (1 # 3) (2 # 3).
Proof.
  refine (proj2 (proj2 (extracted_times_are_ordered (BASE_TIME + 124087082)
                          (BASE_TIME + 124087083) (1 # 3) (2 # 3) _ _ _ _ _)));
    try (unfold BASE_TIME, THREE_YEARS_MS; lia); split; try discriminate; reflexivity.
Defined.

(** The millisecond after the start of the bucket does occur: bucket
    2855050 starts between 1704191287082 and 1704191287083, and the
    nine-character identifier made at 1704191287083 is read back as that
    very instant. *)
Example id9_read_back_one_later :
  generateUltraCompactId9 1704191287083 0 = Ok "01p6yy000"
  /\ bucketStart 6 1704191287083 = 1704191287082
  /\ extractTimeFromUltraCompactId "01p6yy000" = Some (ValidDate 1704191287083).
Proof. repeat split; vm_compute; reflexivity. Qed.

(** ** The fallback identifier *)

Lemma hex_digit_cases (v : Z) :
  0 <= v < 16 ->
  toString16 v = String (digitChar v) EmptyString
  /\ isLowerHex (digitChar v) = true
  /\ isVariantDigit (digitChar (Z.lor (Z.land v 3) 8)) = true
  /\ 0 <= Z.lor (Z.land v 3) 8 < 16.
Proof.
  intros Hv.
  assert (E : v = 0 \/ v = 1 \/ v = 2 \/ v = 3 \/ v = 4 \/ v = 5 \/ v = 6 \/ v = 7
              \/ v = 8 \/ v = 9 \/ v = 10 \/ v = 11 \/ v = 12 \/ v = 13 \/ v = 14
              \/ v = 15) by lia.
  repeat (destruct E as [ -> | E ]; [vm_compute; intuition discriminate|]).
  subst v. vm_compute. intuition discriminate.
Qed.

Lemma random_nibble (q : Q) :
  (0 <= q < 1)%Q -> 0 <= Qfloor (q * 16) < 16.
Proof.
  intros [H0 H1]. split.
  - change 0 with (Qfloor 0). apply Qfloor_resp_le.
    apply Qmult_le_0_compat; [exact H0 | discriminate].
  - rewrite Zlt_Qlt. eapply Qle_lt_trans; [apply Qfloor_le|].
    change (inject_Z 16) with (1 * 16)%Q.
    apply Qmult_lt_compat_r; [reflexivity | exact H1].
Qed.

Lemma uuidFill_follows (random : nat -> Q) :
  (forall k, (0 <= random k < 1)%Q) ->
  forall template k,
    followsTemplate template (fst (uuidFill random template k)) = true
    /\ snd (uuidFill random template k) = (k + templateDraws template)%nat.
Proof.
  intros Hr template. induction template as [|c rest IH]; intros k.
  - cbn. split; [reflexivity | lia].
  - cbn [uuidFill templateDraws].
    pose proof (random_nibble _ (Hr k)) as Hn.
    destruct (hex_digit_cases _ Hn) as (Hs & Hx & Hy & Hy').
    destruct (hex_digit_cases _ Hy') as (Hs' & _ & _ & _).
    destruct (Ascii.eqb c "x") eqn:Ex.
    + cbn [orb]. destruct (IH (S k)) as [IH1 IH2].
      destruct (uuidFill random rest (S k)) as [s k'] eqn:Ef. cbn [fst snd] in *.
      rewrite Hs. cbn [String.append followsTemplate]. rewrite Ex, Hx, IH1.
      split; [reflexivity | lia].
    + cbn [orb]. destruct (Ascii.eqb c "y") eqn:Ey.
      * destruct (IH (S k)) as [IH1 IH2].
        destruct (uuidFill random rest (S k)) as [s k'] eqn:Ef. cbn [fst snd] in *.
        rewrite Hs'. cbn [String.append followsTemplate]. rewrite Ex, Ey, Hy, IH1.
        split; [reflexivity | lia].
      * destruct (IH k) as [IH1 IH2].
        destruct (uuidFill random rest k) as [s k'] eqn:Ef. cbn [fst snd] in *.
        cbn [followsTemplate]. rewrite Ex, Ey, Ascii.eqb_refl, IH1.
        split; [reflexivity | lia].
Qed.

Lemma followsTemplate_length (template s : string) :
  followsTemplate template s = true -> String.length s = String.length template.
Proof.
  revert s. induction template as [|t rest IH]; intros [|c s] H; try discriminate.
  - reflexivity.
  - cbn in H. apply andb_prop in H. cbn. f_equal. now apply IH.
Qed.

Lemma isLowerHex_isHexDigit (c : ascii) : isLowerHex c = true -> isHexDigit c = true.
Proof. unfold isLowerHex, isHexDigit. cbv zeta. intros ->. reflexivity. Qed.

Lemma isVariantDigit_isHexDigit (c : ascii) : isVariantDigit c = true -> isHexDigit c = true.
Proof.
  unfold isVariantDigit. intros H.
  repeat (apply orb_prop in H; destruct H as [H|H]);
    apply Ascii.eqb_eq in H; subst c; reflexivity.
Qed.

Lemma follows_hex (t : ascii) (rest s : string) :
  followsTemplate (String t rest) s = true ->
  (Ascii.eqb t "x" || Ascii.eqb t "y" || isHexDigit t) = true ->
  exists c s', s = String c s' /\ isHexDigit c = true /\ followsTemplate rest s' = true.
Proof.
  destruct s as [|c s']; [discriminate|]. cbn [followsTemplate]. intros H Ht.
  apply andb_prop in H. destruct H as [Hc Hrest].
  exists c, s'. split; [reflexivity|]. split; [|exact Hrest].
  destruct (Ascii.eqb t "x"); [now apply isLowerHex_isHexDigit|].
  destruct (Ascii.eqb t "y"); [now apply isVariantDigit_isHexDigit|].
  apply Ascii.eqb_eq in Hc. subst c. exact Ht.
Qed.

Lemma follows_dash (rest s : string) :
  followsTemplate (String "-" rest) s = true ->
  exists s', s = String "-" s' /\ followsTemplate rest s' = true.
Proof.
  destruct s as [|c s']; [discriminate|]. cbn [followsTemplate].
  change (Ascii.eqb "-" "x") with false. change (Ascii.eqb "-" "y") with false.
  intros H. apply andb_prop in H. destruct H as [Hc Hrest].
  apply Ascii.eqb_eq in Hc. subst c. now exists s'.
Qed.

Lemma follows_uuid_matches (s : string) :
  followsTemplate uuidTemplate s = true -> matchesUuid s = true.
Proof.
  unfold uuidTemplate. intros H.
  repeat match type of H with
  | followsTemplate (String "-" _) _ = true =>
      apply follows_dash in H; destruct H as (?s & -> & H)
  | followsTemplate (String _ _) _ = true =>
      apply follows_hex in H; [destruct H as (?c & ?s & -> & ?Hc & H) | reflexivity]
  end.
  match type of H with followsTemplate _ ?s = true => destruct s; [|discriminate] end.
  unfold matchesUuid.
  repeat (cbn [takeClass takeDash];
          match goal with
          | Hc : isHexDigit ?c = true |- context [isHexDigit ?c] => rewrite Hc; clear Hc
          end).
  reflexivity.
Qed.

(** X3. The fallback identifier is a version-4 UUID: when [Math.random()]
    answers in [0, 1), [generateUUID] returns 36 characters that follow
    [xxxxxxxx-xxxx-4xxx-yxxx-xxxxxxxxxxxx] with a lower-case hexadecimal
    digit for each [x] and one of [8 9 a b] for [y]; [getIdType] classes it
    as a UUID and [isUltraCompactId] rejects it. It takes 31 random draws
    and leaves the collision cache as it was. *)
Theorem generateUUID_is_version4 (src : IdSource) (st : IdState) :
  randomInRange src ->
  let uuid := fst (generateUUID src st) in
  let st' := snd (generateUUID src st) in
  followsTemplate uuidTemplate uuid = true
  /\ String.length uuid = 36%nat
  /\ getIdType uuid = IdUuid
  /\ isUltraCompactId uuid = false
  /\ id_draws st' = (id_draws st + 31)%nat
  /\ recentIds st' = recentIds st.
Proof.
  intros Hr. unfold generateUUID.
  destruct (uuidFill_follows (src_random src) Hr uuidTemplate (id_draws st)) as [Hf Hk].
  destruct (uuidFill (src_random src) uuidTemplate (id_draws st)) as [s k].
  cbn [fst snd] in *. cbv zeta. cbn [id_draws recentIds].
  pose proof (followsTemplate_length _ _ Hf) as Hlen.
  change (String.length uuidTemplate) with 36%nat in Hlen.
  split; [exact Hf|]. split; [exact Hlen|]. split.
  { unfold getIdType. now rewrite (follows_uuid_matches _ Hf). }
  split.
  { unfold isUltraCompactId. rewrite Hlen. apply andb_false_r. }
  split; [exact Hk | reflexivity].
Qed.

Lemma generateUUID_is_version4_witness :
  getIdType (fst (generateUUID (constantSource BASE_TIME (1 # 2)) idState0)) = IdUuid.
Proof.
  refine (proj1 (proj2 (proj2
            (generateUUID_is_version4 (constantSource BASE_TIME (1 # 2)) idState0 _)))).
  intros k. split; [discriminate | reflexivity].
Defined.

(** ** The collision cache *)

Lemma NoDup_skipn {A : Type} (n : nat) (l : list A) : NoDup l -> NoDup (skipn n l).
Proof.
  intros H. rewrite <- (firstn_skipn n l) in H. now apply NoDup_app_remove_l in H.
Qed.

Lemma isIdExists_In (id : string) (ids : list string) :
  isIdExists id ids = true <-> In id ids.
Proof.
  unfold isIdExists. rewrite existsb_exists. split.
  - intros (x & Hin & Heq). apply String.eqb_eq in Heq. now subst x.
  - intros Hin. exists id. split; [exact Hin | apply String.eqb_refl].
Qed.

Lemma setAdd_new (id : string) (ids : list string) :
  isIdExists id ids = false -> setAdd id ids = (ids ++ [id])%list.
Proof. unfold setAdd, isIdExists. now intros ->. Qed.

Lemma setAdd_old (id : string) (ids : list string) :
  isIdExists id ids = true -> setAdd id ids = ids.
Proof. unfold setAdd, isIdExists. now intros ->. Qed.

Lemma addIdToCache_records (id : string) (ids : list string) :
  isIdExists id ids = false -> isIdExists id (addIdToCache id ids) = true.
Proof.
  intros Hnew. unfold addIdToCache, cleanupCache. rewrite (setAdd_new _ _ Hnew).
  apply isIdExists_In.
  destruct (MAX_CACHE_SIZE <? length (ids ++ [id]))%nat.
  - rewrite length_app. cbn [length].
    rewrite skipn_app.
    replace (length ids + 1 - 1000 - length ids)%nat with 0%nat by lia.
    apply in_or_app. right. now left.
  - apply in_or_app. right. now left.
Qed.

(** X4. The collision cache stays a set of at most 10000 identifiers. An
    identifier it already holds changes nothing; a new one is appended
    while fewer than 10000 are held; a new one that arrives when 10000 are
    held makes the cache forget its 9001 oldest entries, so that 1000
    remain, the new one last. *)
Theorem cache_stays_bounded (id : string) (ids : list string) :
  NoDup ids -> (length ids <= MAX_CACHE_SIZE)%nat ->
  let ids' := addIdToCache id ids in
  NoDup ids'
  /\ (length ids' <= MAX_CACHE_SIZE)%nat
  /\ (isIdExists id ids = true -> ids' = ids)
  /\ (isIdExists id ids = false -> (length ids < MAX_CACHE_SIZE)%nat ->
      ids' = (ids ++ [id])%list)
  /\ (isIdExists id ids = false -> length ids = MAX_CACHE_SIZE ->
      ids' = (skipn (MAX_CACHE_SIZE - 999) ids ++ [id])%list
      /\ length ids' = 1000%nat).
Proof.
  intros Hnd Hlen. cbv zeta. unfold addIdToCache, cleanupCache.
  assert (HM : Z.of_nat MAX_CACHE_SIZE = 10000) by (unfold MAX_CACHE_SIZE; lia).
  destruct (isIdExists id ids) eqn:Hex.
  - rewrite (setAdd_old _ _ Hex).
    assert (E : (MAX_CACHE_SIZE <? length ids)%nat = false) by (apply Nat.ltb_ge; lia).
    rewrite E. repeat split; try discriminate; auto.
  - rewrite (setAdd_new _ _ Hex).
    assert (Hnd' : NoDup (ids ++ [id])).
    { apply NoDup_app; [exact Hnd | constructor; [intros []|constructor] |].
      intros a Ha [<-|[]]. apply isIdExists_In in Ha. congruence. }
    rewrite length_app. cbn [length].
    destruct (MAX_CACHE_SIZE <? length ids + 1)%nat eqn:E.
    + apply Nat.ltb_lt in E.
      assert (Hfull : length ids = MAX_CACHE_SIZE) by lia.
      assert (Hdrop : skipn (length ids + 1 - 1000) (ids ++ [id])
                      = (skipn (MAX_CACHE_SIZE - 999) ids ++ [id])%list).
      { rewrite skipn_app.
        replace (length ids + 1 - 1000 - length ids)%nat with 0%nat by lia.
        cbn [skipn]. f_equal. f_equal. lia. }
      split; [now apply NoDup_skipn|].
      rewrite Hdrop, length_app, length_skipn. cbn [length].
      split; [lia|]. split; [discriminate|]. split; [lia|].
      intros _ _. split; [reflexivity | lia].
    + apply Nat.ltb_ge in E.
      split; [exact Hnd'|]. rewrite length_app. cbn [length].
      split; [lia|]. split; [discriminate|]. split; [reflexivity|].
      intros _ Hfull. lia.
Qed.

Lemma cache_stays_bounded_witness :
  NoDup (addIdToCache "000000abc" ["000000abd"]).
Proof.
  refine (proj1 (cache_stays_bounded "000000abc" ["000000abd"] _ _)).
  - constructor; [intros [] | constructor].
  - unfold MAX_CACHE_SIZE. simpl length. lia.
Defined.

(** ** The retrying generator *)

Lemma generateUUID_kind (src : IdSource) (st : IdState) :
  randomInRange src ->
  getIdType (fst (generateUUID src st)) = IdUuid
  /\ recentIds (snd (generateUUID src st)) = recentIds st.
Proof.
  intros Hr. unfold generateUUID.
  destruct (uuidFill_follows (src_random src) Hr uuidTemplate (id_draws st)) as [Hf _].
  destruct (uuidFill (src_random src) uuidTemplate (id_draws st)) as [s k].
  cbn [fst snd recentIds] in *. split; [|reflexivity].
  unfold getIdType. now rewrite (follows_uuid_matches _ Hf).
Qed.

Lemma generator_throws_range_error (now : Z) (random : Q) (msg : string) :
  (generateUltraCompactId9 now random = Throw msg
   \/ generateUltraCompactId8 now random = Throw msg) ->
  msg = out_of_range_msg.
Proof.
  unfold generateUltraCompactId9, generateUltraCompactId8. cbv zeta.
  destruct ((now - BASE_TIME <? 0) || (now - BASE_TIME >? THREE_YEARS_MS));
    intros [H|H]; congruence.
Qed.

Lemma retryGenerate_outcome (src : IdSource) (maxRetries : nat) :
  randomInRange src ->
  forall n attempt st,
    generatorOutcome st (fst (retryGenerate src maxRetries n attempt st))
                        (snd (retryGenerate src maxRetries n attempt st))
    /\ (id_clock (snd (retryGenerate src maxRetries n attempt st)) <= id_clock st + n)%nat.
Proof.
  intros Hr n. induction n as [|n IH]; intros attempt st.
  - cbn [retryGenerate].
    set (st' := mkIdState _ _ _ _).
    destruct (generateUUID_kind src st' Hr) as (Hty & Hids).
    destruct (generateUUID src st') as [uuid st''] eqn:Eg.
    assert (Hclock : id_clock st'' = id_clock st).
    { unfold generateUUID in Eg.
      destruct (uuidFill (src_random src) uuidTemplate (id_draws st')) as [s k].
      injection Eg as _ <-. reflexivity. }
    assert (Hwarn : id_warnings st'' = (id_warnings st ++ [uuidWarning])%list).
    { unfold generateUUID in Eg.
      destruct (uuidFill (src_random src) uuidTemplate (id_draws st')) as [s k].
      injection Eg as _ <-. reflexivity. }
    cbn [fst snd] in *. split; [|lia].
    right. split; [exact Hty|]. split; [exact Hids | exact Hwarn].
  - cbn [retryGenerate]. cbv zeta.
    destruct (if (attempt <? 5)%nat
              then generateUltraCompactId9 (src_now src (id_clock st))
                     (src_random src (id_draws st))
              else generateUltraCompactId8 (src_now src (id_clock st))
                     (src_random src (id_draws st))) as [id|msg] eqn:Eg.
    + cbn [recentIds id_clock id_draws id_warnings].
      destruct (isIdExists id (recentIds st)) eqn:Hex; cbn [negb].
      * match goal with
        | |- context [retryGenerate src maxRetries n (S attempt) ?s] =>
            destruct (IH (S attempt) s) as [Ho Hc];
            assert (Hids : recentIds s = recentIds st) by (destruct (attempt <? maxRetries - 1)%nat; reflexivity);
            assert (Hw : id_warnings s = id_warnings st) by (destruct (attempt <? maxRetries - 1)%nat; reflexivity);
            assert (Hck : id_clock s = S (id_clock st)) by (destruct (attempt <? maxRetries - 1)%nat; reflexivity);
            destruct (retryGenerate src maxRetries n (S attempt) s) as [r s'] eqn:Er
        end.
        cbn [fst snd] in *. split; [|lia].
        unfold generatorOutcome in *. rewrite Hids, Hw in Ho. exact Ho.
      * cbn [fst snd]. split; [|cbn [id_clock]; lia].
        left. cbn [recentIds id_warnings].
        split; [exact Hex|]. split; [reflexivity|].
        split; [now apply addIdToCache_records | reflexivity].
    + cbn [fst snd]. split; [|cbn [id_clock]; lia].
      cbn [generatorOutcome recentIds id_warnings].
      split; [|split; reflexivity].
      apply (generator_throws_range_error (src_now src (id_clock st))
               (src_random src (id_draws st))).
      destruct (attempt <? 5)%nat; [left | right]; exact Eg.
Qed.

(** X5. A call of [generateUltraCompactIdWithRetry] ends in one of three
    ways. It throws the range error and leaves the cache alone; or it
    returns an identifier that was not in the collision cache and has been
    added to it, without a warning; or it warns once and returns a UUID
    that is not added to the cache. It never makes more than [maxRetries]
    compact identifiers. *)
Theorem generate_with_retry_outcomes (src : IdSource) (maxRetries : nat) (st : IdState) :
  randomInRange src ->
  let result := fst (generateUltraCompactIdWithRetry src maxRetries st) in
  let st' := snd (generateUltraCompactIdWithRetry src maxRetries st) in
  generatorOutcome st result st'
  /\ (id_clock st' <= id_clock st + maxRetries)%nat.
Proof.
  intros Hr. cbv zeta. unfold generateUltraCompactIdWithRetry.
  now apply retryGenerate_outcome.
Qed.

Lemma generate_with_retry_outcomes_witness :
  generatorOutcome idState0
    (fst (generateUltraCompactIdWithRetry (constantSource (BASE_TIME + 394290) (1 # 2)) 10
            idState0))
    (snd (generateUltraCompactIdWithRetry (constantSource (BASE_TIME + 394290) (1 # 2)) 10
            idState0)).
Proof.
  refine (proj1 (generate_with_retry_outcomes
                   (constantSource (BASE_TIME + 394290) (1 # 2)) 10 idState0 _)).
  intros k. split; [discriminate | reflexivity].
Defined.

(** ** Stored and displayed messages *)

(** X6. What the interface shows for a row whose message was stored by
    [generateCompactMessage]: for UP the text made from the monitor type and
    the ping, whatever the original message was; for PENDING the fixed
    waiting text; otherwise the original message, or, when that is empty,
    the fixed text of the status. The displayed text is never empty. *)
Theorem display_of_stored_message (h : Host) (status : Z) (originalMessage : string)
    (ping : option Q) (monitorType : option string) :
  let shown :=
    generateDisplayMessage h status (generateCompactMessage status originalMessage ping)
      ping monitorType in
  shown =
    (if status =? UP then generateDisplayMessage h UP None ping monitorType
     else if status =? PENDING then "等待中"
     else if truthyStr (Some originalMessage) then originalMessage
     else if status =? DOWN then "监控异常"
     else "状态未知")
  /\ shown <> "".
Proof.
  cbv zeta. unfold generateCompactMessage.
  destruct (status =? UP) eqn:Eup.
  - apply Z.eqb_eq in Eup. subst status. split; [reflexivity|].
    unfold generateDisplayMessage. cbn [truthyStr]. change (UP =? UP) with true. cbv iota.
    destruct monitorType as [ty|]; [|discriminate].
    repeat (destruct ty as [|[[] [] [] [] [] [] [] []] ty]; try discriminate);
      destruct (truthyNum ping); discriminate.
  - destruct (status =? DOWN) eqn:Edown.
    + apply Z.eqb_eq in Edown. subst status.
      change (DOWN =? PENDING) with false. cbv iota.
      unfold generateDisplayMessage. change (DOWN =? UP) with false.
      change (DOWN =? DOWN) with true. cbv iota.
      destruct originalMessage as [|c s]; cbn [truthyStr orEmpty]; split;
        try reflexivity; discriminate.
    + destruct (status =? PENDING) eqn:Epend.
      * unfold generateDisplayMessage. cbn [truthyStr orEmpty]. split; [reflexivity|discriminate].
      * unfold generateDisplayMessage. rewrite Eup, Edown, Epend.
        destruct originalMessage as [|c s]; cbn [truthyStr orEmpty]; split;
          try reflexivity; discriminate.
Qed.

(** ** The effort of one monitor check *)

Lemma sleepsOf_app (a b : list Event) : sleepsOf (a ++ b) = (sleepsOf a ++ sleepsOf b)%list.
Proof. unfold sleepsOf. apply flat_map_app. Qed.

Lemma oneProbe_here {A : Type} (run : World -> A * World) (w : World) (evs : list Event) :
  w_trace (snd (run w)) = (w_trace w ++ evs)%list ->
  sleepsOf evs = [] ->
  (w_ios w <= w_ios (snd (run w)) <= S (w_ios w))%nat ->
  exists evs',
    w_trace (snd (run w)) = (w_trace w ++ evs')%list
    /\ sleepsOf evs' = []
    /\ (w_ios w <= w_ios (snd (run w)) <= S (w_ios w))%nat.
Proof. intros H1 H2 H3. now exists evs. Qed.

Lemma oneProbe_externalCheck (net : Net) (name : string) : oneProbe (externalCheck net name).
Proof.
  intros w. apply (oneProbe_here _ w [EvExternalCheck name]); cbn; [reflexivity..|lia].
Qed.

Lemma oneProbe_checkPortSingle (h : Host) (net : Net) (config : MonitorPortConfig) :
  oneProbe (checkPortSingle h net config).
Proof.
  intros w.
  apply (oneProbe_here _ w [EvSocketConnect (orEmpty (port_hostname config))
                              (portNumberOf h (port_port config))]);
    unfold checkPortSingle; cbv zeta;
    destruct (net_socket net (w_ios w)); cbn; try reflexivity; lia.
Qed.

Lemma oneProbe_checkIcmpSingle (h : Host) (net : Net) (config : MonitorIcmpConfig) :
  oneProbe (checkIcmpSingle h net config).
Proof.
  intros w.
  apply (oneProbe_here _ w [EvPing (orEmpty (icmp_hostname config))
                              (default 4 (icmp_packetCount config))]);
    unfold checkIcmpSingle; cbv zeta;
    destruct (net_ping net (w_ios w)) as [p|msg]; cbn [snd];
    repeat match goal with
           | |- context [if ?c then _ else _] => destruct c
           end; cbn; try reflexivity; lia.
Qed.

Lemma oneProbe_checkDatabaseSingle (h : Host) (net : Net) (type : string)
    (config : MonitorDatabaseConfig) :
  oneProbe (checkDatabaseSingle h net type config).
Proof.
  intros w. unfold checkDatabaseSingle.
  assert (Hnone : forall r : CheckResult,
             exists evs, w_trace (snd (r, w)) = (w_trace w ++ evs)%list
                         /\ sleepsOf evs = []
                         /\ (w_ios w <= w_ios (snd (r, w)) <= S (w_ios w))%nat).
  { intros r. exists []. cbn. rewrite app_nil_r. repeat split; lia. }
  destruct (negb (truthyStr (db_hostname config))); [apply Hnone|].
  destruct (db_port config) as [p|] eqn:Ep; [|apply Hnone].
  destruct (type =? "mysql")%string.
  { unfold checkMysql. cbv zeta.
    destruct (portInvalid (portNumberOf h (db_port config))); [apply Hnone|].
    destruct (net_db net (w_ios w)); eexists; cbn [snd emit tick w_trace w_ios];
      rewrite <- ?app_assoc; (split; [reflexivity|]); (split; [reflexivity|lia]). }
  destruct (type =? "redis")%string; [|apply Hnone].
  unfold checkRedis. cbv zeta.
  destruct (portInvalid (portNumberOf h (db_port config))); [apply Hnone|].
  destruct (createClient_throws h (redisUrl h config)); [apply Hnone|].
  destruct (net_db net (w_ios w)), (nonBlank (db_query config));
    eexists; cbn [snd emit tick w_trace w_ios];
    rewrite <- ?app_assoc; (split; [reflexivity|]); (split; [reflexivity|lia]).
Qed.

Lemma oneProbe_resolved {A : Type} (f : A -> World -> CheckResult * World) (a : A) :
  oneProbe (f a) -> oneProbe (resolved f a).
Proof.
  intros H w. destruct (H w) as (evs & H1 & H2 & H3). exists evs.
  unfold resolved. destruct (f a w) as [r w']. cbn [snd] in *. auto.
Qed.

(** The checkers of the sources are called without [retries], so that
    their own retry loops never run: the selected checker is one probe. *)
Lemma source_checker_is_one_probe (h : Host) (net : Net) (cs : Checkers) (monitor : Monitor)
    (config : MonitorConfig) (run : World -> Exc CheckResult * World) :
  chk_port cs = resolved (checkPort h net) ->
  chk_database cs = (fun type => resolved (checkDatabase h net type)) ->
  chk_icmp cs = resolved (checkIcmp h net) ->
  In (m_type monitor) ["port"; "mysql"; "redis"; "icmp"] ->
  selectChecker cs monitor config = Some run -> oneProbe run.
Proof.
  intros Hp Hd Hi Hty. unfold selectChecker. cbv zeta. rewrite Hp, Hd, Hi.
  assert (Hdb : forall type,
             oneProbe (resolved (checkDatabase h net type)
                         (mkDbConfig (cfg_hostname config) (cfg_port config)
                            (cfg_username config) (cfg_password config)
                            (cfg_database config) (cfg_query config) None None))).
  { intros type. apply oneProbe_resolved. intros w. unfold checkDatabase.
    cbn [db_retries default]. change (0 >? 0) with false. cbv zeta.
    destruct (oneProbe_checkDatabaseSingle h net type
                (mkDbConfig (cfg_hostname config) (cfg_port config) (cfg_username config)
                   (cfg_password config) (cfg_database config) (cfg_query config) None None) w)
      as (evs & H1 & H2 & H3).
    exists evs.
    destruct (checkDatabaseSingle h net type _ w) as [r w1].
    destruct (status r =? UP); cbn [snd] in *; auto. }
  destruct Hty as [<- | [<- | [<- | [<- | []]]]]; cbn; intros E; injection E as <-.
  - apply oneProbe_resolved. intros w. unfold checkPort. cbn [port_retries default].
    change (0 =? 0) with true. cbv iota. apply oneProbe_checkPortSingle.
  - apply Hdb.
  - apply Hdb.
  - apply oneProbe_resolved. intros w. unfold checkIcmp. cbn [icmp_retries default].
    change (0 =? 0) with true. cbv iota. apply oneProbe_checkIcmpSingle.
Qed.

Lemma retryLoop_effort (attempt : World -> CheckResult * World) (ri N : Z)
    (result : CheckResult) :
  oneProbe attempt ->
  forall n i w,
    exists evs k,
      w_trace (snd (retryLoop attempt ri N result n i w)) = (w_trace w ++ evs)%list
      /\ sleepsOf evs = repeat (ri * 1000) k
      /\ (k <= n)%nat
      /\ (w_ios w <= w_ios (snd (retryLoop attempt ri N result n i w)) <= w_ios w + k)%nat.
Proof.
  intros Hone n. induction n as [|n IH]; intros i w.
  - exists [], 0%nat. cbn. rewrite app_nil_r. repeat split; lia.
  - cbn [retryLoop]. cbv zeta.
    destruct (Hone (sleep (ri * 1000) w)) as (evs1 & H1 & H2 & H3).
    destruct (attempt (sleep (ri * 1000) w)) as [r w2]. cbn [snd] in H1, H3.
    cbn [sleep emit w_trace w_ios] in H1, H3.
    destruct (status r =? 1).
    + exists (EvSleep (ri * 1000) :: evs1), 1%nat. cbn [snd].
      split; [rewrite H1, <- app_assoc; reflexivity|].
      split.
      { change (EvSleep (ri * 1000) :: evs1)%list with ([EvSleep (ri * 1000)] ++ evs1)%list.
        rewrite sleepsOf_app, H2. reflexivity. }
      split; lia.
    + destruct (IH (i + 1) w2) as (evs2 & k & I1 & I2 & I3 & I4).
      exists (EvSleep (ri * 1000) :: evs1 ++ evs2)%list, (S k).
      split; [rewrite I1, H1, <- !app_assoc; reflexivity|].
      split.
      { change (EvSleep (ri * 1000) :: evs1 ++ evs2)%list
          with ([EvSleep (ri * 1000)] ++ (evs1 ++ evs2))%list.
        rewrite !sleepsOf_app, H2, I2. reflexivity. }
      split; lia.
Qed.

Lemma oneProbe_runOnce (run : World -> Exc CheckResult * World) :
  oneProbe run -> oneProbe (runOnce run).
Proof.
  intros H w. destruct (H w) as (evs & H1 & H2 & H3). exists evs.
  unfold runOnce. destruct (run w) as [[r|msg] w1]; cbn [snd] in *; auto.
Qed.

(** X7. What one call of [executeMonitorCheck] costs for a port, MySQL,
    Redis or ICMP monitor, with the checkers of the sources: it only
    appends to the trace; the sleeps it makes are [k] sleeps of
    [retryInterval * 1000] ms with [k] at most [retries]; and it performs
    at most [1 + k] input/output operations, one for the first run and one
    after each sleep. In particular the retry loops inside the port,
    database and ICMP checkers never run under it. *)
Theorem check_effort_is_bounded (h : Host) (net : Net) (cs : Checkers) (monitor : Monitor)
    (w : World) :
  chk_port cs = resolved (checkPort h net) ->
  chk_database cs = (fun type => resolved (checkDatabase h net type)) ->
  chk_icmp cs = resolved (checkIcmp h net) ->
  In (m_type monitor) ["port"; "mysql"; "redis"; "icmp"] ->
  let w' := snd (executeMonitorCheck h cs monitor w) in
  exists evs k,
    w_trace w' = (w_trace w ++ evs)%list
    /\ sleepsOf evs = repeat (m_retryInterval monitor * 1000) k
    /\ (k <= Z.to_nat (m_retries monitor))%nat
    /\ (w_ios w <= w_ios w' <= w_ios w + 1 + k)%nat.
Proof.
  intros Hcp Hcd Hci Hty. cbv zeta.
  rewrite executeMonitorCheck_unfold. unfold executeMonitorCheck_body.
  assert (Hnone : forall r : CheckResult,
             exists evs k,
               w_trace (snd (r, w)) = (w_trace w ++ evs)%list
               /\ sleepsOf evs = repeat (m_retryInterval monitor * 1000) k
               /\ (k <= Z.to_nat (m_retries monitor))%nat
               /\ (w_ios w <= w_ios (snd (r, w)) <= w_ios w + 1 + k)%nat).
  { intros r. exists [], 0%nat. cbn. rewrite app_nil_r. repeat split; lia. }
  destruct (parseConfig h monitor) as [config|msg] eqn:Hp; [|apply Hnone].
  destruct (selectChecker cs monitor config) as [run|] eqn:Hs; [|apply Hnone].
  pose proof (source_checker_is_one_probe h net cs monitor config run Hcp Hcd Hci Hty Hs)
    as Hone.
  destruct (Hone w) as (evs0 & H1 & H2 & H3).
  destruct (run w) as [[r|msg] w1]; cbn [snd] in H1, H3.
  2:{ exists evs0, 0%nat. cbn [snd repeat]. repeat split; auto; lia. }
  destruct ((status r =? 0) && (m_retries monitor >? 0)).
  2:{ exists evs0, 0%nat. cbn [snd repeat]. repeat split; auto; lia. }
  assert (Hattempt : oneProbe (executeMonitorCheck h cs (withRetries0 monitor))).
  { intros w'.
    rewrite (executeMonitorCheck_once h cs (withRetries0 monitor) config run w' Hp Hs);
      [|simpl; lia].
    now apply oneProbe_runOnce. }
  destruct (retryLoop_effort _ (m_retryInterval monitor) (m_retries monitor) r Hattempt
              (Z.to_nat (m_retries monitor)) 0 w1) as (evs & k & I1 & I2 & I3 & I4).
  exists (evs0 ++ evs)%list, k.
  split; [rewrite I1, H1, <- app_assoc; reflexivity|].
  split; [rewrite sleepsOf_app, H2; exact I2|].
  split; lia.
Qed.

(** A MySQL monitor with three retries whose server refuses every
    connection. *)
Lemma check_effort_is_bounded_witness :
  let w' := snd (executeMonitorCheck sampleHost (checkers sampleHost (flakyNet 0))
                   (databaseMonitor "mysql" 3306 3) world0) in
  exists evs k,
    w_trace w' = (w_trace world0 ++ evs)%list
    /\ sleepsOf evs = repeat (1 * 1000) k
    /\ (k <= 3)%nat
    /\ (w_ios world0 <= w_ios w' <= w_ios world0 + 1 + k)%nat.
Proof.
  apply (check_effort_is_bounded sampleHost (flakyNet 0) (checkers sampleHost (flakyNet 0))
           (databaseMonitor "mysql" 3306 3) world0);
    [reflexivity | reflexivity | reflexivity | simpl; right; left; reflexivity].
Defined.

(** ** One database probe *)


(** A host name that cannot stand in a URL: [createClient] throws, the
    check answers DOWN with that message and the world is as it was. *)
Example redis_client_not_created :
  let host := mkHost sampleMessages parseInt10 (fun q => numToString (Qfloor q))
                (fun ms => numToString ms) (fun _ => Throw "Unexpected token")
                (fun url => if (url =? "redis://bad host:6379")%string
                            then Some "Invalid URL" else None) in
  checkDatabaseSingle host (flakyNet 0) "redis"
    (mkDbConfig (Some "bad host") (Some (PortNum 6379)) None None None None None None) world0
  = (mkResult DOWN "DATABASE_ERROR: Invalid URL" (Some 7%Q), world0).
Proof. vm_compute. reflexivity. Qed.

(** ** The notification engine: silence, reach and restarts *)

Section EngineFurther.

Variable h : Host.
Variable env : EngineEnv.
Variable db : Database.

(** A change to a status other than DOWN that passes the gates is
    announced at once: no throttle and no query stands in its way. *)
Lemma change_call_announces (monitorId message : string) (status : Z)
    (prevStatus : option Z) (st : EngineState) (monitor : MonitorRow) :
  query_fault env QFindMonitor = None ->
  db_monitors db !! monitorId = Some monitor ->
  enabledBindings monitor <> [] ->
  prevStatus <> Some status ->
  status <> DOWN ->
  isNewMonitor db monitorId = false \/ status <> UP ->
  exists st',
    sendStatusChangeNotifications h env db monitorId status message prevStatus st
    = (Ok tt, st')
    /\ announced env st st'
         (if (status =? UP)
             && (if realPrevStatus db monitorId prevStatus is Some 0 then true else false)
             && negb (isNewMonitor db monitorId)
          then recoveryData env (baseData h env monitor status message)
                 (notificationCache st !! monitorId)
          else baseData h env monitor status message)
         (enabledBindings monitor) monitorId status.
Proof.
  intros Hq Hm Hb Hprev Hdown Hnew. unfold UP, DOWN in *.
  unfold sendStatusChangeNotifications, tryCatch, sendStatusChangeNotifications_try.
  unfold bind at 1. unfold query at 1. rewrite Hq, Hm. cbv zeta.
  destruct (enabledBindings monitor) as [|b bs] eqn:Eb; [contradiction|].
  cbn [length Nat.eqb]. rewrite <- Eb.
  rewrite (gate_open db monitorId status prevStatus Hprev).
  assert (Egate : isNewMonitor db monitorId && (status =? 1) = false).
  { destruct Hnew as [-> | Hne]; [reflexivity|].
    apply Z.eqb_neq in Hne. rewrite Hne. apply andb_false_r. }
  rewrite Egate. unfold bind at 1. unfold cacheGet at 1.
  apply Z.eqb_neq in Hdown. rewrite Hdown.
  destruct ((status =? 1)
            && (if realPrevStatus db monitorId prevStatus is Some 0 then true else false)
            && negb (isNewMonitor db monitorId)) eqn:Erec.
  - apply andb_prop in Erec. destruct Erec as [Erec _].
    apply andb_prop in Erec. destruct Erec as [E1 _].
    apply Z.eqb_eq in E1. subst status.
    match goal with |- context [announce _ ?w ?b ?d ?i ?s ?t] =>
      destruct (announce_spec env w b d i s t) as (st' & E & Hann) end.
    rewrite E. now exists st'.
  - match goal with |- context [announce _ ?w ?b ?d ?i ?s ?t] =>
      destruct (announce_spec env w b d i s t) as (st' & E & Hann) end.
    rewrite E. now exists st'.
Qed.

End EngineFurther.

(** X9. The evaluations that send nothing, whatever else holds: a call
    whose previous status equals the new one, a call for a monitor that
    does not exist or has no enabled binding, a call with UP for a monitor
    with at most one row of history, and a call whose first query fails.
    Each completes and leaves the cache, the notifications and the
    dispatches as they were. *)
Theorem silent_evaluations (h : Host) (env : EngineEnv) (db : Database)
    (monitorId message : string) (status : Z) (prevStatus : option Z) (st : EngineState) :
  prevStatus = Some status
  \/ db_monitors db !! monitorId = None
  \/ (exists monitor,
        db_monitors db !! monitorId = Some monitor /\ enabledBindings monitor = [])
  \/ (isNewMonitor db monitorId = true /\ status = UP)
  \/ (exists msg, query_fault env QFindMonitor = Some msg) ->
  exists st',
    sendStatusChangeNotifications h env db monitorId status message prevStatus st
    = (Ok tt, st')
    /\ quiet st st'.
Proof.
  intros Hcase.
  destruct (engine_spec h env db monitorId status message prevStatus st)
    as (st' & E & [Hq | (monitor & data & Hf & Hm & Hb & Hp & Hn & _)]).
  - now exists st'.
  - exfalso. destruct Hcase as [H | [H | [(m & H & H') | [(H & H') | (msg & H)]]]].
    + contradiction.
    + congruence.
    + rewrite Hm in H. injection H as <-. contradiction.
    + rewrite H, H' in Hn. discriminate.
    + congruence.
Qed.

Lemma silent_evaluations_witness :
  exists st',
    sendStatusChangeNotifications sampleHost (calmEnv 120000) (sampleDb 0 [1]) "m1" DOWN
      "HTTP 500" (Some DOWN) freshEngine = (Ok tt, st')
    /\ quiet freshEngine st'.
Proof.
  apply (silent_evaluations sampleHost (calmEnv 120000) (sampleDb 0 [1]) "m1" "HTTP 500"
           DOWN (Some DOWN) freshEngine).
  left. reflexivity.
Defined.

(** X10. What a call can reach. It leaves the cache entries of all other
    monitors alone, decides at most one notification, and only adds
    dispatches: each one goes to an enabled channel that an enabled binding
    of this monitor names, and carries the one payload decided by the
    call. *)
Theorem notification_call_reach (h : Host) (env : EngineEnv) (db : Database)
    (monitorId message : string) (status : Z) (prevStatus : option Z) (st : EngineState) :
  let st' := snd (sendStatusChangeNotifications h env db monitorId status message
                    prevStatus st) in
  (forall other, other <> monitorId ->
                 notificationCache st' !! other = notificationCache st !! other)
  /\ (length (emitted st st') <= 1)%nat
  /\ exists sent,
       st_sent st' = (st_sent st ++ sent)%list
       /\ forall d, In d sent ->
            ch_enabled (d_channel d) = true
            /\ emitted st st' = [d_data d]
            /\ exists monitor b,
                 db_monitors db !! monitorId = Some monitor
                 /\ In b (mon_bindings monitor)
                 /\ bind_enabled b = true
                 /\ bind_channel b = d_channel d.
Proof.
  cbv zeta.
  destruct (engine_spec h env db monitorId status message prevStatus st)
    as (st' & E & [Hq | (monitor & data & Hf & Hm & Hb & Hp & Hn & _ & Hann & _)]);
    rewrite E; cbn [snd].
  - pose proof (emitted_quiet _ _ Hq) as He. destruct Hq as (Hc & _ & Hs).
    split; [intros other _; now rewrite Hc|].
    split; [rewrite He; cbn; lia|].
    exists []. split; [now rewrite Hs, app_nil_r | intros d []].
  - pose proof (emitted_announced _ _ _ _ _ _ _ Hann) as He.
    destruct Hann as (Hc & _ & Hs).
    split; [intros other Hne; rewrite Hc; now apply lookup_insert_ne|].
    split; [rewrite He; cbn; lia|].
    eexists. split; [exact Hs|].
    intros d Hd. apply in_map_iff in Hd. destruct Hd as (c & <- & Hc').
    unfold enabledChannels in Hc'. apply filter_In in Hc'. destruct Hc' as [Hc' Hen].
    apply in_map_iff in Hc'. destruct Hc' as (b & <- & Hbin).
    unfold enabledBindings in Hbin. apply filter_In in Hbin. destruct Hbin as [Hbin Hbe].
    cbn [d_channel d_data]. split; [exact Hen|]. split; [exact He|].
    exists monitor, b. auto.
Qed.

(** X11. A change to a status other than DOWN is never throttled. For a
    monitor that exists with an enabled binding, a call with a status that
    is not DOWN, differs from the previous status passed in, and is not the
    UP of a new monitor, always sends one notification and stores (now,
    status) in the cache, whatever [resendInterval] and the cache hold. The
    payload is the recovery text when the status is UP, the resolved
    previous status is DOWN and the monitor is not new, and the plain text
    otherwise (for PENDING as for any other code). *)
Theorem non_down_change_always_notifies (h : Host) (env : EngineEnv) (db : Database)
    (monitorId message : string) (status : Z) (prevStatus : option Z) (st : EngineState)
    (monitor : MonitorRow) :
  query_fault env QFindMonitor = None ->
  db_monitors db !! monitorId = Some monitor ->
  enabledBindings monitor <> [] ->
  prevStatus <> Some status ->
  status <> DOWN ->
  isNewMonitor db monitorId = false \/ status <> UP ->
  let st' := snd (sendStatusChangeNotifications h env db monitorId status message
                    prevStatus st) in
  emitted st st'
  = [if (status =? UP)
        && (if realPrevStatus db monitorId prevStatus is Some 0 then true else false)
        && negb (isNewMonitor db monitorId)
     then recoveryData env (baseData h env monitor status message)
            (notificationCache st !! monitorId)
     else baseData h env monitor status message]
  /\ notificationCache st' !! monitorId = Some (env_now env, status).
Proof.
  intros Hq Hm Hb Hprev Hdown Hnew. cbv zeta.
  destruct (change_call_announces h env db monitorId message status prevStatus st monitor
              Hq Hm Hb Hprev Hdown Hnew) as (st' & E & Hann).
  rewrite E. cbn [snd].
  split; [exact (emitted_announced _ _ _ _ _ _ _ Hann)|].
  destruct Hann as (Hc & _ & _). rewrite Hc. apply lookup_insert_eq.
Qed.

Lemma non_down_change_always_notifies_witness :
  let st' := snd (sendStatusChangeNotifications sampleHost (calmEnv 120000)
                    (sampleDb 0 [1]) "m1" PENDING "" (Some DOWN) (notifiedDownAt 60500)) in
  emitted (notifiedDownAt 60500) st'
  = [baseData sampleHost (calmEnv 120000) (sampleMonitor 0) PENDING ""]
  /\ notificationCache st' !! "m1" = Some (120000, PENDING).
Proof.
  apply (non_down_change_always_notifies sampleHost (calmEnv 120000) (sampleDb 0 [1]) "m1"
           "" PENDING (Some DOWN) (notifiedDownAt 60500) (sampleMonitor 0));
    [reflexivity | reflexivity | discriminate | discriminate | discriminate
    | left; reflexivity].
Defined.

(** X12. The first evaluation after a restart. With an empty cache entry
    and no previous status passed in, a monitor that exists with an enabled
    binding is notified of whatever status the check found, whether or not
    the history shows a change: the only exception is an UP for a monitor
    with at most one row of history. *)
Theorem first_evaluation_after_restart_notifies (h : Host) (env : EngineEnv)
    (db : Database) (monitorId message : string) (status : Z) (st : EngineState)
    (monitor : MonitorRow) :
  (forall q, query_fault env q = None) ->
  db_monitors db !! monitorId = Some monitor ->
  enabledBindings monitor <> [] ->
  notificationCache st !! monitorId = None ->
  isNewMonitor db monitorId = false \/ status <> UP ->
  let st' := snd (sendStatusChangeNotifications h env db monitorId status message None st) in
  exists data,
    emitted st st' = [data]
    /\ nd_statusCode data = status
    /\ notificationCache st' !! monitorId = Some (env_now env, status)
    /\ st_sent st'
       = (st_sent st
          ++ map (fun c => mkDispatch c data (send_fault env c))
               (enabledChannels (enabledBindings monitor)))%list.
Proof.
  intros Hq Hm Hb Hc Hnew. cbv zeta.
  assert (Hfin : forall st' data,
             announced env st st' data (enabledBindings monitor) monitorId status ->
             nd_statusCode data = status ->
             exists data',
               emitted st st' = [data']
               /\ nd_statusCode data' = status
               /\ notificationCache st' !! monitorId = Some (env_now env, status)
               /\ st_sent st'
                  = (st_sent st
                     ++ map (fun c => mkDispatch c data' (send_fault env c))
                          (enabledChannels (enabledBindings monitor)))%list).
  { intros st' data Hann Hcode. exists data.
    split; [exact (emitted_announced _ _ _ _ _ _ _ Hann)|].
    destruct Hann as (Hc' & _ & Hs).
    split; [exact Hcode|]. split; [rewrite Hc'; apply lookup_insert_eq | exact Hs]. }
  destruct (engine_spec h env db monitorId status message None st)
    as (st1 & E1 & Hspec).
  destruct (Z.eq_dec status 0) as [-> | Hdown].
  - destruct (down_call_announces h env db monitorId message None st monitor Hq Hm Hb)
      as (st' & data & E & Hann).
    + discriminate.
    + unfold repeatDue. rewrite Hc. now destruct (mon_resendInterval monitor >? 0).
    + rewrite E. cbn [snd]. apply (Hfin st' data Hann).
      rewrite E in E1. injection E1 as <-.
      destruct Hspec as [Hquiet | (m & d & _ & _ & _ & _ & _ & _ & Hann' & Hd & _)].
      * pose proof (emitted_quiet _ _ Hquiet) as He.
        rewrite (emitted_announced _ _ _ _ _ _ _ Hann) in He. discriminate.
      * pose proof (emitted_announced _ _ _ _ _ _ _ Hann) as He.
        rewrite (emitted_announced _ _ _ _ _ _ _ Hann') in He. injection He as ->.
        rewrite (Hd eq_refl). reflexivity.
  - destruct (change_call_announces h env db monitorId message status None st monitor
                (Hq QFindMonitor) Hm Hb) as (st' & E & Hann); auto; try discriminate.
    rewrite E. cbn [snd]. apply (Hfin st' _ Hann).
    destruct ((status =? UP) && _ && _); reflexivity.
Qed.

(** After a restart, a monitor whose last two rows are both UP is
    announced as UP again. *)
Lemma first_evaluation_after_restart_notifies_witness :
  let db := mkDatabase (db_monitors (sampleDb 0 []))
              (db_history (sampleDb 0 []) ++ [mkRow "u2" "m1" 1 None None None 60000])%list in
  let st' := snd (sendStatusChangeNotifications sampleHost (calmEnv 60000) db "m1" UP
                    "HTTP 200" None freshEngine) in
  length (emitted freshEngine st') = 1%nat
  /\ notificationCache st' !! "m1" = Some (60000, UP).
Proof.
  intros db.
  destruct (first_evaluation_after_restart_notifies sampleHost (calmEnv 60000) db "m1"
              "HTTP 200" UP freshEngine (sampleMonitor 0)) as (data & H1 & _ & H2 & _);
    [reflexivity | reflexivity | discriminate | reflexivity | left; reflexivity |].
  split; [rewrite H1; reflexivity | exact H2].
Defined.

(** ** The recorder and its neighbours *)

Lemma retryGenerate_out_of_range (src : IdSource) (maxRetries n attempt : nat)
    (st : IdState) :
  src_now src (id_clock st) < BASE_TIME
  \/ BASE_TIME + THREE_YEARS_MS < src_now src (id_clock st) ->
  retryGenerate src maxRetries (S n) attempt st
  = (Throw out_of_range_msg,
     mkIdState (S (id_clock st)) (id_draws st) (recentIds st) (id_warnings st)).
Proof.
  intros Hout.
  assert (G : (src_now src (id_clock st) - BASE_TIME <? 0)
              || (src_now src (id_clock st) - BASE_TIME >? THREE_YEARS_MS) = true).
  { apply orb_true_iff. destruct Hout as [H|H]; [left; apply Z.ltb_lt | right; apply Z.gtb_lt];
      lia. }
  change (retryGenerate src maxRetries (S n) attempt st)
    with (match (if (attempt <? 5)%nat
                 then generateUltraCompactId9 (src_now src (id_clock st))
                        (src_random src (id_draws st))
                 else generateUltraCompactId8 (src_now src (id_clock st))
                        (src_random src (id_draws st))) with
          | Throw msg =>
              (Throw msg, mkIdState (S (id_clock st)) (id_draws st) (recentIds st)
                            (id_warnings st))
          | Ok id =>
              let st1 := mkIdState (S (id_clock st)) (S (id_draws st)) (recentIds st)
                           (id_warnings st) in
              if negb (isIdExists id (recentIds st1))
              then (Ok id, mkIdState (id_clock st1) (id_draws st1)
                             (addIdToCache id (recentIds st1)) (id_warnings st1))
              else
                retryGenerate src maxRetries n (S attempt)
                  (if (attempt <? maxRetries - 1)%nat
                   then mkIdState (id_clock st1) (S (id_draws st1)) (recentIds st1)
                          (id_warnings st1)
                   else st1)
          end).
  unfold generateUltraCompactId9, generateUltraCompactId8. cbv zeta. rewrite G.
  now destruct (attempt <? 5)%nat.
Qed.

(** X13. Outside the three years that start at the epoch of the
    identifiers, nothing is recorded: [generateUltraCompactId] throws the
    range error on its first attempt, without a retry, a fallback or a
    change of the collision cache, and [recordMonitorStatus] logs it and
    rethrows it before any write. *)
Theorem recording_stops_outside_the_id_window (src : IdSource) (st : IdState)
    (faults : WriteFaults) (timestamp now : Z) (params : RecordStatusParams)
    (db : Database) :
  src_now src (id_clock st) < BASE_TIME
  \/ BASE_TIME + THREE_YEARS_MS < src_now src (id_clock st) ->
  let newId := fst (generateUltraCompactId src st) in
  newId = Throw out_of_range_msg
  /\ recentIds (snd (generateUltraCompactId src st)) = recentIds st
  /\ id_warnings (snd (generateUltraCompactId src st)) = id_warnings st
  /\ recordMonitorStatus faults newId timestamp now params db
     = (Throw out_of_range_msg, db, ["记录监控状态失败: " ++ out_of_range_msg]).
Proof.
  intros Hout. cbv zeta.
  assert (E : generateUltraCompactId src st
              = (Throw out_of_range_msg,
                 mkIdState (S (id_clock st)) (id_draws st) (recentIds st) (id_warnings st))).
  { unfold generateUltraCompactId, generateUltraCompactIdWithRetry.
    now apply (retryGenerate_out_of_range src 10 9 0 st). }
  rewrite E. cbn [fst snd recentIds id_warnings]. repeat split.
Qed.

Lemma recording_stops_outside_the_id_window_witness :
  recordMonitorStatus noFaults
    (fst (generateUltraCompactId
            (constantSource (BASE_TIME + THREE_YEARS_MS + 1) (1 # 2)) idState0))
    (BASE_TIME + THREE_YEARS_MS + 1) (BASE_TIME + THREE_YEARS_MS + 2)
    (mkParams "m1" DOWN "HTTP 500" None None None) (sampleDb 0 [])
  = (Throw out_of_range_msg, sampleDb 0 [], ["记录监控状态失败: " ++ out_of_range_msg]).
Proof.
  refine (proj2 (proj2 (proj2
            (recording_stops_outside_the_id_window
               (constantSource (BASE_TIME + THREE_YEARS_MS + 1) (1 # 2)) idState0 noFaults
               (BASE_TIME + THREE_YEARS_MS + 1) (BASE_TIME + THREE_YEARS_MS + 2)
               (mkParams "m1" DOWN "HTTP 500" None None None) (sampleDb 0 []) _)))).
  right. simpl. unfold BASE_TIME, THREE_YEARS_MS. lia.
Defined.

(** X14. What the recorder leaves alone, whether it succeeds or fails: the
    rows already in the history, every other monitor, and the name, type,
    configuration, resend interval and bindings of the monitor itself. It
    never creates a monitor. *)
Theorem recorder_frame (faults : WriteFaults) (newId : Exc string) (timestamp now : Z)
    (params : RecordStatusParams) (db : Database) :
  let db' := snd (fst (recordMonitorStatus faults newId timestamp now params db)) in
  (exists added, db_history db' = (db_history db ++ added)%list /\ (length added <= 1)%nat)
  /\ (forall other, other <> p_monitorId params ->
                    db_monitors db' !! other = db_monitors db !! other)
  /\ match db_monitors db !! p_monitorId params, db_monitors db' !! p_monitorId params with
     | Some m, Some m' =>
         mon_name m' = mon_name m /\ mon_type m' = mon_type m /\ mon_config m' = mon_config m
         /\ mon_resendInterval m' = mon_resendInterval m
         /\ mon_bindings m' = mon_bindings m
     | None, None => True
     | _, _ => False
     end.
Proof.
  cbv zeta. unfold recordMonitorStatus.
  assert (Hsame : forall history added,
             history = (db_history db ++ added)%list -> (length added <= 1)%nat ->
             (exists added', history = (db_history db ++ added')%list
                             /\ (length added' <= 1)%nat)
             /\ (forall other, other <> p_monitorId params ->
                               db_monitors db !! other = db_monitors db !! other)
             /\ match db_monitors db !! p_monitorId params,
                      db_monitors db !! p_monitorId params with
                | Some m, Some m' =>
                    mon_name m' = mon_name m /\ mon_type m' = mon_type m
                    /\ mon_config m' = mon_config m
                    /\ mon_resendInterval m' = mon_resendInterval m
                    /\ mon_bindings m' = mon_bindings m
                | None, None => True
                | _, _ => False
                end).
  { intros history added Hh Hl. split; [now exists added|]. split; [reflexivity|].
    destruct (db_monitors db !! p_monitorId params); auto. }
  destruct newId as [id|msg]; cbn [fst snd].
  2:{ apply (Hsame _ []); [now rewrite app_nil_r | cbn; lia]. }
  destruct (create_fault faults) as [msg|]; cbn [fst snd].
  { apply (Hsame _ []); [now rewrite app_nil_r | cbn; lia]. }
  cbn [db_monitors db_history].
  destruct (update_fault faults) as [msg|]; cbn [fst snd db_monitors db_history].
  { eapply Hsame; [reflexivity | cbn; lia]. }
  destruct (db_monitors db !! p_monitorId params) as [m|] eqn:Em;
    cbn [fst snd db_monitors db_history].
  - split; [eexists; split; [reflexivity | cbn; lia]|].
    split; [intros other Hne; now apply lookup_insert_ne|].
    rewrite lookup_insert_eq. cbn. repeat split.
  - split; [eexists; split; [reflexivity | cbn; lia]|].
    split; [reflexivity|]. now rewrite Em.
Qed.

Lemma no_rows_of_monitor (monitorId : string) (rows : list MonitorStatus) :
  filter (ofMonitor monitorId) rows = [] ->
  forall p : MonitorStatus -> bool,
    filter (fun r => ofMonitor monitorId r && p r) rows = [].
Proof.
  intros Hnone p. induction rows as [|r rows IH]; [reflexivity|].
  cbn [filter] in Hnone |- *. destruct (ofMonitor monitorId r) eqn:Eo.
  - discriminate.
  - cbn [andb]. now apply IH.
Qed.

Lemma filter_statusSince_as_and (monitorId : string) (status since : Z)
    (rows : list MonitorStatus) :
  filter (statusSince monitorId status since) rows
  = filter (fun r => ofMonitor monitorId r
                     && ((row_status r =? status) && (since <? row_timestamp r))) rows.
Proof.
  apply filter_ext. intros r. unfold statusSince. now rewrite andb_assoc.
Qed.

(** X15. The first check of a monitor, recorded and then evaluated. For a
    monitor with an enabled binding and no history, after
    [recordMonitorStatus] has written the result in a row stamped
    [t > 0], the monitor counts as new: an UP result sends nothing, and a DOWN result
    sends the aggregated notification with a failure count of 1, the
    recorded row as first failure and the whole minutes since [t] as
    duration. *)
Theorem first_check_recorded_then_evaluated (h : Host) (env : EngineEnv) (db : Database)
    (id : string) (t checkedAt : Z) (params : RecordStatusParams) (st : EngineState)
    (monitor : MonitorRow) :
  (forall q, query_fault env q = None) ->
  db_monitors db !! p_monitorId params = Some monitor ->
  enabledBindings monitor <> [] ->
  filter (ofMonitor (p_monitorId params)) (db_history db) = [] ->
  notificationCache st !! p_monitorId params = None ->
  0 < t ->
  let db' := snd (fst (recordMonitorStatus noFaults (Ok id) t checkedAt params db)) in
  let st' := snd (sendStatusChangeNotifications h env db' (p_monitorId params)
                    (p_status params) (p_message params) None st) in
  isNewMonitor db' (p_monitorId params) = true
  /\ (p_status params = UP -> quiet st st')
  /\ (p_status params = DOWN ->
      exists data,
        emitted st st' = [data]
        /\ nd_failureCount data = Some 1
        /\ nd_firstFailureTime data = Some (formatDateTime h t)
        /\ nd_failureDuration data = Some ((env_now env - t) / 1000 / 60)).
Proof.
  intros Hq Hm Hb Hnone Hc Ht. cbv zeta.
  set (monitorId := p_monitorId params) in *.
  unfold recordMonitorStatus. cbn [create_fault update_fault noFaults db_monitors db_history].
  fold monitorId. rewrite Hm. cbn [fst snd].
  set (row := mkRow id monitorId (p_status params) _ (p_ping params) (p_details params) t).
  set (m' := mkMonitorRow _ _ _ _ _ _ _ _ _).
  set (db' := mkDatabase _ _).
  assert (Hof : ofMonitor monitorId row = true) by apply String.eqb_refl.
  assert (Hrows : filter (ofMonitor monitorId) (db_history db') = [row]).
  { unfold db'. cbn [db_history]. rewrite filter_app, Hnone. cbn [filter]. now rewrite Hof. }
  assert (Hnew : isNewMonitor db' monitorId = true).
  { unfold isNewMonitor, statusHistory. rewrite Hrows. reflexivity. }
  assert (Hm' : db_monitors db' !! monitorId = Some m') by apply lookup_insert_eq.
  assert (Hb' : enabledBindings m' <> []) by exact Hb.
  split; [exact Hnew|]. split.
  - intros Hup.
    destruct (engine_spec h env db' monitorId (p_status params) (p_message params) None st)
      as (st' & E & [Hquiet | (m & d & _ & _ & _ & _ & Hgate & _)]);
      rewrite E; cbn [snd]; [exact Hquiet|].
    rewrite Hnew, Hup in Hgate. discriminate.
  - intros Hdown. rewrite Hdown. unfold DOWN.
    destruct (down_call_announces h env db' monitorId (p_message params) None st m' Hq Hm' Hb')
      as (st' & data & E & Hann).
    + discriminate.
    + unfold repeatDue. rewrite Hc. now destruct (mon_resendInterval m' >? 0).
    + rewrite E. cbn [snd]. exists data.
      split; [exact (emitted_announced _ _ _ _ _ _ _ Hann)|].
      destruct (engine_spec h env db' monitorId 0 (p_message params) None st)
        as (st1 & E1 & Hspec).
      rewrite E in E1. injection E1 as <-.
      destruct Hspec as [Hquiet | (m & d & _ & Hm2 & _ & _ & _ & _ & Hann' & Hd & _)].
      { pose proof (emitted_quiet _ _ Hquiet) as He.
        rewrite (emitted_announced _ _ _ _ _ _ _ Hann) in He. discriminate. }
      pose proof (emitted_announced _ _ _ _ _ _ _ Hann) as He.
      rewrite (emitted_announced _ _ _ _ _ _ _ Hann') in He. injection He as ->.
      specialize (Hd eq_refl). cbv zeta in Hd.
      assert (Hups : findFirst (withStatus monitorId 1) desc db' = None).
      { unfold findFirst, db'. cbn [db_history]. rewrite filter_app.
        unfold withStatus at 1.
        rewrite (no_rows_of_monitor monitorId _ Hnone (fun r => row_status r =? 1)).
        cbn [filter app]. unfold withStatus. rewrite Hof. cbn [andb row_status row].
        rewrite Hdown. reflexivity. }
      rewrite Hups in Hd.
      assert (Hdowns : filter (statusSince monitorId 0 0) (db_history db') = [row]).
      { unfold db'. cbn [db_history]. rewrite filter_app.
        rewrite (filter_statusSince_as_and monitorId 0 0 (db_history db)).
        rewrite (no_rows_of_monitor monitorId _ Hnone).
        cbn [filter app]. unfold statusSince. rewrite Hof. cbn [andb row_status row].
        rewrite Hdown. change (row_timestamp row) with t.
        assert (G : (0 <? t) = true) by now apply Z.ltb_lt.
        rewrite G. reflexivity. }
      unfold count, findFirst in Hd. rewrite Hdowns in Hd.
      cbn [length orderBy fold_right insertBy head] in Hd.
      rewrite Hd. unfold aggregatedData. cbn [nd_failureCount nd_firstFailureTime
        nd_failureDuration row_timestamp row]. repeat split.
Qed.

Lemma first_check_recorded_then_evaluated_witness :
  let db := mkDatabase (db_monitors (sampleDb 0 [])) [] in
  let params := mkParams "m1" DOWN "HTTP 500" None None None in
  let db' := snd (fst (recordMonitorStatus noFaults (Ok "000001abc") 60000 60002 params
                         db)) in
  isNewMonitor db' "m1" = true.
Proof.
  intros db params.
  refine (proj1 (first_check_recorded_then_evaluated sampleHost (calmEnv 60500) db
                   "000001abc" 60000 60002 params freshEngine (sampleMonitor 0) _ _ _ _ _ _));
    [reflexivity | reflexivity | discriminate | reflexivity | reflexivity | lia].
Defined.

(** ** The longer identifiers of compact-id.ts *)

Lemma takeClass_length (p : ascii -> bool) (n : nat) :
  forall s s', takeClass p n s = Some s' -> String.length s = (n + String.length s')%nat.
Proof.
  induction n as [|n IH]; intros s s' H; cbn [takeClass] in H.
  - injection H as <-. reflexivity.
  - destruct s as [|c s]; [discriminate|]. destruct (p c); [|discriminate].
    apply IH in H. cbn [String.length]. lia.
Qed.

Lemma takeDash_length (s s' : string) :
  takeDash s = Some s' -> String.length s = S (String.length s').
Proof.
  unfold takeDash. destruct s as [|c s]; [discriminate|].
  destruct c as [[] [] [] [] [] [] [] []]; try discriminate.
  intros H. injection H as <-. reflexivity.
Qed.

Lemma matchesUuid_length (s : string) : matchesUuid s = true -> String.length s = 36%nat.
Proof.
  unfold matchesUuid. intros H.
  repeat match type of H with
  | match takeClass ?p ?n ?x with _ => _ end = true =>
      let E := fresh "E" in
      destruct (takeClass p n x) as [?s|] eqn:E;
        [apply takeClass_length in E | discriminate]
  | match takeDash ?x with _ => _ end = true =>
      let E := fresh "E" in
      destruct (takeDash x) as [?s|] eqn:E;
        [apply takeDash_length in E | discriminate]
  end.
  match type of H with
  | match ?x with _ => _ end = true => destruct x; [|discriminate]
  end.
  cbn [String.length] in *. lia.
Qed.

Lemma string_split (m : nat) :
  forall s, (m <= String.length s)%nat ->
            exists b, s = substring 0 m s ++ b
                      /\ String.length b = (String.length s - m)%nat.
Proof.
  induction m as [|m IH]; intros s Hm.
  - exists s. destruct s; cbn; split; reflexivity.
  - destruct s as [|c s]; [cbn in Hm; lia|]. cbn [String.length] in Hm.
    destruct (IH s) as (b & Hs & Hb); [lia|].
    exists b. cbn [substring String.append String.length]. split; [now rewrite <- Hs | lia].
Qed.

Lemma substring0_app (m : nat) (s t : string) :
  (m <= String.length s)%nat -> substring 0 m (s ++ t) = substring 0 m s.
Proof.
  intros Hm. destruct (string_split m s Hm) as (b & Hs & Hb).
  rewrite Hs at 1. rewrite app_string_assoc.
  rewrite <- (length_substring0 m s Hm) at 1. apply substring_prefix.
Qed.

Lemma random_part (random : Q) :
  (0 <= random < 1)%Q ->
  let part := toString36 (Qfloor (random * 1296)) in
  allChars isLowerAlnum part = true /\ (1 <= String.length part <= 2)%nat.
Proof.
  intros Hr part.
  pose proof (random_slot_bounds random 1296 ltac:(lia) Hr) as Hb.
  change (inject_Z 1296) with 1296%Q in Hb.
  destruct (toString36_spec _ (proj1 Hb)) as (Hall & _ & Hlen & Hshort).
  specialize (Hshort 2%nat ltac:(lia) (proj2 Hb)). now split.
Qed.

(** X16. The timestamp of [generateCompactId] is not read back by
    [extractTimestampFromCompactId]. For a clock between 36^7 and 36^8 ms
    (1972 to 2059) the identifier is the 8-character timestamp followed by
    2 to 4 random characters, and [getIdType] classes it as compact; but
    the extractor cuts 6 characters, so with [k] random characters it
    returns the timestamp divided by 36^(6-k): at most a 1296th of the
    clock. *)
Theorem compact_id_timestamp_is_cut_short (now : Z) (random1 random2 : Q) :
  36 ^ 7 <= now < 36 ^ 8 -> (0 <= random1 < 1)%Q -> (0 <= random2 < 1)%Q ->
  let id := generateCompactId now random1 random2 in
  let k := randomWidth random1 random2 in
  String.length id = (8 + k)%nat
  /\ (2 <= k <= 4)%nat
  /\ getIdType id = IdCompact
  /\ extractTimestampFromCompactId id = Some (Some (now / 36 ^ Z.of_nat (6 - k)))
  /\ now / 36 ^ Z.of_nat (6 - k) * 1296 <= now.
Proof.
  intros Hnow Hr1 Hr2. cbv zeta. unfold generateCompactId, randomWidth. cbv zeta.
  destruct (random_part random1 Hr1) as (Ha1 & Hl1).
  destruct (random_part random2 Hr2) as (Ha2 & Hl2).
  set (r1 := toString36 (Qfloor (random1 * 1296))) in *.
  set (r2 := toString36 (Qfloor (random2 * 1296))) in *.
  assert (Hn0 : 0 <= now) by lia.
  destruct (toString36_spec now Hn0) as (Hall & Hparse & _ & Hshort).
  specialize (Hshort 8%nat ltac:(lia) (proj2 Hnow)).
  set (ts := toString36 now) in *.
  assert (Hlong : (8 <= String.length ts)%nat).
  { destruct (parseDigits36_value ts Hall 0) as [_ Hb]. rewrite Hparse in Hb.
    destruct (le_lt_dec 8 (String.length ts)) as [|Hlt]; [assumption|].
    exfalso.
    assert (36 ^ Z.of_nat (String.length ts) <= 36 ^ 7) by (apply Z.pow_le_mono_r; lia).
    lia. }
  assert (Hts : String.length ts = 8%nat) by lia.
  set (k := (String.length r1 + String.length r2)%nat).
  assert (Hk : (2 <= k <= 4)%nat) by (unfold k; lia).
  assert (Hlen : String.length (ts ++ r1 ++ r2) = (8 + k)%nat).
  { rewrite !length_app_string, Hts. unfold k. lia. }
  assert (Hchars : allChars isLowerAlnum (ts ++ r1 ++ r2) = true).
  { now rewrite !allChars_app, Hall, Ha1, Ha2. }
  assert (Htype : getIdType (ts ++ r1 ++ r2) = IdCompact).
  { unfold getIdType.
    destruct (matchesUuid (ts ++ r1 ++ r2)) eqn:Eu.
    { apply matchesUuid_length in Eu. lia. }
    destruct (matchesCuid (ts ++ r1 ++ r2)) eqn:Ec.
    { unfold matchesCuid in Ec. destruct (ts ++ r1 ++ r2) as [|c rest]; [discriminate|].
      destruct c as [[] [] [] [] [] [] [] []]; try discriminate.
      apply andb_prop in Ec. destruct Ec as [_ Ec]. apply Nat.eqb_eq in Ec.
      cbn [String.length] in Hlen. lia. }
    unfold lowerAlnumOfLength. rewrite Hchars, Hlen. cbn [andb].
    assert (E1 : (8 + k <=? 8)%nat = false) by (apply Nat.leb_gt; lia).
    assert (E2 : (9 <=? 8 + k)%nat = true) by (apply Nat.leb_le; lia).
    assert (E3 : (8 + k <=? 15)%nat = true) by (apply Nat.leb_le; lia).
    rewrite E1, E2, E3, andb_false_r. reflexivity. }
  split; [exact Hlen|]. split; [exact Hk|]. split; [exact Htype|].
  assert (Hcut : dropLast 6 (ts ++ r1 ++ r2) = substring 0 (2 + k) ts).
  { unfold dropLast. rewrite Hlen.
    replace (8 + k - 6)%nat with (2 + k)%nat by lia.
    apply substring0_app. lia. }
  destruct (string_split (2 + k) ts ltac:(lia)) as (b & Hsplit & Hb).
  set (a := substring 0 (2 + k) ts) in *.
  assert (Hla : String.length a = (2 + k)%nat) by (apply length_substring0; lia).
  assert (Haa : allChars isLowerAlnum a = true) by now apply allChars_substring0.
  assert (Hab : allChars isLowerAlnum b = true).
  { rewrite Hsplit, allChars_app, Haa in Hall. exact Hall. }
  assert (Hval : parseDigits36 a 0 = now / 36 ^ Z.of_nat (6 - k)).
  { rewrite Hsplit, (parseDigits36_app a b 0 Haa) in Hparse.
    destruct (parseDigits36_value b Hab (parseDigits36 a 0)) as [Hv Hbound].
    rewrite Hv in Hparse.
    replace (String.length b) with (6 - k)%nat in * by lia.
    apply Z.div_unique with (r := parseDigits36 b 0); [left; exact Hbound|].
    lia. }
  split.
  - unfold extractTimestampFromCompactId, isCompactId. rewrite Htype, Hlen, Hcut.
    assert (E : (8 + k <? 8)%nat = false) by (apply Nat.ltb_ge; lia).
    rewrite E. cbn [negb orb]. fold a.
    destruct (parseInt36_value a Haa ltac:(lia)) as (v & Hp & _).
    unfold parseInt36 in Hp |- *. destruct a as [|c a']; [discriminate|].
    destruct (digitValue c); [|discriminate]. now rewrite <- Hval.
  - assert (Hpow : 1296 <= 36 ^ Z.of_nat (6 - k)).
    { change 1296 with (36 ^ 2). apply Z.pow_le_mono_r; lia. }
    assert (Hq : 0 <= now / 36 ^ Z.of_nat (6 - k)) by (apply Z.div_pos; lia).
    pose proof (Z.mul_div_le now (36 ^ Z.of_nat (6 - k)) ltac:(lia)) as Hmul.
    nia.
Qed.

Lemma compact_id_timestamp_is_cut_short_witness :
  extractTimestampFromCompactId (generateCompactId 1704067594290 (1 # 2) (1 # 100))
  = Some (Some (1704067594290 / 36 ^ Z.of_nat (6 - randomWidth (1 # 2) (1 # 100)))).
Proof.
  refine (proj1 (proj2 (proj2 (proj2
            (compact_id_timestamp_is_cut_short 1704067594290 (1 # 2) (1 # 100) _ _ _)))));
    [lia | split; [discriminate | reflexivity] | split; [discriminate | reflexivity]].
Defined.

Lemma kind_by_length (id : string) :
  isUltraCompactId id = true ->
  getIdType id = if (String.length id <=? 8)%nat then IdUltraCompact else IdCompact.
Proof.
  unfold isUltraCompactId. intros H.
  apply andb_prop in H. destruct H as [H H9]. apply andb_prop in H. destruct H as [Hall H6].
  apply Nat.leb_le in H6, H9. unfold getIdType.
  destruct (matchesUuid id) eqn:Eu.
  { apply matchesUuid_length in Eu. lia. }
  destruct (matchesCuid id) eqn:Ec.
  { unfold matchesCuid in Ec. destruct id as [|c rest]; [discriminate|].
    destruct c as [[] [] [] [] [] [] [] []]; try discriminate.
    apply andb_prop in Ec. destruct Ec as [_ Ec]. apply Nat.eqb_eq in Ec.
    cbn [String.length] in H9. lia. }
  unfold lowerAlnumOfLength. rewrite Hall. cbn [andb].
  assert (E6 : (6 <=? String.length id)%nat = true) by now apply Nat.leb_le.
  rewrite E6. cbn [andb].
  destruct (String.length id <=? 8)%nat eqn:E8; [reflexivity|].
  apply Nat.leb_gt in E8.
  assert (E9 : (9 <=? String.length id)%nat = true) by (apply Nat.leb_le; lia).
  assert (E15 : (String.length id <=? 15)%nat = true) by (apply Nat.leb_le; lia).
  now rewrite E9, E15.
Qed.

Lemma kind_of_generated (gen : Z -> Q -> Exc string) (len : nat) (prefixLen : Z)
    (now : Z) (random : Q) :
  reads_back_within gen len prefixLen 1 now random ->
  makesKind gen now random (if (len <=? 8)%nat then IdUltraCompact else IdCompact).
Proof.
  intros (id & t & Hgen & Hlen & Hext & _). exists id. split; [exact Hgen|].
  assert (Hu : isUltraCompactId id = true).
  { unfold extractTimeFromUltraCompactId in Hext.
    destruct (isUltraCompactId id); [reflexivity | discriminate]. }
  split; [exact Hu|]. rewrite (kind_by_length id Hu), Hlen. reflexivity.
Qed.

(** X17. The two modules do not agree on the kinds of identifiers. Within
    the three years after the epoch, the 7- and 8-character identifiers
    are ultra-compact for both; the 9-character identifier, which the
    default generator makes first, is accepted by [isUltraCompactId] of
    ultra-compact-id.ts but classed as compact by [getIdType] of
    compact-id.ts. *)
Theorem nine_character_ids_are_classed_compact (now : Z) (random : Q) :
  0 <= now - BASE_TIME < THREE_YEARS_MS -> (0 <= random < 1)%Q ->
  makesKind generateUltraCompactId7 now random IdUltraCompact
  /\ makesKind generateUltraCompactId8 now random IdUltraCompact
  /\ makesKind generateUltraCompactId9 now random IdCompact.
Proof.
  intros Hnow Hr.
  split; [exact (kind_of_generated _ 7 4 now random (id7_reads_back now random Hnow Hr))|].
  split; [exact (kind_of_generated _ 8 5 now random (id8_reads_back now random Hnow Hr))|].
  exact (kind_of_generated _ 9 6 now random (id9_reads_back now random Hnow Hr)).
Qed.

Lemma nine_character_ids_are_classed_compact_witness :
  makesKind generateUltraCompactId9 (BASE_TIME + 394290) (1 # 2) IdCompact.
Proof.
  refine (proj2 (proj2 (nine_character_ids_are_classed_compact (BASE_TIME + 394290) (1 # 2)
                          _ _)));
    [unfold BASE_TIME, THREE_YEARS_MS; lia | split; [discriminate | reflexivity]].
Defined.

(** ** The address field of the webhook payload *)

Lemma stripPrefix_app (p x : string) : stripPrefix p (p ++ x) = Some x.
Proof.
  induction p as [|a p IH]; [reflexivity|].
  cbn [String.append stripPrefix]. now rewrite Ascii.eqb_refl.
Qed.

Lemma matchAddress_here (m rest a : string) :
  stripPrefix addressLabel m = Some rest -> captureLine rest = Some a ->
  matchAddress m = Some a.
Proof. intros Hs Hc. destruct m; cbn [matchAddress]; now rewrite Hs, Hc. Qed.

Lemma matchAddress_skip (c : ascii) (s : string) :
  stripPrefix addressLabel (String c s) = None ->
  matchAddress (String c s) = matchAddress s.
Proof. intros Hs. cbn [matchAddress]. now rewrite Hs. Qed.

Lemma matchAddress_skip_plain (p s : string) :
  plainText p = true -> matchAddress (p ++ s) = matchAddress s.
Proof.
  unfold plainText. induction p as [|c p IH]; intros Hp; [reflexivity|].
  cbn [allChars] in Hp. apply andb_prop in Hp. destruct Hp as [Hc Hp].
  cbn [String.append]. rewrite matchAddress_skip; [now apply IH|].
  unfold addressLabel. cbn [stripPrefix]. rewrite Ascii.eqb_sym.
  apply negb_true_iff in Hc. now rewrite Hc.
Qed.

Lemma lineTerminator_lookahead (c : ascii) (a m : string) :
  startsWithLineTerminator (String c a) = false ->
  startsWithLineTerminator (String c (a ++ nl ++ m)) = false.
Proof.
  unfold startsWithLineTerminator.
  destruct (Ascii.eqb c "010" || Ascii.eqb c "013"); [discriminate|]. cbn [orb].
  destruct (Ascii.eqb c "226"); [|reflexivity]. cbn [andb].
  destruct a as [|c2 [|c3 a]]; cbn [String.append nl].
  - intros _. destruct m; reflexivity.
  - intros _. destruct (Ascii.eqb c2 "128"); reflexivity.
  - trivial.
Qed.

Lemma captureLine_single (a m : string) :
  singleLine a = true -> captureLine (a ++ nl ++ m) = Some a.
Proof.
  induction a as [|c a IH]; intros Ha.
  - reflexivity.
  - cbn [singleLine] in Ha. apply andb_prop in Ha. destruct Ha as [Hc Ha].
    apply negb_true_iff in Hc.
    change ((String c a) ++ nl ++ m) with (String c (a ++ nl ++ m)).
    cbn [captureLine].
    rewrite (lineTerminator_lookahead c a m Hc).
    assert (Hlf : Ascii.eqb c "010" = false).
    { unfold startsWithLineTerminator in Hc.
      destruct (Ascii.eqb c "010"); [discriminate | reflexivity]. }
    rewrite Hlf, (IH Ha). reflexivity.
Qed.

Lemma string_of_uint_plain (d : Decimal.uint) :
  plainText (NilEmpty.string_of_uint d) = true.
Proof. unfold plainText. induction d; cbn; auto. Qed.

Lemma numToString_plain (n : Z) : plainText (numToString n) = true.
Proof.
  unfold numToString, NilZero.string_of_int, NilZero.string_of_uint.
  destruct (Z.to_int n) as [d|d]; destruct d; try reflexivity;
    first [ apply (string_of_uint_plain (Decimal.D0 _))
          | apply (string_of_uint_plain (Decimal.D1 _))
          | apply (string_of_uint_plain (Decimal.D2 _))
          | apply (string_of_uint_plain (Decimal.D3 _))
          | apply (string_of_uint_plain (Decimal.D4 _))
          | apply (string_of_uint_plain (Decimal.D5 _))
          | apply (string_of_uint_plain (Decimal.D6 _))
          | apply (string_of_uint_plain (Decimal.D7 _))
          | apply (string_of_uint_plain (Decimal.D8 _))
          | apply (string_of_uint_plain (Decimal.D9 _))
          | (unfold plainText; cbn [allChars]; apply (string_of_uint_plain _)) ].
Qed.

Lemma withAddress_addressOf (h : Host) (c : MonitorConfig) (m : string) :
  withAddress h (Some c) m
  = match addressOf h c with
    | Some a => addressLabel ++ a ++ nl ++ m
    | None => m
    end.
Proof.
  unfold withAddress, addressOf.
  destruct (truthyStr (cfg_url c)); [reflexivity|].
  destruct (truthyStr (cfg_hostname c)); reflexivity.
Qed.

Lemma addressOf_nonempty (h : Host) (c : MonitorConfig) (a : string) :
  addressOf h c = Some a -> a <> "".
Proof.
  unfold addressOf.
  destruct (cfg_url c) as [[|x u]|]; cbn [truthyStr orEmpty].
  2:{ intros H. injection H as <-. discriminate. }
  all: destruct (cfg_hostname c) as [[|y hn]|]; cbn [truthyStr orEmpty]; try discriminate;
    intros H; injection H as <-;
    destruct (truthyPort (cfg_port c)); discriminate.
Qed.

Lemma webhookAddress_via (d : NotificationData) (a m : string) :
  matchAddress (nd_message d) = matchAddress (addressLabel ++ a ++ nl ++ m) ->
  singleLine a = true -> a <> "" ->
  webhookAddress d = Some a.
Proof.
  intros Hm Ha Hne. unfold webhookAddress. rewrite Hm.
  rewrite (matchAddress_here _ (a ++ nl ++ m) a).
  - destruct a; [contradiction | reflexivity].
  - apply stripPrefix_app.
  - now apply captureLine_single.
Qed.

Ltac skip_lead :=
  repeat first
    [ rewrite matchAddress_skip by reflexivity
    | rewrite matchAddress_skip_plain by (first [apply numToString_plain | assumption])
    | rewrite app_string_assoc
    | progress cbn [String.append] ].

(** X18. The address field of the default webhook payload. For a monitor
    whose configuration has a URL or a host name, without line terminators
    in the address, the address that [sendWebhookNotification] extracts
    from the message is the address the engine wrote after the label: for
    the plain payload, for the recovery payload, and for the aggregated
    DOWN payload when the time of the first failure is rendered without
    the byte that starts the label. *)
Theorem webhook_address_is_the_monitor_address (h : Host) (env : EngineEnv)
    (monitor : MonitorRow) (status : Z) (message : string) (config : MonitorConfig)
    (address : string) :
  mon_config monitor = Some config ->
  addressOf h config = Some address ->
  singleLine address = true ->
  let base := baseData h env monitor status message in
  webhookAddress base = Some address
  /\ (forall last, webhookAddress (recoveryData env base last) = Some address)
  /\ (forall total first,
        (forall r, first = Some r ->
                   plainText (formatDateTime h (row_timestamp r)) = true) ->
        webhookAddress (aggregatedData h env base total first) = Some address).
Proof.
  intros Hc Ha Hline base.
  pose proof (addressOf_nonempty h config address Ha) as Hne.
  set (m := match message with EmptyString => "无详细信息" | _ => message end).
  assert (Hbase : nd_message base = addressLabel ++ address ++ nl ++ m).
  { unfold base, baseData. cbn [nd_message]. rewrite Hc, withAddress_addressOf, Ha.
    reflexivity. }
  split; [|split].
  - apply (webhookAddress_via base address m); auto. now rewrite Hbase.
  - intros last. apply (webhookAddress_via _ address m); auto.
    unfold recoveryData, withDataMessage. cbn [nd_message]. rewrite Hbase.
    set (B := addressLabel ++ address ++ nl ++ m).
    destruct (_ >? 0); unfold nl; skip_lead; reflexivity.
  - intros total first Hplain. apply (webhookAddress_via _ address m); auto.
    unfold aggregatedData. cbn [nd_message]. rewrite Hbase.
    set (B := addressLabel ++ address ++ nl ++ m).
    destruct first as [r|].
    + specialize (Hplain r eq_refl). unfold nl. skip_lead. reflexivity.
    + unfold nl. skip_lead. reflexivity.
Qed.

Lemma webhook_address_is_the_monitor_address_witness :
  webhookAddress (baseData sampleHost (calmEnv 120000) (sampleMonitor 0) PENDING "")
  = Some "http://api".
Proof.
  refine (proj1 (webhook_address_is_the_monitor_address sampleHost (calmEnv 120000)
                   (sampleMonitor 0) PENDING "" _ "http://api" _ _ _));
    reflexivity.
Defined.

(** ** The values put into a webhook body template *)

Lemma replaceChar_app (c : ascii) (r s1 s2 : string) :
  replaceChar c r (s1 ++ s2) = replaceChar c r s1 ++ replaceChar c r s2.
Proof.
  induction s1 as [|x s1 IH]; [reflexivity|].
  cbn [String.append replaceChar]. now rewrite IH, app_string_assoc.
Qed.

Lemma escapeValue_app (v w : string) : escapeValue (v ++ w) = escapeValue v ++ escapeValue w.
Proof. unfold escapeValue. now rewrite !replaceChar_app. Qed.

Lemma escapeValue_cons (c : ascii) (s : string) :
  escapeValue (String c s) = escapeValue (String c EmptyString) ++ escapeValue s.
Proof. now rewrite <- escapeValue_app. Qed.

Lemma escapeValue_char (c : ascii) :
  escapeValue (String c EmptyString)
  = if Ascii.eqb c BACKSLASH then String BACKSLASH (String BACKSLASH EmptyString)
    else if Ascii.eqb c QUOTE then String BACKSLASH (String QUOTE EmptyString)
    else if Ascii.eqb c LF then String BACKSLASH "n"
    else if Ascii.eqb c CR then String BACKSLASH "r"
    else if Ascii.eqb c TAB then String BACKSLASH "t"
    else String c EmptyString.
Proof.
  destruct (Ascii.eqb c BACKSLASH) eqn:E1; [apply Ascii.eqb_eq in E1; now subst c|].
  destruct (Ascii.eqb c QUOTE) eqn:E2; [apply Ascii.eqb_eq in E2; now subst c|].
  destruct (Ascii.eqb c LF) eqn:E3; [apply Ascii.eqb_eq in E3; now subst c|].
  destruct (Ascii.eqb c CR) eqn:E4; [apply Ascii.eqb_eq in E4; now subst c|].
  destruct (Ascii.eqb c TAB) eqn:E5; [apply Ascii.eqb_eq in E5; now subst c|].
  unfold escapeValue. cbn [replaceChar String.append].
  rewrite E1. cbn [replaceChar String.append].
  rewrite E2. cbn [replaceChar String.append].
  rewrite E3. cbn [replaceChar String.append].
  rewrite E4. cbn [replaceChar String.append].
  rewrite E5. reflexivity.
Qed.

Lemma readEscapes_escapeValue (v : string) : readEscapes (escapeValue v) = v.
Proof.
  induction v as [|c v IH]; [reflexivity|].
  rewrite escapeValue_cons, escapeValue_char.
  destruct (Ascii.eqb c BACKSLASH) eqn:E1.
  { apply Ascii.eqb_eq in E1. subst c. cbn. now rewrite IH. }
  destruct (Ascii.eqb c QUOTE) eqn:E2.
  { apply Ascii.eqb_eq in E2. subst c. cbn. now rewrite IH. }
  destruct (Ascii.eqb c LF) eqn:E3.
  { apply Ascii.eqb_eq in E3. subst c. cbn. now rewrite IH. }
  destruct (Ascii.eqb c CR) eqn:E4.
  { apply Ascii.eqb_eq in E4. subst c. cbn. now rewrite IH. }
  destruct (Ascii.eqb c TAB) eqn:E5.
  { apply Ascii.eqb_eq in E5. subst c. cbn. now rewrite IH. }
  cbn [String.append readEscapes]. now rewrite E1, IH.
Qed.

(** X19. The escaping of a value before it is put into a body template
    works character by character: it distributes over concatenation,
    leaves a value without backslash, double quote, line feed, carriage
    return and tab as it is, never leaves a raw line feed, carriage return
    or tab in the result, and maps distinct values to distinct results. *)
Theorem escaped_values_are_single_line_and_distinct (v w : string) :
  escapeValue (v ++ w) = escapeValue v ++ escapeValue w
  /\ (allChars (fun c => negb (isEscaped c)) v = true -> escapeValue v = v)
  /\ allChars (fun c => negb (Ascii.eqb c LF || Ascii.eqb c CR || Ascii.eqb c TAB))
       (escapeValue v) = true
  /\ (escapeValue v = escapeValue w -> v = w).
Proof.
  split; [apply escapeValue_app|]. split; [|split].
  - induction v as [|c v IH]; [reflexivity|].
    cbn [allChars]. intros H. apply andb_prop in H. destruct H as [Hc Hv].
    rewrite escapeValue_cons, escapeValue_char, (IH Hv).
    unfold isEscaped in Hc. apply negb_true_iff in Hc.
    repeat (apply orb_false_elim in Hc; destruct Hc as [Hc ?E]).
    now rewrite Hc, E2, E1, E0, E.
  - induction v as [|c v IH]; [reflexivity|].
    rewrite escapeValue_cons, escapeValue_char, allChars_app, IH, andb_true_r.
    destruct (Ascii.eqb c BACKSLASH); [reflexivity|].
    destruct (Ascii.eqb c QUOTE); [reflexivity|].
    destruct (Ascii.eqb c LF) eqn:E3; [reflexivity|].
    destruct (Ascii.eqb c CR) eqn:E4; [reflexivity|].
    destruct (Ascii.eqb c TAB) eqn:E5; [reflexivity|].
    cbn [allChars]. now rewrite E3, E4, E5.
  - intros H. rewrite <- (readEscapes_escapeValue v), <- (readEscapes_escapeValue w).
    now rewrite H.
Qed.

(** ** An outage, from the DOWN notification to the recovery *)

(** X20. The duration in a recovery message counts from the last DOWN
    notification, not from the start of the outage. When a DOWN evaluation
    at time [tA] has sent a notification (the first of the outage or a
    repeat) and the next evaluation that gets through is an UP with
    previous status DOWN at time [tB], the recovery message reports the
    whole minutes from [tA] to [tB], and leaves the sentence out when they
    are 0; the two payloads are the only ones sent. *)
Theorem recovery_duration_counts_from_last_down_notification (h : Host)
    (envA envB : EngineEnv) (dbA dbB : Database) (monitorId msgA msgB : string)
    (prevA : option Z) (st : EngineState) (monitor : MonitorRow) (dA : NotificationData) :
  let stA := snd (sendStatusChangeNotifications h envA dbA monitorId DOWN msgA prevA st) in
  emitted st stA = [dA] ->
  query_fault envB QFindMonitor = None ->
  db_monitors dbB !! monitorId = Some monitor ->
  enabledBindings monitor <> [] ->
  isNewMonitor dbB monitorId = false ->
  let stB := snd (sendStatusChangeNotifications h envB dbB monitorId UP msgB (Some DOWN)
                    stA) in
  let D := (env_now envB - env_now envA) / 60000 in
  exists dB,
    emitted stA stB = [dB]
    /\ nd_message dB
       = "监控已恢复正常。"
         ++ (if 0 <? D then "故障持续了约 " ++ numToString D ++ " 分钟。" else "")
         ++ nl ++ nd_message (baseData h envB monitor UP msgB)
    /\ emitted st stB = [dA; dB].
Proof.
  intros stA HA Hq Hm Hb Hnew stB D. unfold DOWN, UP in *.
  assert (HcacheA : notificationCache stA !! monitorId = Some (env_now envA, 0)
                    /\ st_notified stA = (st_notified st ++ [dA])%list).
  { destruct (engine_spec h envA dbA monitorId 0 msgA prevA st)
      as (st1 & E & [Hquiet | (m & d & _ & _ & _ & _ & _ & _ & Hann & _)]).
    - exfalso. unfold stA in HA. rewrite E in HA. cbn [snd] in HA.
      rewrite (emitted_quiet _ _ Hquiet) in HA. discriminate.
    - unfold stA in *. rewrite E in *. cbn [snd] in *.
      rewrite (emitted_announced _ _ _ _ _ _ _ Hann) in HA. injection HA as ->.
      destruct Hann as (Hc & Hn & _). split; [rewrite Hc; apply lookup_insert_eq | exact Hn]. }
  destruct HcacheA as [Hcache HnA].
  destruct (change_call_announces h envB dbB monitorId msgB 1 (Some 0) stA monitor
              Hq Hm Hb) as (st2 & E & Hann); [discriminate | discriminate | now left |].
  fold stA in E. unfold stB. rewrite E. cbn [snd].
  rewrite Hnew in Hann. cbn [realPrevStatus negb andb] in Hann.
  change (1 =? 1) with true in Hann. cbv iota in Hann.
  eexists. split; [exact (emitted_announced _ _ _ _ _ _ _ Hann)|]. split.
  - rewrite Hcache. unfold recoveryData, withDataMessage. cbn [nd_message].
    rewrite minutes_floor, Z.gtb_ltb. reflexivity.
  - destruct Hann as (_ & Hn & _). unfold emitted. rewrite Hn, HnA, <- app_assoc.
    rewrite skipn_app, skipn_all, Nat.sub_diag. reflexivity.
Qed.

(** A DOWN notification at 60.5 s and the recovery at 185 s: two minutes. *)
Lemma recovery_duration_counts_from_last_down_notification_witness :
  let dbB := mkDatabase (db_monitors (sampleDb 0 []))
               (db_history (sampleDb 0 [1]) ++ [mkRow "u2" "m1" 1 None None None 185000])%list in
  let stA := snd (sendStatusChangeNotifications sampleHost (calmEnv 60500) (sampleDb 0 [1])
                    "m1" DOWN "HTTP 500" (Some UP) freshEngine) in
  let stB := snd (sendStatusChangeNotifications sampleHost (calmEnv 185000) dbB "m1" UP
                    "HTTP 200" (Some DOWN) stA) in
  exists dB,
    emitted stA stB = [dB]
    /\ nd_message dB
       = "监控已恢复正常。故障持续了约 2 分钟。" ++ nl ++ "监控地址: http://api" ++ nl
         ++ "HTTP 200".
Proof.
  intros dbB stA stB.
  destruct (recovery_duration_counts_from_last_down_notification sampleHost
              (calmEnv 60500) (calmEnv 185000) (sampleDb 0 [1]) dbB "m1" "HTTP 500"
              "HTTP 200" (Some UP) freshEngine (sampleMonitor 0)
              (aggregatedData sampleHost (calmEnv 60500)
                 (baseData sampleHost (calmEnv 60500) (sampleMonitor 0) DOWN "HTTP 500")
                 1 (Some (downRow 1))))
    as (dB & H1 & H2 & _);
    [reflexivity | reflexivity | reflexivity | discriminate | reflexivity |].
  exists dB. split; [exact H1 | exact H2].
Defined.
